(** * TabletGateway: a shallow embedding of go/vt/vtgate/tabletgateway.go

    The gateway talks to many collaborators that live in other packages
    (health check, keyspace event watcher, failover buffer, balancer, the
    random source, the inner query function).  A gateway method is embedded
    as a finite tree of calls to those collaborators: every call site of the
    Go code is one [Vis] node, every [return] is a [Ret] leaf and a run-time
    panic is a [Panic] leaf.  Running a tree against an arbitrary handler of
    the calls yields the returned value together with the log of the calls
    that were made and of what they answered. *)

From Stdlib Require Import ZArith Lia.
From stdpp Require Import gmap strings list fin_maps.

Local Open Scope Z_scope.

(** ** Data model *)

(** Modelled from the spec: the topodata tablet type enumeration is declared
    outside the files at hand; the spec names PRIMARY, REPLICA and RDONLY and
    leaves the others open, they are kept by their protobuf number. *)
Inductive TabletType : Type :=
| PRIMARY
| REPLICA
| RDONLY
| OtherTabletType (number : Z).

#[global] Instance TabletType_eq_dec : EqDecision TabletType.
Proof. solve_decision. Defined.

(** querypb.Target *)
Record Target : Type := mkTarget {
  Keyspace : string;
  Shard : string;
  TabletType_ : TabletType
}.

(** topodatapb.TabletAlias *)
Record TabletAlias : Type := mkAlias {
  Cell : string;
  Uid : N
}.

(** topodatapb.Tablet, with the fields the gateway reads.
    DefaultConnCollation is a uint32; it is only stored and compared. *)
Record Tablet : Type := mkTablet {
  Alias : TabletAlias;
  DefaultConnCollation : N
}.

(** A connection to a tablet (queryservice.QueryService); opaque here. *)
Record QueryService : Type := mkConn { conn_id : N }.

(** discovery.TabletHealth; [Conn = None] is the nil connection. *)
Record TabletHealth : Type := mkHealth {
  Tablet_ : Tablet;
  Conn : option QueryService
}.

(** vtrpcpb.Code, the codes the gateway produces. *)
Inductive Code : Type :=
| Code_INTERNAL
| Code_FAILED_PRECONDITION
| Code_UNAVAILABLE
| Code_CLUSTER_EVENT
| Code_OTHER (number : Z).

(** Errors.  [Errorf] and [Wrapf] keep the format string and the arguments
    they were given (the rendering is fmt's business); the context package's
    two sentinel errors are compared by identity in WaitForTablets and get a
    constructor each; VT14002 and VT14003 are the vterrors constants. *)
Inductive FmtArg : Type :=
| AString (s : string)
| ATabletType (t : TabletType)
| ATabletTypes (l : list TabletType)
| ATarget (t : Target)
| AError (e : option Error)
with Error : Type :=
| Errorf (code : Code) (format : string) (args : list FmtArg)
| Wrapf (cause : Error) (format : string) (args : list FmtArg)
| VT14002
| VT14003 (tablet : Tablet)
| DeadlineExceeded
| Canceled.

(** The Go [error] interface value; [None] is nil. *)
Abbreviation error := (option Error).

(** Names and constants that are declared in packages outside the files at
    hand: topoproto's two string functions and the buffer package's two
    cluster event reasons. *)
Class Externals : Type := {
  TabletAliasString : TabletAlias -> string;
  TabletTypeLString : TabletType -> string;
  ClusterEventReshardingInProgress : string;
  ClusterEventReparentInProgress : string
}.

(** ** Collaborator calls *)

Inductive Call : Type :=
| CWaitForFailoverEnd (keyspace shard : string) (err : error)
| CRetryDone
| CGetHealthyTabletStats (target : Target)
| CTargetIsBeingResharded (target : Target)
| CShouldStartBufferingForTarget (target : Target)
| CBalancerPick (target : Target) (tablets : list TabletHealth)
| CRandIntN (n : Z)
| CInner (target : Target) (th : TabletHealth)
| CUpdateStats (target : Target) (failed : bool)
| CLogWarningf (format : string)
| CFindAllTargetsAndKeyspaces (tabletTypes : list TabletType)
| CWaitForAllServingTablets (targets : list Target)
| CWaitForConsistentKeyspaces (keyspaces : list string)
| CKevGetServingKeyspaces.

(** What each call answers.  WaitForFailoverEnd answers whether retryDone
    is non-nil, and bufferErr; ShouldStartBufferingForTarget answers the
    primary (nil or not) and shouldBuffer; inner answers canRetry and err. *)
Definition Resp (c : Call) : Type :=
  match c with
  | CWaitForFailoverEnd _ _ _ => (bool * error)%type
  | CRetryDone => unit
  | CGetHealthyTabletStats _ => list TabletHealth
  | CTargetIsBeingResharded _ => bool
  | CShouldStartBufferingForTarget _ => (option Tablet * bool)%type
  | CBalancerPick _ _ => option TabletHealth
  | CRandIntN _ => Z
  | CInner _ _ => (bool * error)%type
  | CUpdateStats _ _ => unit
  | CLogWarningf _ => unit
  | CFindAllTargetsAndKeyspaces _ => (list Target * list string * error)%type
  | CWaitForAllServingTablets _ => error
  | CWaitForConsistentKeyspaces _ => error
  | CKevGetServingKeyspaces => list string
  end.

(** One log entry: a call and its answer. *)
Definition Entry : Type := { c : Call & Resp c }.
Definition entry (c : Call) (r : Resp c) : Entry := existT c r.

Inductive Prog (A : Type) : Type :=
| Ret (a : A)
| Panic
| Vis (c : Call) (k : Resp c -> Prog A).
Arguments Ret {A} a.
Arguments Panic {A}.
Arguments Vis {A} c k.

Fixpoint bind {A B : Type} (p : Prog A) (f : A -> Prog B) : Prog B :=
  match p with
  | Ret a => f a
  | Panic => Panic
  | Vis c k => Vis c (fun r => bind (k r) f)
  end.

Definition call (c : Call) : Prog (Resp c) := Vis c Ret.

#[global] Instance Prog_ret : MRet Prog := @Ret.
#[global] Instance Prog_bind : MBind Prog := fun A B f p => bind p f.

(** A handler answers every call, threading a state of its own. *)
Definition Handler (W : Type) : Type := forall c : Call, W -> Resp c * W.

(** The outcome of a run: the value returned ([None] after a panic), the
    handler's final state and the log of calls in the order they happened. *)
Fixpoint run {W A : Type} (h : Handler W) (p : Prog A) (w : W)
  : option A * W * list Entry :=
  match p with
  | Ret a => (Some a, w, [])
  | Panic => (None, w, [])
  | Vis c k =>
      let '(r, w1) := h c w in
      let '(a, w2, log) := run h (k r) w1 in
      (a, w2, entry c r :: log)
  end.

Definition result {W A : Type} (o : option A * W * list Entry) : option A := o.1.1.
Definition final {W A : Type} (o : option A * W * list Entry) : W := o.1.2.
Definition calls {W A : Type} (o : option A * W * list Entry) : list Entry := o.2.

(** ** Go integers and slices *)

(** A Go [int] is 64 bits wide here; arithmetic on it wraps around. *)
Definition wrap64 (z : Z) : Z := (z + 2 ^ 63) mod 2 ^ 64 - 2 ^ 63.

(** [l[i]] for a Go int [i]; [None] is the index-out-of-range panic. *)
Definition index {A : Type} (l : list A) (i : Z) : option A :=
  if i <? 0 then None else l !! Z.to_nat i.

(** [l[a], l[b] = l[b], l[a]]: both operands are read, then [l[a]] and
    [l[b]] are written in that order. *)
Definition swap {A : Type} (l : list A) (a b : Z) : option (list A) :=
  match index l b, index l a with
  | Some x, Some y => Some (<[Z.to_nat b := y]> (<[Z.to_nat a := x]> l))
  | _, _ => None
  end.

(** ** The gateway *)

(** The package-level flags the dispatcher reads. *)
Record Flags : Type := mkFlags {
  AllowedTabletTypes : list TabletType;
  balancerEnabled : bool;
  balancerKeyspaces : list string
}.

(** TabletGateway.  [kev] and [buffer] say whether the pointer is non-nil;
    [hc] is always set by NewTabletGateway and [balancer] is set whenever
    balancerEnabled is, so calls on them are plain collaborator calls. *)
Record TabletGateway : Type := mkGateway {
  kev : bool;
  localCell : string;
  retryCount : Z;
  defaultConnCollation : N;
  buffer : bool
}.

Definition set_defaultConnCollation (v : N) (gw : TabletGateway) : TabletGateway :=
  {| kev := kev gw; localCell := localCell gw; retryCount := retryCount gw;
     defaultConnCollation := v; buffer := buffer gw |}.

(** *** shuffleTablets *)

Record ShuffleState : Type := mkShuffle {
  head : Z;
  tail : Z;
  tablets : list TabletHealth
}.

(** The loop body once [j] is known. *)
Definition shuffleStep (cell : string) (j : Z) (s : ShuffleState) : option ShuffleState :=
  match index (tablets s) j with
  | None => None
  | Some tj =>
      if bool_decide (Cell (Alias (Tablet_ tj)) = cell)
      then l ← swap (tablets s) (head s) j;
           Some {| head := head s + 1; tail := tail s; tablets := l |}
      else l ← swap (tablets s) (tail s) j;
           Some {| head := head s; tail := tail s - 1; tablets := l |}
  end.

(** [for i := 0; i < n-1; i++]: the body does not read [i], the loop is
    unrolled [n-1] times.  rand.IntN panics when its argument is not
    positive.  Every integer of the loop lies between -1 and the length of
    the slice, so none of its additions can wrap. *)
Fixpoint shuffleLoop (cell : string) (iterations : nat) (s : ShuffleState)
  : Prog ShuffleState :=
  match iterations with
  | O => Ret s
  | S rest =>
      if tail s - head s + 1 <=? 0 then Panic
      else Vis (CRandIntN (tail s - head s + 1)) (fun r =>
             match shuffleStep cell (head s + r) s with
             | None => Panic
             | Some s' => shuffleLoop cell rest s'
             end)
  end.

Definition shuffleStart (l : list TabletHealth) : ShuffleState :=
  {| head := 0; tail := Z.of_nat (length l) - 1; tablets := l |}.

Definition shuffleTablets (cell : string) (l : list TabletHealth)
  : Prog (list TabletHealth) :=
  s ← shuffleLoop cell (Z.to_nat (Z.of_nat (length l) - 1)) (shuffleStart l);
  Ret (tablets s).

(** *** updateDefaultConnCollation *)

(** atomic.Uint32.CompareAndSwap on the stored value: whether it swapped,
    and the value stored afterwards. *)
Definition CompareAndSwap (stored old new : N) : bool * N :=
  if (stored =? old)%N then (true, new) else (false, stored).

(** Returns the value stored afterwards and whether the warning branch was
    taken. *)
Definition updateDefaultConnCollation (stored : N) (tablet : Tablet) : N * bool :=
  let '(swapped, stored') := CompareAndSwap stored 0 (DefaultConnCollation tablet) in
  if swapped then (stored', false)
  else if negb (stored' =? DefaultConnCollation tablet)%N then (stored', true)
  else (stored', false).

(** A sequence of calls, one per observed tablet: the value stored at the
    end and, per call, whether it warned. *)
Fixpoint updateAll (stored : N) (observed : list Tablet) : N * list bool :=
  match observed with
  | [] => (stored, [])
  | t :: rest =>
      let '(stored', warned) := updateDefaultConnCollation stored t in
      let '(final, warnings) := updateAll stored' rest in
      (final, warned :: warnings)
  end.

(** Gateway methods depend on the names declared elsewhere. *)
Section Gateway.
Context `{Ext : Externals}.

(** *** NewShardError *)

Definition NewShardError (in_ : error) (target : option Target) : error :=
  match in_ with
  | None => None
  | Some e =>
      match target with
      | Some t =>
          Some (Wrapf e "target: %s.%s.%s"
                  [AString (Keyspace t); AString (Shard t);
                   AString (TabletTypeLString (TabletType_ t))])
      | None => Some e
      end
  end.

(** *** GetServingKeyspaces; the nil slice is the empty list. *)

Definition GetServingKeyspaces (gw : TabletGateway) : Prog (list string) :=
  if negb (kev gw) then Ret []
  else Vis CKevGetServingKeyspaces Ret.

(** *** WaitForTablets *)

(** The context with its timeout stays with the collaborators that wait on
    it; log.Infof lines are left out, the warning is kept;
    topoproto.IsTypeInList is list membership. *)

(** The deferred function, applied to the named result [err]. *)
Definition WaitForTablets_deferred (err : error) : Prog error :=
  match err with
  | None => Ret None
  | Some DeadlineExceeded =>
      Vis (CLogWarningf "Timeout waiting for all keyspaces / shards to have healthy tablets of types %v, may be in degraded mode")
          (fun _ => Ret None)
  | Some e => Ret (Some e)
  end.

Definition WaitForTablets (gw : TabletGateway) (tabletTypesToWait : list TabletType)
  : Prog error :=
  err ← (if bool_decide (length tabletTypesToWait = 0%nat) then Ret None
         else
           Vis (CFindAllTargetsAndKeyspaces tabletTypesToWait) (fun '(targets, keyspaces, err) =>
             match err with
             | Some e => Ret (Some e)
             | None =>
                 Vis (CWaitForAllServingTablets targets) (fun err =>
                   match err with
                   | Some e => Ret (Some e)
                   | None =>
                       if bool_decide (PRIMARY ∈ tabletTypesToWait) && kev gw
                       then Vis (CWaitForConsistentKeyspaces keyspaces) Ret
                       else Ret None
                   end)
             end));
  WaitForTablets_deferred err.

(** *** withRetry *)

(** The local variables of withRetry that live across iterations, and the
    gateway's atomic collation.  retryDone is deferred exactly when
    [bufferedOnce] is set. *)
Record LoopState : Type := mkLoop {
  err : error;
  invalidTablets : gmap string bool;
  bufferedOnce : bool;
  tabletLastUsed : option Tablet;
  collation : N
}.

Definition set_err (e : error) (st : LoopState) : LoopState :=
  {| err := e; invalidTablets := invalidTablets st; bufferedOnce := bufferedOnce st;
     tabletLastUsed := tabletLastUsed st; collation := collation st |}.
Definition set_invalid (alias : string) (st : LoopState) : LoopState :=
  {| err := err st; invalidTablets := <[alias := true]> (invalidTablets st);
     bufferedOnce := bufferedOnce st; tabletLastUsed := tabletLastUsed st;
     collation := collation st |}.
Definition set_bufferedOnce (st : LoopState) : LoopState :=
  {| err := err st; invalidTablets := invalidTablets st; bufferedOnce := true;
     tabletLastUsed := tabletLastUsed st; collation := collation st |}.
Definition set_tabletLastUsed (t : Tablet) (st : LoopState) : LoopState :=
  {| err := err st; invalidTablets := invalidTablets st; bufferedOnce := bufferedOnce st;
     tabletLastUsed := Some t; collation := collation st |}.
Definition set_collation (v : N) (st : LoopState) : LoopState :=
  {| err := err st; invalidTablets := invalidTablets st; bufferedOnce := bufferedOnce st;
     tabletLastUsed := tabletLastUsed st; collation := v |}.

(** How an iteration of the loop ends. *)
Inductive Ctl : Type := Continue | Break.

Definition aliasOf (th : TabletHealth) : string :=
  TabletAliasString (Alias (Tablet_ th)).

(** [_, ok := invalidTablets[alias]] *)
Definition isInvalid (st : LoopState) (th : TabletHealth) : bool :=
  bool_decide (is_Some (invalidTablets st !! aliasOf th)).

(** The buffer check at the top of an iteration; [inl] is the break. *)
Definition bufferCheck (gw : TabletGateway) (target : Target) (inTransaction : bool)
    (st : LoopState) : Prog (LoopState + LoopState) :=
  if buffer gw && negb (bufferedOnce st) && negb inTransaction
     && bool_decide (TabletType_ target = PRIMARY)
  then
    Vis (CWaitForFailoverEnd (Keyspace target) (Shard target) (err st))
      (fun '(retryDone, bufferErr) =>
         let st1 := if retryDone then set_bufferedOnce st else st in
         match bufferErr with
         | Some be =>
             Ret (inl (set_err
               (Some (Wrapf be
                  "failed to automatically buffer and retry failed request during failover. original err (type=%T): %v"
                  [AError (err st); AError (err st)])) st1))
         | None => Ret (inr st1)
         end)
  else Ret (inr st).

(** [len(tablets) == 0] *)
Definition noTablets (gw : TabletGateway) (target : Target) (st : LoopState)
  : Prog (Ctl * LoopState) :=
  let failFast :=
    Ret (Break, set_err (Some (Errorf Code_UNAVAILABLE
                                 "no healthy tablet available for '%s'"
                                 [ATarget target])) st) in
  if kev gw && bool_decide (TabletType_ target = PRIMARY) then
    Vis (CTargetIsBeingResharded target) (fun resharded =>
      if resharded
      then Ret (Continue, set_err (Some (Errorf Code_CLUSTER_EVENT
                                           ClusterEventReshardingInProgress [])) st)
      else
        Vis (CShouldStartBufferingForTarget target) (fun '(primary, shouldBuffer) =>
          if shouldBuffer
          then Ret (Continue, set_err (Some (Errorf Code_CLUSTER_EVENT
                                               ClusterEventReparentInProgress [])) st)
          else
            match primary with
            | Some _ =>
                Ret (Continue, set_err (Some (Errorf Code_UNAVAILABLE
                  "inconsistent state detected, primary is serving but initially found no available tablet"
                  [])) st)
            | None => failFast
            end))
  else failFast.

Definition useBalancer (fl : Flags) (target : Target) : bool :=
  if balancerEnabled fl && bool_decide (0 < length (balancerKeyspaces fl))%nat
  then bool_decide (Keyspace target ∈ balancerKeyspaces fl)
  else balancerEnabled fl.

(** The choice of [th]; [None] is nil. *)
Definition pickTablet (fl : Flags) (gw : TabletGateway) (target : Target)
    (st : LoopState) (tablets : list TabletHealth) : Prog (option TabletHealth) :=
  if useBalancer fl target then
    let tablets :=
      if bool_decide (0 < size (invalidTablets st))%nat
      then List.filter (fun t => negb (isInvalid st t)) tablets
      else tablets in
    Vis (CBalancerPick target tablets) Ret
  else
    tablets ← shuffleTablets (localCell gw) tablets;
    Ret (List.find (fun t => negb (isInvalid st t)) tablets).

(** The call of [inner] and what follows it in the body. *)
Definition attempt (target : Target) (st : LoopState) (th : TabletHealth)
  : Prog (Ctl * LoopState) :=
  Vis (CInner target th) (fun '(canRetry, e) =>
    let st := set_err e st in
    Vis (CUpdateStats target (bool_decide (e <> None))) (fun _ =>
      if canRetry
      then Ret (Continue, set_invalid (aliasOf th) st)
      else Ret (Break, st))).

(** From [tabletLastUsed = th.Tablet] to the end of the body. *)
Definition execute (target : Target) (st : LoopState) (th : TabletHealth)
  : Prog (Ctl * LoopState) :=
  let st := set_tabletLastUsed (Tablet_ th) st in
  match Conn th with
  | None =>
      Ret (Continue, set_invalid (aliasOf th) (set_err (Some (VT14003 (Tablet_ th))) st))
  | Some _ =>
      let '(stored, warned) := updateDefaultConnCollation (collation st) (Tablet_ th) in
      let st := set_collation stored st in
      if warned
      then Vis (CLogWarningf "this Vitess cluster has tablets with different default connection collations")
               (fun _ => attempt target st th)
      else attempt target st th
  end.

(** One iteration of the retry loop. *)
Definition iteration (fl : Flags) (gw : TabletGateway) (target : Target)
    (inTransaction : bool) (st : LoopState) : Prog (Ctl * LoopState) :=
  checked ← bufferCheck gw target inTransaction st;
  match checked with
  | inl st => Ret (Break, st)
  | inr st =>
      Vis (CGetHealthyTabletStats target) (fun tablets =>
        if bool_decide (length tablets = 0%nat) then noTablets gw target st
        else
          th ← pickTablet fl gw target st tablets;
          match th with
          | None =>
              Ret (Break, match err st with
                          | None => set_err (Some VT14002) st
                          | Some _ => st
                          end)
          | Some th => execute target st th
          end)
  end.

(** [for i := 0; i < gw.retryCount+1; i++]: the body does not read [i]. *)
Fixpoint retryLoop (fl : Flags) (gw : TabletGateway) (target : Target)
    (inTransaction : bool) (iterations : nat) (st : LoopState) : Prog LoopState :=
  match iterations with
  | O => Ret st
  | S rest =>
      '(ctl, st) ← iteration fl gw target inTransaction st;
      match ctl with
      | Continue => retryLoop fl gw target inTransaction rest st
      | Break => Ret st
      end
  end.

Definition retryLimit (gw : TabletGateway) : Z := wrap64 (retryCount gw + 1).

(** The locals as declared before the loop. *)
Definition loopStart (gw : TabletGateway) : LoopState :=
  {| err := None; invalidTablets := ∅; bufferedOnce := false;
     tabletLastUsed := None; collation := defaultConnCollation gw |}.

(** withRetry returns the error; the gateway comes back with its atomic
    collation as the dispatch left it. *)
Definition withRetry (fl : Flags) (gw : TabletGateway) (target : Target)
    (inTransaction : bool) : Prog (TabletGateway * error) :=
  if inTransaction && negb (bool_decide (TabletType_ target = PRIMARY)) then
    Ret (gw, Some (Errorf Code_INTERNAL
      "tabletGateway's query service can only be used for non-transactional queries on replicas"
      []))
  else if bool_decide (0 < length (AllowedTabletTypes fl))%nat
          && negb (bool_decide (TabletType_ target ∈ AllowedTabletTypes fl)) then
    Ret (gw, Some (Errorf Code_FAILED_PRECONDITION
      "requested tablet type %v is not part of the allowed tablet types for this vtgate: %+v"
      [ATabletType (TabletType_ target); ATabletTypes (AllowedTabletTypes fl)]))
  else
    st ← retryLoop fl gw target inTransaction (Z.to_nat (retryLimit gw)) (loopStart gw);
    let returned := NewShardError (err st) (Some target) in
    _ ← (if bufferedOnce st then Vis CRetryDone (fun _ => Ret tt) else Ret tt);
    Ret (set_defaultConnCollation (collation st) gw, returned).

End Gateway.

(** ** Notions used to state the properties *)

(** The first non-zero value of a sequence, 0 when there is none. *)
Definition firstNonZero (l : list N) : N :=
  default 0%N (List.find (fun v => negb (v =? 0)%N) l).

(** The stored value seen by call number [k] of a sequence. *)
Definition storedBefore (stored : N) (observed : list Tablet) (k : nat) : N :=
  (updateAll stored (take k observed)).1.

(** A tablet of the given cell. *)
Definition sameCell (cell : string) (th : TabletHealth) : Prop :=
  Cell (Alias (Tablet_ th)) = cell.

(** The invariant of the shuffle loop with [k] iterations left over a slice
    of length [n]: the same-cell tablets found so far sit before [head], the
    others after [tail]. *)
Record shuffleInv (cell : string) (n : Z) (k : nat) (s : ShuffleState) : Prop := {
  inv_len : Z.of_nat (length (tablets s)) = n;
  inv_head : 0 <= head s;
  inv_gap : tail s - head s = Z.of_nat k;
  inv_tail : tail s <= n - 1;
  inv_front : forall (i : nat) (th : TabletHealth),
      tablets s !! i = Some th -> Z.of_nat i < head s -> sameCell cell th;
  inv_back : forall (i : nat) (th : TabletHealth),
      tablets s !! i = Some th -> tail s < Z.of_nat i -> ~ sameCell cell th
}.

(** A handler honours the contract of rand.IntN when every answer to a
    positive argument [n] lies in [0, n). *)
Definition rng_ok {W : Type} (h : Handler W) : Prop :=
  forall (n : Z) (w : W), 0 < n -> 0 <= (h (CRandIntN n) w).1 < n.

(** The answers of the health view found in a log, in order. *)
Definition lookupAnswer (e : Entry) : option (list TabletHealth) :=
  match e with
  | existT (CGetHealthyTabletStats _) r => Some r
  | _ => None
  end.
Definition lookups (log : list Entry) : list (list TabletHealth) :=
  omap lookupAnswer log.

(** The attempts found in a log, in order: the tablet whose connection the
    inner function was given, and what it answered (canRetry, err). *)
Definition attemptOf (e : Entry) : option (TabletHealth * (bool * error)) :=
  match e with
  | existT (CInner _ th) r => Some (th, r)
  | _ => None
  end.
Definition attempts (log : list Entry) : list (TabletHealth * (bool * error)) :=
  omap attemptOf log.

(** The error of the last attempt of a log, if there was an attempt. *)
Definition lastAttemptError (log : list Entry) : option error :=
  (fun a => a.2.2) <$> last (attempts log).

(** A handler honours the contract of the balancer when Pick answers nil or
    one of the tablets it was given. *)
Definition pick_ok {W : Type} (h : Handler W) : Prop :=
  forall (target : Target) (l : list TabletHealth) (w : W) (th : TabletHealth),
    (h (CBalancerPick target l) w).1 = Some th -> th ∈ l.

(** The answers of the failover buffer found in a log, in order: whether
    retryDone is non-nil, and bufferErr. *)
Definition waitOf (e : Entry) : option (bool * error) :=
  match e with
  | existT (CWaitForFailoverEnd _ _ _) r => Some r
  | _ => None
  end.
Definition waits (log : list Entry) : list (bool * error) :=
  omap waitOf log.

(** A log without attempt, candidate lookup or buffer wait. *)
Definition quiet (log : list Entry) : Prop :=
  attempts log = [] /\ lookups log = [] /\ waits log = [].

Section Notions.
Context `{Ext : Externals}.

(** The aliases of the tablets attempted in a log, in order. *)
Definition attempted (log : list Entry) : list string :=
  (fun a => aliasOf a.1) <$> attempts log.

(** How an iteration of the retry loop can go, seen from its log and from
    the locals before ([st]) and after ([st1]): the buffer failed, no
    healthy tablet was reported, no tablet was picked, the picked tablet had
    no connection, or the picked tablet was attempted. *)
Inductive Outcome {W : Type} (h : Handler W) (target : Target)
    (st : LoopState) (ctl : Ctl) (st1 : LoopState) (log : list Entry) : Prop :=
| BufferFailed (keyspace shard : string) (prev : error) (v : W) (bufferErr : Error) :
    (h (CWaitForFailoverEnd keyspace shard prev) v).1.2 = Some bufferErr ->
    ctl = Break -> attempts log = [] -> lookups log = [] ->
    invalidTablets st1 = invalidTablets st ->
    Outcome h target st ctl st1 log
| NoneHealthy (v : W) :
    (h (CGetHealthyTabletStats target) v).1 = [] ->
    attempts log = [] -> length (lookups log) = 1%nat ->
    invalidTablets st1 = invalidTablets st ->
    Outcome h target st ctl st1 log
| NonePicked :
    ctl = Break -> attempts log = [] -> length (lookups log) = 1%nat ->
    invalidTablets st1 = invalidTablets st ->
    (err st <> None -> err st1 = err st) ->
    Outcome h target st ctl st1 log
| NoConnection (v : W) (th : TabletHealth) :
    (pick_ok h -> th ∈ (h (CGetHealthyTabletStats target) v).1) ->
    Conn th = None ->
    ctl = Continue -> attempts log = [] -> length (lookups log) = 1%nat ->
    invalidTablets st1 = <[aliasOf th := true]> (invalidTablets st) ->
    Outcome h target st ctl st1 log
| Attempted (v v' : W) (th : TabletHealth) (canRetry : bool) (e : error) :
    (pick_ok h -> th ∈ (h (CGetHealthyTabletStats target) v).1) ->
    (pick_ok h -> invalidTablets st !! aliasOf th = None) ->
    (h (CInner target th) v').1 = (canRetry, e) ->
    attempts log = [(th, (canRetry, e))] -> length (lookups log) = 1%nat ->
    err st1 = e ->
    ctl = (if canRetry then Continue else Break) ->
    invalidTablets st1 =
      (if canRetry then <[aliasOf th := true]> (invalidTablets st) else invalidTablets st) ->
    Outcome h target st ctl st1 log.

End Notions.

(** The error a waiting call of WaitForTablets answered, and the error of
    the last waiting call of a log: the one the wait ended with. *)
Definition waitAnswer (e : Entry) : option error :=
  match e with
  | existT (CFindAllTargetsAndKeyspaces _) r => Some r.2
  | existT (CWaitForAllServingTablets _) r => Some r
  | existT (CWaitForConsistentKeyspaces _) r => Some r
  | _ => None
  end.
Definition waitError (log : list Entry) : error :=
  default None (last (omap waitAnswer log)).

(** The error a terminated dispatch returned. *)
Definition returned {W : Type} (o : option (TabletGateway * error) * W * list Entry)
  : option error :=
  snd <$> result o.

(** ** Concrete inputs *)

Module Sample.

#[export] Instance names : Externals := {|
  TabletAliasString a := Cell a +:+ "-" +:+ String (Ascii.ascii_of_N (48 + Uid a)) "";
  TabletTypeLString t :=
    match t with
    | PRIMARY => "primary"
    | REPLICA => "replica"
    | RDONLY => "rdonly"
    | OtherTabletType _ => "unknown"
    end;
  ClusterEventReshardingInProgress := "current keyspace is being resharded";
  ClusterEventReparentInProgress :=
    "primary is not serving, there may be a reparent operation in progress"
|}.

Definition tablet1 : Tablet := mkTablet (mkAlias "zone1" 1) 33.
Definition tablet2 : Tablet := mkTablet (mkAlias "zone2" 2) 0.
Definition tablet3 : Tablet := mkTablet (mkAlias "zone1" 3) 45.

Definition health1 : TabletHealth := mkHealth tablet1 (Some (mkConn 1)).
Definition health2 : TabletHealth := mkHealth tablet2 (Some (mkConn 2)).
Definition health3 : TabletHealth := mkHealth tablet3 (Some (mkConn 3)).

Definition primary : Target := mkTarget "commerce" "-80" PRIMARY.
Definition replica : Target := mkTarget "commerce" "-80" REPLICA.

Definition noFlags : Flags := mkFlags [] false [].
Definition primaryOnly : Flags := mkFlags [PRIMARY] false [].

(** retry-count 2, watcher and buffer present. *)
Definition gateway : TabletGateway := mkGateway true "zone1" 2 0 true.
(** Buffering disabled: neither watcher nor buffer. *)
Definition plainGateway : TabletGateway := mkGateway false "zone1" 2 0 false.

Definition netError (th : TabletHealth) : Error :=
  Errorf Code_UNAVAILABLE "connection refused by %s"
    [AString (TabletAliasString (Alias (Tablet_ th)))].
Definition bufferFull : Error := Errorf Code_UNAVAILABLE "primary buffer is full" [].

Definition fleet : list TabletHealth := [health1; health3].

(** A fleet in which every attempt fails retryably: the health view
    always reports [healthy], the random source answers its state modulo
    the bound, the balancer picks the first tablet it is given, the
    watcher sees neither resharding nor a primary, and when
    [bufferGivesUp] the buffer lets a dispatch through until it has
    failed once and answers with an error afterwards.  The state counts
    the calls answered so far. *)
Definition handler (bufferGivesUp : bool) (healthy : list TabletHealth) : Handler nat :=
  fun c w =>
  match c as c0 return Resp c0 * nat with
  | CWaitForFailoverEnd _ _ prev =>
      ((false, match prev with
               | Some _ => if bufferGivesUp then Some bufferFull else None
               | None => None
               end), S w)
  | CRetryDone => (tt, S w)
  | CGetHealthyTabletStats _ => (healthy, S w)
  | CTargetIsBeingResharded _ => (false, S w)
  | CShouldStartBufferingForTarget _ => ((None, false), S w)
  | CBalancerPick _ l => (List.head l, S w)
  | CRandIntN n => (Z.of_nat w mod n, S w)
  | CInner _ th => ((true, Some (netError th)), S w)
  | CUpdateStats _ _ => (tt, S w)
  | CLogWarningf _ => (tt, S w)
  | CFindAllTargetsAndKeyspaces _ => (([replica], ["commerce"], None), S w)
  | CWaitForAllServingTablets _ => (Some DeadlineExceeded, S w)
  | CWaitForConsistentKeyspaces _ => (None, S w)
  | CKevGetServingKeyspaces => (["commerce"], S w)
  end.

Definition steady : list TabletHealth -> Handler nat := handler false.
Definition failing : list TabletHealth -> Handler nat := handler true.

End Sample.

(** ** Call discipline *)

(** [sat P Q p]: whatever the collaborators answer, every call the program
    [p] makes satisfies [P] and every value it returns satisfies [Q]. *)
Fixpoint sat {A : Type} (P : Call -> Prop) (Q : A -> Prop) (p : Prog A) : Prop :=
  match p with
  | Ret a => Q a
  | Panic => True
  | Vis c k => P c /\ forall r : Resp c, sat P Q (k r)
  end.

(** The call of a log entry. *)
Definition callOf (e : Entry) : Call := projT1 e.

(** Calls on the failover buffer: the wait and the deferred retryDone. *)
Definition isBufferCall (c : Call) : Prop :=
  match c with
  | CWaitForFailoverEnd _ _ _ | CRetryDone => True
  | _ => False
  end.

(** Calls on the keyspace event watcher made by the dispatcher. *)
Definition isWatcherCall (c : Call) : Prop :=
  match c with
  | CTargetIsBeingResharded _ | CShouldStartBufferingForTarget _ => True
  | _ => False
  end.

Definition isBalancerCall (c : Call) : Prop :=
  match c with
  | CBalancerPick _ _ => True
  | _ => False
  end.

Definition isRandCall (c : Call) : Prop :=
  match c with
  | CRandIntN _ => True
  | _ => False
  end.

(** The [failed] flags handed to updateStats in a log, in order. *)
Definition statOf (e : Entry) : option bool :=
  match e with
  | existT (CUpdateStats _ failed) _ => Some failed
  | _ => None
  end.
Definition stats (log : list Entry) : list bool :=
  omap statOf log.

(** The warnings logged in a log, by their format string, in order. *)
Definition warningOf (e : Entry) : option string :=
  match e with
  | existT (CLogWarningf format) _ => Some format
  | _ => None
  end.
Definition warnings (log : list Entry) : list string :=
  omap warningOf log.

(** The invocations of the deferred retryDone in a log. *)
Definition retryDoneOf (e : Entry) : option unit :=
  match e with
  | existT CRetryDone _ => Some tt
  | _ => None
  end.
Definition retryDones (log : list Entry) : list unit :=
  omap retryDoneOf log.

(** The candidate lists handed to the balancer in a log, in order. *)
Definition pickOf (e : Entry) : option (list TabletHealth) :=
  match e with
  | existT (CBalancerPick _ l) _ => Some l
  | _ => None
  end.
Definition picks (log : list Entry) : list (list TabletHealth) :=
  omap pickOf log.

(** Whether an attempt came back with an error, as updateStats is told. *)
Definition failed (a : TabletHealth * (bool * error)) : bool :=
  bool_decide (a.2.2 <> None).

(** The waiting calls of WaitForTablets found in a log, by kind and with the
    error each answered. *)
Inductive WaitStep : Type :=
| FoundTargets (err : error)
| ServingTablets (err : error)
| ConsistentKeyspaces (err : error).

Definition waitStepOf (e : Entry) : option WaitStep :=
  match e with
  | existT (CFindAllTargetsAndKeyspaces _) r => Some (FoundTargets r.2)
  | existT (CWaitForAllServingTablets _) r => Some (ServingTablets r)
  | existT (CWaitForConsistentKeyspaces _) r => Some (ConsistentKeyspaces r)
  | _ => None
  end.
Definition waitSteps (log : list Entry) : list WaitStep :=
  omap waitStepOf log.

(** The calls a dispatch may make, each with the condition its call site
    sits under: all of them are about the dispatch's own target. *)
Inductive dispatchCall (fl : Flags) (gw : TabletGateway) (target : Target)
    (inTransaction : bool) : Call -> Prop :=
| dc_wait (prev : error) :
    buffer gw = true -> inTransaction = false -> TabletType_ target = PRIMARY ->
    dispatchCall fl gw target inTransaction
      (CWaitForFailoverEnd (Keyspace target) (Shard target) prev)
| dc_retryDone :
    buffer gw = true -> inTransaction = false -> TabletType_ target = PRIMARY ->
    dispatchCall fl gw target inTransaction CRetryDone
| dc_lookup :
    dispatchCall fl gw target inTransaction (CGetHealthyTabletStats target)
| dc_resharded :
    kev gw = true -> TabletType_ target = PRIMARY ->
    dispatchCall fl gw target inTransaction (CTargetIsBeingResharded target)
| dc_shouldBuffer :
    kev gw = true -> TabletType_ target = PRIMARY ->
    dispatchCall fl gw target inTransaction (CShouldStartBufferingForTarget target)
| dc_pick (l : list TabletHealth) :
    useBalancer fl target = true ->
    dispatchCall fl gw target inTransaction (CBalancerPick target l)
| dc_rand (n : Z) :
    useBalancer fl target = false -> 0 < n ->
    dispatchCall fl gw target inTransaction (CRandIntN n)
| dc_inner (th : TabletHealth) :
    Conn th <> None ->
    dispatchCall fl gw target inTransaction (CInner target th)
| dc_stats (failed : bool) :
    dispatchCall fl gw target inTransaction (CUpdateStats target failed)
| dc_warning :
    dispatchCall fl gw target inTransaction
      (CLogWarningf
         "this Vitess cluster has tablets with different default connection collations").

(** The part of the locals that only the buffer check writes. *)
Definition sameBuffered (st st1 : LoopState) : Prop :=
  bufferedOnce st1 = bufferedOnce st.

(** A retryDone is only ever deferred by a non-transactional dispatch on a
    PRIMARY target through a gateway with a buffer. *)
Definition bufferedOk (gw : TabletGateway) (target : Target) (inTransaction : bool)
    (st : LoopState) : Prop :=
  bufferedOnce st = true ->
  buffer gw = true /\ inTransaction = false /\ TabletType_ target = PRIMARY.

(** The waits on the failover buffer found in a log, in order: the error
    handed in (the one of the iteration before), whether retryDone came
    back non-nil, and bufferErr. *)
Definition bufferWaitOf (e : Entry) : option (error * (bool * error)) :=
  match e with
  | existT (CWaitForFailoverEnd _ _ prev) r => Some (prev, r)
  | _ => None
  end.
Definition bufferWaits (log : list Entry) : list (error * (bool * error)) :=
  omap bufferWaitOf log.

(** The tablets attempted in a log, in order. *)
Definition attemptedTablets (log : list Entry) : list Tablet :=
  (fun a => Tablet_ a.1) <$> attempts log.

(** The warning of updateDefaultConnCollation, once per call that took the
    warning branch. *)
Definition collationWarnings (warned : list bool) : list string :=
  omap (fun b : bool =>
          if b
          then Some "this Vitess cluster has tablets with different default connection collations"
          else None) warned.

(** The condition under which an iteration waits on the buffer. *)
Definition buffers (gw : TabletGateway) (target : Target) (inTransaction : bool)
    (st : LoopState) : bool :=
  buffer gw && negb (bufferedOnce st) && negb inTransaction
  && bool_decide (TabletType_ target = PRIMARY).

(** The error a failed buffer wait leaves in [err]. *)
Definition bufferFailure (bufferErr : Error) (prev : error) : Error :=
  Wrapf bufferErr
    "failed to automatically buffer and retry failed request during failover. original err (type=%T): %v"
    [AError prev; AError prev].

(** A log in which nothing is recorded, nothing is logged and the buffer is
    left alone. *)
Definition silent (log : list Entry) : Prop :=
  stats log = [] /\ warnings log = [] /\ bufferWaits log = [] /\ retryDones log = [].

(** ** The status aggregators *)

(** In the dispatch above updateStats is a call, [CUpdateStats]; this is
    what it does to the aggregators of the gateway.  gw.statusAggregators
    maps a key to a pointer; the aggregators live on the heap, here a list
    indexed by address.  TabletType.String, the constructor
    NewTabletStatusAggregator and the method UpdateQueryInfo are declared
    elsewhere; the mutex gw.mu is left out, the model being sequential. *)
Section Aggregators.
Context {TabletStatusAggregator : Type}.
Context (TabletTypeString : TabletType -> string).
Context (NewTabletStatusAggregator :
           string -> string -> TabletType -> string -> TabletStatusAggregator).
Context (UpdateQueryInfo :
           string -> TabletType -> Z -> bool -> TabletStatusAggregator -> TabletStatusAggregator).

Record Aggregators : Type := mkAggregators {
  heap : list TabletStatusAggregator;
  statusAggregators : gmap string nat
}.

(** fmt.Sprintf("%v/%v/%v", ...) on three strings. *)
Definition aggregatorKey (target : Target) : string :=
  Keyspace target +:+ "/" +:+ Shard target +:+ "/" +:+ TabletTypeString (TabletType_ target).

Definition getStatsAggregator (s : Aggregators) (target : Target) : nat * Aggregators :=
  let key := aggregatorKey target in
  match statusAggregators s !! key with
  | Some aggr => (aggr, s)
  | None =>
      let aggr := length (heap s) in
      (aggr,
       {| heap := heap s ++ [NewTabletStatusAggregator (Keyspace target) (Shard target)
                               (TabletType_ target) key];
          statusAggregators := <[key := aggr]> (statusAggregators s) |})
  end.

(** [elapsed] is time.Since(startTime). *)
Definition updateStats (s : Aggregators) (target : Target) (elapsed : Z) (err : error)
  : Aggregators :=
  let '(aggr, s1) := getStatsAggregator s target in
  {| heap := alter (UpdateQueryInfo "" (TabletType_ target) elapsed
                      (bool_decide (err <> None))) aggr (heap s1);
     statusAggregators := statusAggregators s1 |}.

(** Every pointer of the map is allocated, and no two keys share one. *)
Definition aggregators_ok (s : Aggregators) : Prop :=
  (forall (k : string) (p : nat), statusAggregators s !! k = Some p -> (p < length (heap s))%nat)
  /\ (forall (k1 k2 : string) (p : nat),
        statusAggregators s !! k1 = Some p -> statusAggregators s !! k2 = Some p -> k1 = k2).

(** The aggregator a key stands for. *)
Definition aggregatorOf (s : Aggregators) (key : string) : option TabletStatusAggregator :=
  p ← statusAggregators s !! key; heap s !! p.

End Aggregators.

(** An aggregator that keeps what it was built from and counts the queries
    and the errors it was told of. *)
Module SampleStats.

Record Aggr : Type := mkAggr {
  AggrKeyspace : string;
  AggrShard : string;
  AggrTabletType : TabletType;
  AggrName : string;
  QueryCount : Z;
  QueryError : Z
}.

Definition typeString (t : TabletType) : string :=
  match t with
  | PRIMARY => "PRIMARY"
  | REPLICA => "REPLICA"
  | RDONLY => "RDONLY"
  | OtherTabletType _ => "UNKNOWN"
  end.

Definition new (keyspace shard : string) (tabletType : TabletType) (name : string) : Aggr :=
  mkAggr keyspace shard tabletType name 0 0.

Definition update (addr : string) (tabletType : TabletType) (elapsed : Z) (hasError : bool)
    (a : Aggr) : Aggr :=
  mkAggr (AggrKeyspace a) (AggrShard a) tabletType (AggrName a)
    (QueryCount a + 1) (if hasError then QueryError a + 1 else QueryError a).

Definition noAggregators : Aggregators (TabletStatusAggregator := Aggr) := mkAggregators [] ∅.

End SampleStats.

(** Further collaborators: the health view always reports [healthy], the
    buffer hands back a retryDone and never fails, the watcher answers
    [resharded], every attempt fails with [canRetry] as given, the topology
    knows one PRIMARY target, the wait for serving tablets answers
    [serving] and the wait for consistent keyspaces is cancelled. *)
Module Scenario.

Definition scripted (healthy : list TabletHealth) (resharded canRetry : bool)
    (serving : error) : Handler nat :=
  fun c w =>
  match c as c0 return Resp c0 * nat with
  | CWaitForFailoverEnd _ _ _ => ((true, None), S w)
  | CRetryDone => (tt, S w)
  | CGetHealthyTabletStats _ => (healthy, S w)
  | CTargetIsBeingResharded _ => (resharded, S w)
  | CShouldStartBufferingForTarget _ => ((None, false), S w)
  | CBalancerPick _ l => (List.head l, S w)
  | CRandIntN n => (Z.of_nat w mod n, S w)
  | CInner _ th => ((canRetry, Some (Sample.netError th)), S w)
  | CUpdateStats _ _ => (tt, S w)
  | CLogWarningf _ => (tt, S w)
  | CFindAllTargetsAndKeyspaces _ => (([Sample.primary], ["commerce"], None), S w)
  | CWaitForAllServingTablets _ => (serving, S w)
  | CWaitForConsistentKeyspaces _ => (Some Canceled, S w)
  | CKevGetServingKeyspaces => (["commerce"], S w)
  end.

(** retry-count -1: the loop bound retryCount+1 is 0. *)
Definition noRetries : TabletGateway := mkGateway false "zone1" (-1) 0 false.

(** balancer mode for every keyspace. *)
Definition balancing : Flags := mkFlags [] true [].

(** Two targets with one key. *)
Definition slashed1 : Target := mkTarget "a/b" "c" REPLICA.
Definition slashed2 : Target := mkTarget "a" "b/c" REPLICA.

End Scenario.

(** * Properties *)

(** ** Running a program *)

Lemma run_bind {W A B : Type} (h : Handler W) (p : Prog A) (f : A -> Prog B) (w : W) :
  run h (bind p f) w =
  match run h p w with
  | (Some a, w1, log1) =>
      let '(b, w2, log2) := run h (f a) w1 in (b, w2, log1 ++ log2)
  | (None, w1, log1) => (None, w1, log1)
  end.
Proof.
  revert w. induction p as [a | | c k IH]; intros w; simpl.
  - destruct (run h (f a) w) as [[b w2] log2]. reflexivity.
  - reflexivity.
  - destruct (h c w) as [r w1]. rewrite IH.
    destruct (run h (k r) w1) as [[[a|] w2] log1]; [|reflexivity].
    destruct (run h (f a) w2) as [[b w3] log2]. reflexivity.
Qed.

(** ** The default connection collation *)

Lemma updateDefaultConnCollation_stored (stored : N) (t : Tablet) :
  (updateDefaultConnCollation stored t).1 =
  if (stored =? 0)%N then DefaultConnCollation t else stored.
Proof.
  unfold updateDefaultConnCollation, CompareAndSwap.
  destruct (stored =? 0)%N; [reflexivity|].
  destruct (negb _); reflexivity.
Qed.

Lemma updateDefaultConnCollation_warned (stored : N) (t : Tablet) :
  (updateDefaultConnCollation stored t).2 = true <->
  stored <> 0%N /\ DefaultConnCollation t <> stored.
Proof.
  unfold updateDefaultConnCollation, CompareAndSwap.
  destruct (N.eqb_spec stored 0) as [E0 | E0]; simpl.
  - split; [discriminate | intros [? _]; contradiction].
  - destruct (N.eqb_spec stored (DefaultConnCollation t)) as [E | E]; simpl.
    + split; [discriminate | intros [_ ?]; congruence].
    + split; [intros _; split; congruence | reflexivity].
Qed.

Lemma updateAll_cons (stored : N) (t : Tablet) (rest : list Tablet) :
  updateAll stored (t :: rest) =
  ((updateAll (updateDefaultConnCollation stored t).1 rest).1,
   (updateDefaultConnCollation stored t).2
     :: (updateAll (updateDefaultConnCollation stored t).1 rest).2).
Proof.
  simpl. destruct (updateDefaultConnCollation stored t) as [s' wd]; simpl.
  destruct (updateAll s' rest); reflexivity.
Qed.

Lemma updateAll_nonzero (stored : N) (observed : list Tablet) :
  stored <> 0%N -> (updateAll stored observed).1 = stored.
Proof.
  revert stored. induction observed as [| t rest IH]; intros stored Hnz; [reflexivity|].
  rewrite updateAll_cons; cbn [fst snd]. rewrite updateDefaultConnCollation_stored.
  destruct (N.eqb_spec stored 0); [contradiction|]. apply IH; assumption.
Qed.

Lemma updateAll_zero (observed : list Tablet) :
  (updateAll 0 observed).1 = firstNonZero (DefaultConnCollation <$> observed).
Proof.
  induction observed as [| t rest IH]; [reflexivity|].
  rewrite updateAll_cons; cbn [fst snd]. rewrite updateDefaultConnCollation_stored.
  change (0 =? 0)%N with true; cbn iota.
  unfold firstNonZero; simpl.
  destruct (N.eqb_spec (DefaultConnCollation t) 0) as [E | E]; simpl.
  - rewrite E. exact IH.
  - apply updateAll_nonzero; assumption.
Qed.

Lemma storedBefore_S (stored : N) (t : Tablet) (rest : list Tablet) (k : nat) :
  storedBefore stored (t :: rest) (S k) =
  storedBefore (updateDefaultConnCollation stored t).1 rest k.
Proof. unfold storedBefore. simpl take. rewrite updateAll_cons. reflexivity. Qed.

Lemma updateAll_warning (stored : N) (observed : list Tablet) (k : nat) (t : Tablet) :
  observed !! k = Some t ->
  (updateAll stored observed).2 !! k =
  Some (updateDefaultConnCollation (storedBefore stored observed k) t).2.
Proof.
  revert stored k. induction observed as [| t0 rest IH]; intros stored k Hk; [discriminate|].
  rewrite updateAll_cons; cbn [fst snd]. destruct k as [| k]; simpl in Hk |- *.
  - injection Hk as ->. reflexivity.
  - rewrite storedBefore_S. apply IH; assumption.
Qed.

Lemma storedBefore_next (stored : N) (observed : list Tablet) (k : nat) (t : Tablet) :
  observed !! k = Some t ->
  storedBefore stored observed (S k) =
  (updateDefaultConnCollation (storedBefore stored observed k) t).1.
Proof.
  revert stored k. induction observed as [| t0 rest IH]; intros stored k Hk; [discriminate|].
  rewrite storedBefore_S. destruct k as [| k]; simpl in Hk.
  - injection Hk as ->. unfold storedBefore. destruct rest; reflexivity.
  - rewrite storedBefore_S. apply IH; assumption.
Qed.

(** C3 (as amended): starting from the zero value, after any finite
    sequence of calls to updateDefaultConnCollation the stored collation is
    the first non-zero collation observed (0 if there is none); a call that
    finds a non-zero value stored leaves it as it is; and a call takes the
    warning branch if and only if the value already stored is non-zero and
    differs from the collation the call observes, be that collation zero or
    not. *)
Theorem updateDefaultConnCollation_first_nonzero_wins (observed : list Tablet) :
  (updateAll 0 observed).1 = firstNonZero (DefaultConnCollation <$> observed)
  /\ forall (k : nat) (t : Tablet), observed !! k = Some t ->
       (storedBefore 0 observed k <> 0%N ->
          storedBefore 0 observed (S k) = storedBefore 0 observed k)
       /\ ((updateAll 0 observed).2 !! k = Some true <->
           storedBefore 0 observed k <> 0%N
           /\ DefaultConnCollation t <> storedBefore 0 observed k).
Proof.
  split; [apply updateAll_zero|].
  intros k t Hk. split.
  - intros Hnz. rewrite (storedBefore_next _ _ _ _ Hk).
    rewrite updateDefaultConnCollation_stored.
    destruct (N.eqb_spec (storedBefore 0 observed k) 0); [contradiction | reflexivity].
  - rewrite (updateAll_warning _ _ _ _ Hk).
    rewrite <- updateDefaultConnCollation_warned.
    split; [intros [= ->]; reflexivity | intros ->; reflexivity].
Qed.

Lemma updateDefaultConnCollation_first_nonzero_wins_witness :
  (updateAll 0 [Sample.tablet1; Sample.tablet2]).2 !! 1%nat = Some true <->
  storedBefore 0 [Sample.tablet1; Sample.tablet2] 1 <> 0%N
  /\ DefaultConnCollation Sample.tablet2
     <> storedBefore 0 [Sample.tablet1; Sample.tablet2] 1.
Proof.
  exact (proj2 (proj2 (updateDefaultConnCollation_first_nonzero_wins
                         [Sample.tablet1; Sample.tablet2])
                      1%nat Sample.tablet2 eq_refl)).
Defined.

(** C3 as stated fails: after a tablet with collation 33, a tablet that
    reports collation 0 takes the warning branch although the collation it
    observes is zero. *)
Lemma updateDefaultConnCollation_warns_on_zero :
  ~ ((updateAll 0 [Sample.tablet1; Sample.tablet2]).2 !! 1%nat = Some true <->
     DefaultConnCollation Sample.tablet2 <> 0%N
     /\ storedBefore 0 [Sample.tablet1; Sample.tablet2] 1 <> 0%N
     /\ DefaultConnCollation Sample.tablet2
        <> storedBefore 0 [Sample.tablet1; Sample.tablet2] 1).
Proof.
  intros [Hwarn _].
  destruct (Hwarn eq_refl) as [Hnz _]. apply Hnz. reflexivity.
Qed.

Section GatewayProperties.
Context `{Ext : Externals}.

(** ** Pre-flight checks *)

(** C5: a dispatch in a transaction on a target that is not PRIMARY is a
    leaf of the call tree: withRetry returns the INTERNAL error at once, and
    whatever the collaborators would answer, none of them (failover buffer,
    health view, balancer, inner function) is called. *)
Theorem withRetry_transaction_on_replica (fl : Flags) (gw : TabletGateway) (target : Target) :
  TabletType_ target <> PRIMARY ->
  withRetry fl gw target true =
    Ret (gw, Some (Errorf Code_INTERNAL
      "tabletGateway's query service can only be used for non-transactional queries on replicas"
      []))
  /\ forall (W : Type) (h : Handler W) (w : W),
       calls (run h (withRetry fl gw target true) w) = [].
Proof.
  intros Hty.
  assert (E : withRetry fl gw target true =
    Ret (gw, Some (Errorf Code_INTERNAL
      "tabletGateway's query service can only be used for non-transactional queries on replicas"
      []))).
  { unfold withRetry. rewrite bool_decide_eq_false_2 by assumption. reflexivity. }
  split; [exact E|]. intros W h w. rewrite E. reflexivity.
Qed.

(** C6 (as amended): when the allow-list of tablet types is not empty and
    the target's type is not in it, withRetry returns before the retry loop
    without calling any collaborator (GetHealthyTabletStats included); the
    error is FAILED_PRECONDITION unless the dispatch is in a transaction on
    a target that is not PRIMARY, which the check before it answers with
    INTERNAL. *)
Theorem withRetry_disallowed_tablet_type (fl : Flags) (gw : TabletGateway)
    (target : Target) (inTransaction : bool) :
  AllowedTabletTypes fl <> [] ->
  TabletType_ target ∉ AllowedTabletTypes fl ->
  (forall (W : Type) (h : Handler W) (w : W),
     calls (run h (withRetry fl gw target inTransaction) w) = [])
  /\ (inTransaction = false \/ TabletType_ target = PRIMARY ->
      withRetry fl gw target inTransaction =
        Ret (gw, Some (Errorf Code_FAILED_PRECONDITION
          "requested tablet type %v is not part of the allowed tablet types for this vtgate: %+v"
          [ATabletType (TabletType_ target); ATabletTypes (AllowedTabletTypes fl)])))
  /\ (inTransaction = true /\ TabletType_ target <> PRIMARY ->
      withRetry fl gw target inTransaction =
        Ret (gw, Some (Errorf Code_INTERNAL
          "tabletGateway's query service can only be used for non-transactional queries on replicas"
          []))).
Proof.
  intros Hne Hnotin.
  assert (Hlen : bool_decide (0 < length (AllowedTabletTypes fl))%nat = true).
  { apply bool_decide_eq_true_2. destruct (AllowedTabletTypes fl); [congruence | simpl; lia]. }
  assert (Hmem : bool_decide (TabletType_ target ∈ AllowedTabletTypes fl) = false)
    by (apply bool_decide_eq_false_2; assumption).
  split; [|split].
  - intros W h w. unfold withRetry. rewrite Hlen, Hmem.
    destruct (inTransaction && negb _); reflexivity.
  - intros Hpass. unfold withRetry. rewrite Hlen, Hmem.
    destruct Hpass as [-> | ->]; [reflexivity|].
    rewrite bool_decide_eq_true_2 by reflexivity. rewrite andb_false_r. reflexivity.
  - intros [-> Hty]. unfold withRetry.
    rewrite (bool_decide_eq_false_2 _ Hty). reflexivity.
Qed.

(** ** The watcher and the start-up barrier *)

(** C10: a gateway without keyspace event watcher answers
    GetServingKeyspaces with nil and calls nobody; a gateway with one
    returns what the watcher's GetServingKeyspaces answers. *)
Theorem GetServingKeyspaces_nil_watcher (gw : TabletGateway) :
  (kev gw = false ->
     GetServingKeyspaces gw = Ret []
     /\ forall (W : Type) (h : Handler W) (w : W),
          run h (GetServingKeyspaces gw) w = (Some [], w, []))
  /\ (kev gw = true ->
     GetServingKeyspaces gw = Vis CKevGetServingKeyspaces Ret
     /\ forall (W : Type) (h : Handler W) (w : W),
          run h (GetServingKeyspaces gw) w =
          (Some (h CKevGetServingKeyspaces w).1, (h CKevGetServingKeyspaces w).2,
           [entry CKevGetServingKeyspaces (h CKevGetServingKeyspaces w).1])).
Proof.
  unfold GetServingKeyspaces. split; intros ->; simpl; split; try reflexivity.
  intros W h w. destruct (h CKevGetServingKeyspaces w); reflexivity.
Qed.

Lemma WaitForTablets_deferred_result {W : Type} (h : Handler W) (err : error) (w : W) :
  result (run h (WaitForTablets_deferred err) w) =
  Some (match err with Some DeadlineExceeded => None | e => e end).
Proof.
  destruct err as [[]|]; simpl; try reflexivity.
  destruct (h _ w); reflexivity.
Qed.

Lemma WaitForTablets_deferred_silent {W : Type} (h : Handler W) (err : error) (w : W) :
  omap waitAnswer (calls (run h (WaitForTablets_deferred err) w)) = [].
Proof.
  destruct err as [[]|]; simpl; try reflexivity.
  destruct (h _ w); reflexivity.
Qed.

Lemma run_then_deferred {W : Type} (h : Handler W) (p : Prog error) (w w1 : W)
    (err : error) (log1 : list Entry) :
  run h p w = (Some err, w1, log1) ->
  default None (last (omap waitAnswer log1)) = err ->
  result (run h (bind p WaitForTablets_deferred) w) =
  Some (match waitError (calls (run h (bind p WaitForTablets_deferred) w)) with
        | Some DeadlineExceeded => None
        | e => e
        end).
Proof.
  intros Hrun Hlast. rewrite run_bind, Hrun.
  pose proof (WaitForTablets_deferred_result h err w1) as Hres.
  pose proof (WaitForTablets_deferred_silent h err w1) as Hsil.
  destruct (run h (WaitForTablets_deferred err) w1) as [[r w2] log2].
  unfold result, calls, waitError in *; cbn [fst snd] in *.
  rewrite omap_app, Hsil, app_nil_r, Hlast, Hres.
  destruct err as [[]|]; reflexivity.
Qed.

(** What WaitForTablets returns, in terms of the error its wait ended with. *)
Lemma WaitForTablets_result {W : Type} (h : Handler W) (gw : TabletGateway)
    (tabletTypesToWait : list TabletType) (w : W) :
  result (run h (WaitForTablets gw tabletTypesToWait) w) =
  Some (match waitError (calls (run h (WaitForTablets gw tabletTypesToWait) w)) with
        | Some DeadlineExceeded => None
        | e => e
        end).
Proof.
  unfold WaitForTablets, mbind, Prog_bind.
  case_bool_decide as Hlen.
  { eapply run_then_deferred; reflexivity. }
  destruct (h (CFindAllTargetsAndKeyspaces tabletTypesToWait) w)
    as [[[targets keyspaces] e1] w1] eqn:E1.
  destruct e1 as [e1|].
  { eapply run_then_deferred; [simpl; rewrite E1; reflexivity | reflexivity]. }
  destruct (h (CWaitForAllServingTablets targets) w1) as [e2 w2] eqn:E2.
  destruct e2 as [e2|].
  { eapply run_then_deferred; [simpl; rewrite E1; simpl; rewrite E2; reflexivity | reflexivity]. }
  destruct (bool_decide (PRIMARY ∈ tabletTypesToWait) && kev gw).
  - destruct (h (CWaitForConsistentKeyspaces keyspaces) w2) as [e3 w3] eqn:E3.
    eapply run_then_deferred;
      [simpl; rewrite E1; simpl; rewrite E2; simpl; rewrite E3; reflexivity
      | reflexivity].
  - eapply run_then_deferred;
      [simpl; rewrite E1; simpl; rewrite E2; reflexivity | reflexivity].
Qed.

(** C8: for a non-empty list of tablet types, when the wait ends with the
    error context.DeadlineExceeded, WaitForTablets returns nil; when it ends
    with any other non-nil error, that error is returned. *)
Theorem WaitForTablets_timeout_not_fatal {W : Type} (h : Handler W) (gw : TabletGateway)
    (tabletTypesToWait : list TabletType) (w : W) :
  tabletTypesToWait <> [] ->
  (waitError (calls (run h (WaitForTablets gw tabletTypesToWait) w)) = Some DeadlineExceeded ->
     result (run h (WaitForTablets gw tabletTypesToWait) w) = Some None)
  /\ (forall e : Error,
        waitError (calls (run h (WaitForTablets gw tabletTypesToWait) w)) = Some e ->
        e <> DeadlineExceeded ->
        result (run h (WaitForTablets gw tabletTypesToWait) w) = Some (Some e)).
Proof.
  intros _. rewrite WaitForTablets_result. split.
  - intros ->. reflexivity.
  - intros e -> Hne. destruct e; congruence.
Qed.

(** ** An iteration that finds no healthy tablet *)

Lemma bufferCheck_silent {W : Type} (h : Handler W) (gw : TabletGateway) (target : Target)
    (inTransaction : bool) (st : LoopState) (w : W) :
  lookups (calls (run h (bufferCheck gw target inTransaction st) w)) = [].
Proof.
  unfold bufferCheck. destruct (_ && _); [|reflexivity].
  simpl. destruct (h _ w) as [[retryDone [be|]] w1]; reflexivity.
Qed.

(** C2: in an iteration whose candidate lookup answers the empty list, for
    a PRIMARY target and with the keyspace event watcher present, the log
    of the iteration is the buffer check, the lookup, then
    TargetIsBeingResharded, and ShouldStartBufferingForTarget only if no
    resharding was reported.  The iteration ends with the locals [st2], in
    which only [err] differs from the locals [st1] the buffer check left.
    Resharding sets err to CLUSTER_EVENT with the resharding reason and
    continues; otherwise shouldBuffer sets err to CLUSTER_EVENT with the
    reparent reason and continues; otherwise a primary seen by the watcher
    sets err to UNAVAILABLE (inconsistent state) and continues; only
    otherwise is err set to UNAVAILABLE (no healthy tablet) with a break. *)
Theorem iteration_without_healthy_primary {W : Type} (h : Handler W) (fl : Flags)
    (gw : TabletGateway) (target : Target) (inTransaction : bool) (st : LoopState) (w : W) :
  TabletType_ target = PRIMARY ->
  kev gw = true ->
  List.head (lookups (calls (run h (iteration fl gw target inTransaction st) w))) = Some [] ->
  exists (st1 st2 : LoopState) (ctl : Ctl) (resharded : bool) (after : list Entry),
    result (run h (bufferCheck gw target inTransaction st) w) = Some (inr st1)
    /\ calls (run h (iteration fl gw target inTransaction st) w) =
       calls (run h (bufferCheck gw target inTransaction st) w)
       ++ entry (CGetHealthyTabletStats target) []
       :: entry (CTargetIsBeingResharded target) resharded
       :: after
    /\ result (run h (iteration fl gw target inTransaction st) w) = Some (ctl, st2)
    /\ invalidTablets st2 = invalidTablets st1
    /\ bufferedOnce st2 = bufferedOnce st1
    /\ tabletLastUsed st2 = tabletLastUsed st1
    /\ collation st2 = collation st1
    /\ if resharded
       then after = []
            /\ ctl = Continue
            /\ err st2 = Some (Errorf Code_CLUSTER_EVENT ClusterEventReshardingInProgress [])
       else exists (primary : option Tablet) (shouldBuffer : bool),
            after = [entry (CShouldStartBufferingForTarget target) (primary, shouldBuffer)]
            /\ if shouldBuffer
               then ctl = Continue
                    /\ err st2
                       = Some (Errorf Code_CLUSTER_EVENT ClusterEventReparentInProgress [])
               else match primary with
                    | Some _ =>
                        ctl = Continue
                        /\ err st2
                           = Some (Errorf Code_UNAVAILABLE
                                     "inconsistent state detected, primary is serving but initially found no available tablet"
                                     [])
                    | None =>
                        ctl = Break
                        /\ err st2
                           = Some (Errorf Code_UNAVAILABLE
                                     "no healthy tablet available for '%s'"
                                     [ATarget target])
                    end.
Proof.
  intros Hprimary Hkev. unfold iteration, mbind, Prog_bind. rewrite run_bind.
  pose proof (bufferCheck_silent h gw target inTransaction st w) as Hsilent.
  destruct (run h (bufferCheck gw target inTransaction st) w) as [[[[stb | st1]|] wb] logb];
    unfold calls, result in *; cbn [fst snd] in *.
  - simpl. rewrite app_nil_r, Hsilent. discriminate.
  - simpl. destruct (h (CGetHealthyTabletStats target) wb) as [found w1].
    destruct found as [| th rest].
    + intros _. simpl. unfold noTablets. rewrite Hkev, Hprimary. simpl.
      destruct (h (CTargetIsBeingResharded target) w1) as [resharded w2].
      destruct resharded; simpl.
      * eexists st1, _, _, true, [].
        split; [reflexivity|]. split; [reflexivity|]. split; [reflexivity|].
        destruct st1; cbn. repeat split; reflexivity.
      * destruct (h (CShouldStartBufferingForTarget target) w2)
          as [[primary shouldBuffer] w3].
        destruct shouldBuffer; [|destruct primary]; simpl;
          (eexists st1, _, _, false, _;
           split; [reflexivity|]; split; [reflexivity|]; split; [reflexivity|];
           destruct st1; cbn;
           split; [reflexivity|]; split; [reflexivity|]; split; [reflexivity|];
           split; [reflexivity|];
           eexists _, _; split; [reflexivity|]; cbn; split; reflexivity).
    + destruct (run h _ w1) as [[r w2] log2]. cbn [fst snd].
      unfold lookups in *. rewrite omap_app, Hsilent. simpl. discriminate.
  - rewrite Hsilent. discriminate.
Qed.

(** ** shuffleTablets *)

Lemma index_Some {A : Type} (l : list A) (i : Z) (x : A) :
  index l i = Some x <-> 0 <= i /\ l !! Z.to_nat i = Some x.
Proof.
  unfold index. destruct (Z.ltb_spec i 0); split.
  - discriminate.
  - intros [? _]; lia.
  - intros ->. split; [assumption | reflexivity].
  - intros [_ ->]; reflexivity.
Qed.

Lemma index_in_range {A : Type} (l : list A) (i : Z) :
  0 <= i < Z.of_nat (length l) -> exists x, index l i = Some x.
Proof.
  intros Hi. destruct (lookup_lt_is_Some_2 l (Z.to_nat i)) as [x Hx]; [lia|].
  exists x. apply index_Some. split; [lia | assumption].
Qed.

Lemma swap_in_range {A : Type} (l : list A) (a b : Z) (x y : A) :
  index l a = Some x -> index l b = Some y ->
  swap l a b = Some (<[Z.to_nat b := x]> (<[Z.to_nat a := y]> l)).
Proof. intros Ha Hb. unfold swap. rewrite Ha, Hb. reflexivity. Qed.

Lemma shuffleStep_inv (cell : string) (n : Z) (k : nat) (s : ShuffleState) (r : Z) :
  shuffleInv cell n (S k) s ->
  0 <= r < tail s - head s + 1 ->
  exists s' : ShuffleState,
    shuffleStep cell (head s + r) s = Some s'
    /\ shuffleInv cell n k s'
    /\ tablets s' ≡ₚ tablets s.
Proof.
  intros [Hlen Hhead Hgap Htail Hfront Hback] Hr.
  destruct (index_in_range (tablets s) (head s + r)) as [tj Hj]; [lia|].
  destruct (index_in_range (tablets s) (head s)) as [th Hh]; [lia|].
  destruct (index_in_range (tablets s) (tail s)) as [tt Ht]; [lia|].
  unfold shuffleStep. rewrite Hj.
  pose proof Hj as Hj'. pose proof Hh as Hh'. pose proof Ht as Ht'.
  apply index_Some in Hj' as [_ Hj'], Hh' as [_ Hh'], Ht' as [_ Ht'].
  case_bool_decide as Hcell.
  - rewrite (swap_in_range _ _ _ _ _ Hh Hj). simpl.
    eexists; split; [reflexivity|]. split; [split; simpl|simpl].
    + rewrite !length_insert. assumption.
    + lia.
    + lia.
    + assumption.
    + intros i x Hi Hlt.
      destruct (decide (Z.to_nat (head s + r) = i)) as [<- | Hne1].
      { rewrite list_lookup_insert_eq in Hi by (rewrite length_insert; lia).
        injection Hi as <-.
        destruct (decide (r = 0)) as [-> | ?]; [|lia].
        rewrite Z.add_0_r in Hj'. congruence. }
      rewrite list_lookup_insert_ne in Hi by assumption.
      destruct (decide (Z.to_nat (head s) = i)) as [<- | Hne2].
      { rewrite list_lookup_insert_eq in Hi by lia. injection Hi as <-. exact Hcell. }
      rewrite list_lookup_insert_ne in Hi by assumption.
      apply (Hfront i x Hi). lia.
    + intros i x Hi Hlt.
      rewrite !list_lookup_insert_ne in Hi by lia.
      apply (Hback i x Hi Hlt).
    + apply Permutation_insert_swap; assumption.
  - rewrite (swap_in_range _ _ _ _ _ Ht Hj). simpl.
    eexists; split; [reflexivity|]. split; [split; simpl|simpl].
    + rewrite !length_insert. assumption.
    + lia.
    + lia.
    + lia.
    + intros i x Hi Hlt.
      rewrite !list_lookup_insert_ne in Hi by lia.
      apply (Hfront i x Hi Hlt).
    + intros i x Hi Hlt.
      destruct (decide (Z.to_nat (head s + r) = i)) as [<- | Hne1].
      { rewrite list_lookup_insert_eq in Hi by (rewrite length_insert; lia).
        injection Hi as <-.
        destruct (decide (head s + r = tail s)) as [E | ?]; [|lia].
        rewrite E in Hj'. congruence. }
      rewrite list_lookup_insert_ne in Hi by assumption.
      destruct (decide (Z.to_nat (tail s) = i)) as [<- | Hne2].
      { rewrite list_lookup_insert_eq in Hi by lia. injection Hi as <-. exact Hcell. }
      rewrite list_lookup_insert_ne in Hi by assumption.
      apply (Hback i x Hi). lia.
    + apply Permutation_insert_swap; assumption.
Qed.

Section Shuffle.
Context {W : Type} (h : Handler W) (Hrng : rng_ok h) (cell : string) (n : Z).

Lemma shuffleLoop_S (m k : nat) (s : ShuffleState) (w : W) :
  shuffleInv cell n (S k) s ->
  exists (s1 : ShuffleState) (r : Z) (w1 : W),
    h (CRandIntN (tail s - head s + 1)) w = (r, w1)
    /\ 0 <= r < tail s - head s + 1
    /\ shuffleInv cell n k s1
    /\ tablets s1 ≡ₚ tablets s
    /\ run h (shuffleLoop cell (S m) s) w =
       (let '(a, w2, log) := run h (shuffleLoop cell m s1) w1 in
        (a, w2, entry (CRandIntN (tail s - head s + 1)) r :: log)).
Proof.
  intros Hinv.
  assert (Hpos : 0 < tail s - head s + 1) by (destruct Hinv; lia).
  pose proof (Hrng _ w Hpos) as Hr.
  destruct (h (CRandIntN (tail s - head s + 1)) w) as [r w1] eqn:Hh. simpl in Hr.
  destruct (shuffleStep_inv cell n k s _ Hinv Hr) as (s1 & Hstep & Hinv1 & Hperm).
  exists s1, r, w1. split; [reflexivity|]. split; [exact Hr|].
  split; [exact Hinv1|]. split; [exact Hperm|].
  cbn [shuffleLoop run].
  destruct (Z.leb_spec (tail s - head s + 1) 0) as [? | _]; [lia|].
  cbn [run]. rewrite Hh, Hstep. reflexivity.
Qed.

Lemma shuffleLoop_inv (m k : nat) (s : ShuffleState) (w : W) :
  shuffleInv cell n (m + k) s ->
  exists (s' : ShuffleState) (w' : W) (log : list Entry),
    run h (shuffleLoop cell m s) w = (Some s', w', log)
    /\ shuffleInv cell n k s'
    /\ tablets s' ≡ₚ tablets s
    /\ length log = m.
Proof.
  revert s w. induction m as [| m IH]; intros s w Hinv.
  - exists s, w, []. split; [reflexivity|]. split; [exact Hinv|]. split; reflexivity.
  - destruct (shuffleLoop_S m (m + k) s w Hinv)
      as (s1 & r & w1 & _ & _ & Hinv1 & Hperm1 & Hrun).
    destruct (IH s1 w1 Hinv1) as (s' & w' & log & Hrun' & Hinv' & Hperm' & Hlen).
    rewrite Hrun, Hrun'. eexists s', w', _. split; [reflexivity|].
    split; [exact Hinv'|]. split; [etrans; eassumption|]. simpl. lia.
Qed.

Lemma shuffleLoop_add (a b : nat) (s : ShuffleState) (w : W) :
  run h (shuffleLoop cell (a + b) s) w =
  match run h (shuffleLoop cell a s) w with
  | (Some s1, w1, log1) =>
      let '(r, w2, log2) := run h (shuffleLoop cell b s1) w1 in (r, w2, log1 ++ log2)
  | (None, w1, log1) => (None, w1, log1)
  end.
Proof.
  revert s w. induction a as [| a IH]; intros s w.
  - simpl. destruct (run h (shuffleLoop cell b s) w) as [[r w2] log2]. reflexivity.
  - cbn [Nat.add shuffleLoop]. destruct (tail s - head s + 1 <=? 0); [reflexivity|].
    cbn [run]. destruct (h (CRandIntN (tail s - head s + 1)) w) as [r w1].
    destruct (shuffleStep cell (head s + r) s) as [s1|]; [|reflexivity].
    rewrite IH. destruct (run h (shuffleLoop cell a s1) w1) as [[[s2|] w2] log1];
      [|reflexivity].
    destruct (run h (shuffleLoop cell b s2) w2) as [[r2 w3] log2]. reflexivity.
Qed.

End Shuffle.

Lemma shuffleStart_inv (cell : string) (l : list TabletHealth) :
  l <> [] ->
  shuffleInv cell (Z.of_nat (length l)) (Z.to_nat (Z.of_nat (length l) - 1)) (shuffleStart l).
Proof.
  intros Hne. assert (0 < length l)%nat by (destruct l; [congruence | simpl; lia]).
  split; simpl.
  - reflexivity.
  - lia.
  - lia.
  - lia.
  - intros i th _ Hi. lia.
  - intros i th Hi Hlt. apply lookup_lt_Some in Hi. lia.
Qed.

Lemma run_shuffleTablets {W : Type} (h : Handler W) (cell : string)
    (l : list TabletHealth) (w : W) :
  run h (shuffleTablets cell l) w =
  let '(s, w', log) :=
    run h (shuffleLoop cell (Z.to_nat (Z.of_nat (length l) - 1)) (shuffleStart l)) w in
  (tablets <$> s, w', log).
Proof.
  unfold shuffleTablets, mbind, Prog_bind. rewrite run_bind.
  destruct (run h _ w) as [[[s|] w'] log]; simpl; [rewrite app_nil_r|]; reflexivity.
Qed.

Lemma quiet_nil : quiet [].
Proof. repeat split. Qed.

Lemma waits_app (log1 log2 : list Entry) :
  waits (log1 ++ log2) = waits log1 ++ waits log2.
Proof. apply omap_app. Qed.

Lemma attempts_app (log1 log2 : list Entry) :
  attempts (log1 ++ log2) = attempts log1 ++ attempts log2.
Proof. apply omap_app. Qed.

Lemma lookups_app (log1 log2 : list Entry) :
  lookups (log1 ++ log2) = lookups log1 ++ lookups log2.
Proof. apply omap_app. Qed.

Lemma shuffleLoop_quiet {W : Type} (h : Handler W) (cell : string) (m : nat)
    (s : ShuffleState) (w : W) :
  quiet (calls (run h (shuffleLoop cell m s) w)).
Proof.
  revert s w. induction m as [| m IH]; intros s w; [apply quiet_nil|].
  cbn [shuffleLoop]. destruct (tail s - head s + 1 <=? 0); [apply quiet_nil|].
  cbn [run]. destruct (h (CRandIntN (tail s - head s + 1)) w) as [r w1].
  destruct (shuffleStep cell (head s + r) s) as [s1|]; [|apply quiet_nil].
  specialize (IH s1 w1).
  destruct (run h (shuffleLoop cell m s1) w1) as [[a w2] log]. exact IH.
Qed.

(** The whole run of shuffleTablets under a well-behaved random source. *)
Lemma shuffleTablets_sorted {W : Type} (h : Handler W) (cell : string)
    (l : list TabletHealth) (w : W) :
  rng_ok h ->
  exists (l' : list TabletHealth) (w' : W) (log : list Entry),
    run h (shuffleTablets cell l) w = (Some l', w', log)
    /\ l' ≡ₚ l
    /\ quiet log
    /\ forall (i j : nat) (ti tj : TabletHealth),
         l' !! i = Some ti -> l' !! j = Some tj ->
         sameCell cell ti -> ~ sameCell cell tj -> (i < j)%nat.
Proof.
  intros Hrng. rewrite run_shuffleTablets.
  destruct (decide (l = [])) as [-> | Hne].
  { exists [], w, []. simpl. split; [reflexivity|]. split; [reflexivity|].
    split; [apply quiet_nil|]. intros i j ti tj Hi; discriminate. }
  pose proof (shuffleStart_inv cell l Hne) as Hinv.
  rewrite <- (Nat.add_0_r (Z.to_nat _)) in Hinv.
  pose proof (shuffleLoop_quiet h cell (Z.to_nat (Z.of_nat (length l) - 1))
                (shuffleStart l) w) as Hq.
  destruct (shuffleLoop_inv h Hrng cell _ _ 0%nat _ w Hinv)
    as (s' & w' & log & Hrun & Hinv' & Hperm & _).
  rewrite Hrun in Hq |- *. exists (tablets s'), w', log. split; [reflexivity|].
  split; [exact Hperm|]. split; [exact Hq|].
  intros i j ti tj Hi Hj Hsame Hother.
  destruct Hinv' as [_ _ Hgap _ Hfront Hback].
  destruct (decide (tail s' < Z.of_nat i)) as [Hlt | Hge].
  { exfalso. exact (Hback i ti Hi Hlt Hsame). }
  destruct (decide (Z.of_nat j < head s')) as [Hlt | Hge'].
  { exfalso. exact (Hother (Hfront j tj Hj Hlt)). }
  destruct (decide (i = j)) as [-> | Hne']; [congruence | lia].
Qed.

(** C4: whatever the random source answers within its contract,
    shuffleTablets returns a permutation of its input (so the multiset of
    tablet aliases is preserved), in which every tablet of the local cell
    sits at a strictly smaller index than every tablet of another cell. *)
Theorem shuffleTablets_partitions {W : Type} (h : Handler W) (cell : string)
    (l : list TabletHealth) (w : W) :
  rng_ok h ->
  exists l' : list TabletHealth,
    result (run h (shuffleTablets cell l) w) = Some l'
    /\ l' ≡ₚ l
    /\ (Alias ∘ Tablet_) <$> l' ≡ₚ (Alias ∘ Tablet_) <$> l
    /\ forall (i j : nat) (ti tj : TabletHealth),
         l' !! i = Some ti -> l' !! j = Some tj ->
         Cell (Alias (Tablet_ ti)) = cell ->
         Cell (Alias (Tablet_ tj)) <> cell ->
         (i < j)%nat.
Proof.
  intros Hrng.
  destruct (shuffleTablets_sorted h cell l w Hrng) as (l' & w' & log & -> & Hperm & _ & Hsorted).
  exists l'. split; [reflexivity|]. split; [exact Hperm|].
  split; [rewrite Hperm; reflexivity | exact Hsorted].
Qed.

(** C9: shuffleTablets never panics, on the empty and the one-element
    slice included; on a slice of length n it draws exactly max(n-1, 0)
    random numbers, one per swap step; the state [s] reached after any
    number [m] of iterations satisfies 0 <= head <= tail <= n-1 (for a
    non-empty slice; the loop does not run on an empty one); and the
    iteration that follows draws with an argument tail-head+1 of at least 1
    and gets an index j = head + r with 0 <= head <= j <= tail <= n-1. *)
Theorem shuffleTablets_in_bounds {W : Type} (h : Handler W) (cell : string)
    (l : list TabletHealth) (w : W) :
  rng_ok h ->
  (exists l' : list TabletHealth, result (run h (shuffleTablets cell l) w) = Some l')
  /\ length (calls (run h (shuffleTablets cell l) w))
     = Z.to_nat (Z.max (Z.of_nat (length l) - 1) 0)
  /\ forall m : nat, (m <= length (calls (run h (shuffleTablets cell l) w)))%nat ->
     exists s : ShuffleState,
       result (run h (shuffleLoop cell m (shuffleStart l)) w) = Some s
       /\ (l <> [] -> 0 <= head s /\ head s <= tail s /\ tail s <= Z.of_nat (length l) - 1)
       /\ ((m < length (calls (run h (shuffleTablets cell l) w)))%nat ->
           exists r : Z,
             calls (run h (shuffleTablets cell l) w) !! m
             = Some (entry (CRandIntN (tail s - head s + 1)) r)
             /\ 1 <= tail s - head s + 1
             /\ 0 <= head s /\ head s <= head s + r
             /\ head s + r <= tail s /\ tail s <= Z.of_nat (length l) - 1).
Proof.
  intros Hrng. rewrite run_shuffleTablets.
  destruct (decide (l = [])) as [-> | Hne].
  { simpl. split; [eexists; reflexivity|]. split; [reflexivity|].
    intros m Hm. assert (m = 0%nat) as -> by lia.
    eexists. split; [reflexivity|]. split; [congruence | lia]. }
  pose proof (shuffleStart_inv cell l Hne) as Hinv.
  set (K := Z.to_nat (Z.of_nat (length l) - 1)) in *.
  assert (Hinv0 := Hinv). rewrite <- (Nat.add_0_r K) in Hinv0.
  destruct (shuffleLoop_inv h Hrng cell _ _ 0%nat _ w Hinv0)
    as (s' & w' & log & Hrun & Hinv' & Hperm & Hlen).
  rewrite Hrun. unfold result, calls; cbn [fst snd].
  split; [eexists; reflexivity|]. split; [lia|].
  intros m Hm. rewrite Hlen in Hm.
  assert (HK : K = (m + (K - m))%nat) by lia.
  assert (Hinvm := Hinv). rewrite HK in Hinvm.
  destruct (shuffleLoop_inv h Hrng cell _ _ _ _ w Hinvm)
    as (sm & wm & logm & Hrunm & Hinvm' & _ & Hlenm).
  exists sm. rewrite Hrunm. split; [reflexivity|].
  split; [intros _; destruct Hinvm'; lia|].
  intros Hlt. rewrite Hlen in Hlt.
  destruct (K - m)%nat as [| k] eqn:Hk; [lia|].
  destruct (shuffleLoop_S h Hrng cell _ k k sm wm Hinvm')
    as (s1 & r & w1 & Hh & Hr & _ & _ & Hrun1).
  exists r. split; [|destruct Hinvm'; lia].
  rewrite HK, shuffleLoop_add, Hrunm, Hrun1 in Hrun.
  destruct (run h (shuffleLoop cell k s1) w1) as [[a w2] log1].
  injection Hrun as _ _ <-.
  rewrite lookup_app_r by lia. rewrite Hlenm, Nat.sub_diag. reflexivity.
Qed.

(** ** The retry loop *)

Section Iteration.
Context {W : Type} (h : Handler W) (fl : Flags) (gw : TabletGateway)
  (target : Target) (inTransaction : bool).
Hypothesis Hrng : rng_ok h.

Lemma pickTablet_run (st : LoopState) (l : list TabletHealth) (w : W) :
  exists (picked : option TabletHealth) (w' : W) (log : list Entry),
    run h (pickTablet fl gw target st l) w = (Some picked, w', log)
    /\ quiet log
    /\ (pick_ok h -> forall th : TabletHealth, picked = Some th ->
         th ∈ l /\ invalidTablets st !! aliasOf th = None).
Proof.
  unfold pickTablet. destruct (useBalancer fl target).
  - cbn [run].
    match goal with |- context [h (CBalancerPick target ?l') w] =>
      assert (Hin : pick_ok h -> forall th, (h (CBalancerPick target l') w).1 = Some th -> th ∈ l')
        by (intros Hpick th; apply Hpick);
      destruct (h (CBalancerPick target l') w) as [picked w'] end.
    exists picked, w', [entry (CBalancerPick target _) picked].
    split; [reflexivity|]. split; [repeat split|].
    intros Hpick th ->. specialize (Hin Hpick th eq_refl). case_bool_decide as Hsize.
    + apply list_elem_of_In, filter_In in Hin as [Hin Hvalid].
      split; [apply list_elem_of_In; exact Hin|].
      unfold isInvalid in Hvalid. apply negb_true_iff, bool_decide_eq_false in Hvalid.
      apply eq_None_not_Some. exact Hvalid.
    + split; [exact Hin|].
      assert (invalidTablets st = ∅) as ->; [|apply lookup_empty].
      apply map_size_empty_iff. lia.
  - unfold mbind, Prog_bind. rewrite run_bind.
    destruct (shuffleTablets_sorted h (localCell gw) l w Hrng)
      as (l' & w' & log & -> & Hperm & Hq & _).
    cbn [run]. eexists _, w', _. split; [reflexivity|].
    split; [rewrite app_nil_r; exact Hq|].
    intros _ th Hfind. apply find_some in Hfind as [Hin Hvalid].
    split; [rewrite <- Hperm; apply list_elem_of_In; exact Hin|].
    unfold isInvalid in Hvalid. apply negb_true_iff, bool_decide_eq_false in Hvalid.
    apply eq_None_not_Some. exact Hvalid.
Qed.

Lemma bufferCheck_run (st : LoopState) (w : W) :
  exists (checked : LoopState + LoopState) (w1 : W) (log : list Entry),
    run h (bufferCheck gw target inTransaction st) w = (Some checked, w1, log)
    /\ attempts log = [] /\ lookups log = [] /\ (length (waits log) <= 1)%nat
    /\ match checked with
       | inl st1 =>
           invalidTablets st1 = invalidTablets st
           /\ exists (keyspace shard : string) (prev : error) (v : W) (bufferErr : Error),
                (h (CWaitForFailoverEnd keyspace shard prev) v).1.2 = Some bufferErr
       | inr st1 =>
           invalidTablets st1 = invalidTablets st /\ err st1 = err st
       end.
Proof.
  unfold bufferCheck. destruct (_ && _).
  - cbn [run]. destruct (h (CWaitForFailoverEnd _ _ _) w) as [[retryDone bufferErr] w1] eqn:Hh.
    destruct bufferErr as [be|]; cbn [run].
    + eexists (inl _), w1, _. split; [reflexivity|].
      split; [reflexivity|]. split; [reflexivity|]. split; [cbn; lia|].
      split; [destruct retryDone; reflexivity|].
      exists (Keyspace target), (Shard target), (err st), w, be. rewrite Hh. reflexivity.
    + eexists (inr _), w1, _. split; [reflexivity|].
      split; [reflexivity|]. split; [reflexivity|]. split; [cbn; lia|].
      destruct retryDone; split; reflexivity.
  - exists (inr st), w, []. split; [reflexivity|].
    split; [reflexivity|]. split; [reflexivity|]. split; [cbn; lia|]. split; reflexivity.
Qed.

Lemma noTablets_run (st : LoopState) (w : W) :
  exists (ctl : Ctl) (st1 : LoopState) (w1 : W) (log : list Entry),
    run h (noTablets gw target st) w = (Some (ctl, st1), w1, log)
    /\ quiet log
    /\ invalidTablets st1 = invalidTablets st.
Proof.
  unfold noTablets. destruct (_ && _).
  - cbn [run]. destruct (h (CTargetIsBeingResharded target) w) as [[] w1]; cbn [run].
    + eexists _, _, w1, _. split; [reflexivity|]. split; [repeat split | reflexivity].
    + destruct (h (CShouldStartBufferingForTarget target) w1) as [[primary []] w2];
        [|destruct primary]; cbn [run];
        (eexists _, _, w2, _; split; [reflexivity|]; split; [repeat split | reflexivity]).
  - eexists _, _, w, _. split; [reflexivity|]. split; [repeat split | reflexivity].
Qed.

Lemma attempt_run (st : LoopState) (th : TabletHealth) (w : W) :
  exists (canRetry : bool) (e : error) (w1 : W) (log : list Entry),
    (h (CInner target th) w).1 = (canRetry, e)
    /\ run h (attempt target st th) w
       = (Some (if canRetry
                then (Continue, set_invalid (aliasOf th) (set_err e st))
                else (Break, set_err e st)), w1, log)
    /\ attempts log = [(th, (canRetry, e))]
    /\ lookups log = []
    /\ waits log = [].
Proof.
  unfold attempt. cbn [run].
  destruct (h (CInner target th) w) as [[canRetry e] w1]. cbn [run].
  destruct (h (CUpdateStats target _) w1) as [[] w2].
  exists canRetry, e, w2. eexists. split; [reflexivity|].
  split; [destruct canRetry; reflexivity|]. repeat split.
Qed.


Lemma execute_run (st : LoopState) (th : TabletHealth) (w : W) :
  exists (ctl : Ctl) (st1 : LoopState) (w1 : W) (log : list Entry),
    run h (execute target st th) w = (Some (ctl, st1), w1, log)
    /\ lookups log = [] /\ waits log = []
    /\ match Conn th with
       | None =>
           ctl = Continue /\ attempts log = []
           /\ invalidTablets st1 = <[aliasOf th := true]> (invalidTablets st)
       | Some _ =>
           exists (v : W) (canRetry : bool) (e : error),
             (h (CInner target th) v).1 = (canRetry, e)
             /\ attempts log = [(th, (canRetry, e))]
             /\ err st1 = e
             /\ ctl = (if canRetry then Continue else Break)
             /\ invalidTablets st1 =
                (if canRetry then <[aliasOf th := true]> (invalidTablets st)
                 else invalidTablets st)
       end.
Proof.
  unfold execute. destruct (Conn th) as [c|].
  2:{ eexists _, _, w, _. split; [reflexivity|]. repeat split. }
  destruct (updateDefaultConnCollation _ _) as [stored warned].
  destruct warned.
  - cbn [run]. destruct (h (CLogWarningf _) w) as [[] w0].
    destruct (attempt_run (set_collation stored (set_tabletLastUsed (Tablet_ th) st)) th w0)
      as (canRetry & e & w1 & log & Hh & -> & Hatt & Hlook & Hwait).
    destruct canRetry;
      (eexists _, _, w1, _; split; [reflexivity|];
       split; [exact Hlook|]; split; [exact Hwait|];
       eexists w0, _, e; split; [exact Hh|]; split; [exact Hatt|]; repeat split).
  - destruct (attempt_run (set_collation stored (set_tabletLastUsed (Tablet_ th) st)) th w)
      as (canRetry & e & w1 & log & Hh & -> & Hatt & Hlook & Hwait).
    destruct canRetry;
      (eexists _, _, w1, _; split; [reflexivity|];
       split; [exact Hlook|]; split; [exact Hwait|];
       eexists w, _, e; split; [exact Hh|]; split; [exact Hatt|]; repeat split).
Qed.

Lemma iteration_outcome (st : LoopState) (w : W) :
  exists (ctl : Ctl) (st1 : LoopState) (w1 : W) (log : list Entry),
    run h (iteration fl gw target inTransaction st) w = (Some (ctl, st1), w1, log)
    /\ (length (waits log) <= 1)%nat
    /\ Outcome h target st ctl st1 log.
Proof.
  unfold iteration, mbind, Prog_bind. rewrite run_bind.
  destruct (bufferCheck_run st w)
    as (checked & wb & logb & -> & Hba & Hbl & Hbw & Hchecked).
  destruct checked as [stb | stb].
  { destruct Hchecked as (Hinv & keyspace & shard & prev & v & be & Hbe).
    cbn [run]. eexists Break, stb, wb, _. split; [reflexivity|].
    rewrite app_nil_r. split; [exact Hbw|].
    eapply BufferFailed; eauto. }
  destruct Hchecked as [Hinvb Herrb].
  cbn [run]. destruct (h (CGetHealthyTabletStats target) wb) as [found w0] eqn:Hfound.
  assert (Hlookup : forall rest : list Entry, lookups rest = [] ->
            length (lookups (logb ++ entry (CGetHealthyTabletStats target) found :: rest))
            = 1%nat).
  { intros rest Hrest. rewrite lookups_app, Hbl. cbn. fold (lookups rest).
    rewrite Hrest. reflexivity. }
  assert (Hattempts : forall rest : list Entry,
            attempts (logb ++ entry (CGetHealthyTabletStats target) found :: rest)
            = attempts rest).
  { intros rest. rewrite attempts_app, Hba. reflexivity. }
  assert (Hwaits : forall rest : list Entry, waits rest = [] ->
            (length (waits (logb ++ entry (CGetHealthyTabletStats target) found :: rest))
             <= 1)%nat).
  { intros rest Hrest. rewrite waits_app, length_app. cbn. fold (waits rest).
    rewrite Hrest. cbn. lia. }
  case_bool_decide as Hlen.
  - assert (found = []) as -> by (destruct found; [reflexivity | discriminate]).
    destruct (noTablets_run stb w0) as (ctl & st1 & w1 & log & -> & (Ha & Hl & Hw) & Hinv).
    exists ctl, st1, w1. eexists. split; [reflexivity|]. split; [apply Hwaits; exact Hw|].
    apply (NoneHealthy h target _ _ _ _ wb).
    + rewrite Hfound. reflexivity.
    + rewrite Hattempts. exact Ha.
    + apply Hlookup. exact Hl.
    + rewrite Hinv. exact Hinvb.
  - rewrite run_bind.
    destruct (pickTablet_run stb found w0)
      as (picked & w1 & logp & -> & (Hpa & Hpl & Hpw) & Hpicked).
    destruct picked as [th|].
    + destruct (execute_run stb th w1)
        as (ctl & st1 & w2 & loge & -> & Hel & Hew & Hexec).
      exists ctl, st1, w2. eexists. split; [reflexivity|].
      split; [apply Hwaits; rewrite waits_app, Hpw, Hew; reflexivity|].
      assert (Hin : pick_ok h -> th ∈ (h (CGetHealthyTabletStats target) wb).1).
      { intros Hpick. rewrite Hfound. apply (Hpicked Hpick th eq_refl). }
      destruct (Conn th) as [c|] eqn:Hconn.
      * destruct Hexec as (v & canRetry & e & Hh & Hea & Herr & Hctl & Hinv).
        apply (Attempted h target _ _ _ _ wb v th canRetry e); try assumption.
        -- intros Hpick. rewrite <- Hinvb. apply (Hpicked Hpick th eq_refl).
        -- rewrite Hattempts, attempts_app, Hpa. exact Hea.
        -- apply Hlookup. rewrite lookups_app, Hpl, Hel. reflexivity.
        -- rewrite Hinv, Hinvb. reflexivity.
      * destruct Hexec as (Hctl & Hea & Hinv).
        apply (NoConnection h target _ _ _ _ wb th); try assumption.
        -- rewrite Hattempts, attempts_app, Hpa. exact Hea.
        -- apply Hlookup. rewrite lookups_app, Hpl, Hel. reflexivity.
        -- rewrite Hinv, Hinvb. reflexivity.
    + cbn [run]. eexists Break, _, w1, _. split; [reflexivity|].
      split; [apply Hwaits; rewrite app_nil_r; exact Hpw|].
      apply NonePicked.
      * reflexivity.
      * rewrite Hattempts, app_nil_r. exact Hpa.
      * apply Hlookup. rewrite app_nil_r. exact Hpl.
      * rewrite <- Hinvb. destruct (err stb); reflexivity.
      * intros Herr. rewrite <- Herrb in Herr |- *.
        destruct (err stb) eqn:E; [exact E | contradiction].
Qed.


Lemma attempted_app (log1 log2 : list Entry) :
  attempted (log1 ++ log2) = attempted log1 ++ attempted log2.
Proof. unfold attempted. rewrite attempts_app, fmap_app. reflexivity. Qed.

(** What every outcome has in common, as far as the invalid-set goes. *)
Lemma Outcome_fresh (st : LoopState) (ctl : Ctl) (st1 : LoopState) (log : list Entry) :
  pick_ok h ->
  Outcome h target st ctl st1 log ->
  (length (lookups log) <= 1)%nat
  /\ (length (attempts log) <= 1)%nat
  /\ (forall a : string, a ∈ attempted log -> invalidTablets st !! a = None)
  /\ (ctl = Continue ->
      forall a : string, a ∈ attempted log -> is_Some (invalidTablets st1 !! a))
  /\ (forall a : string, invalidTablets st1 !! a = None -> invalidTablets st !! a = None).
Proof.
  intros Hpick Hout.
  assert (Hmono : forall (x : string) (m : gmap string bool) (a : string),
            <[x := true]> m !! a = None -> m !! a = None).
  { intros x m a Ha. destruct (decide (x = a)) as [-> | Hne].
    - rewrite lookup_insert_eq in Ha. discriminate.
    - rewrite lookup_insert_ne in Ha by assumption. exact Ha. }
  assert (Hnil : forall P : string -> Prop, forall a : string, a ∈ @nil string -> P a).
  { intros P a Ha. apply elem_of_nil in Ha. contradiction. }
  destruct Hout as [ks sh prev v be Hbe Hctl Hatt Hlook Hinv
                   | v Hfound Hatt Hlook Hinv
                   | Hctl Hatt Hlook Hinv Herr
                   | v th Hin Hconn Hctl Hatt Hlook Hinv
                   | v v' th canRetry e Hin Hvalid Hh Hatt Hlook Herr Hctl Hinv];
    unfold attempted; rewrite Hatt, ?Hlook; cbn [length fmap list_fmap].
  - split; [lia|]. split; [lia|]. split; [apply Hnil|]. split; [intros _; apply Hnil|].
    rewrite Hinv. auto.
  - split; [lia|]. split; [lia|]. split; [apply Hnil|]. split; [intros _; apply Hnil|].
    rewrite Hinv. auto.
  - split; [lia|]. split; [lia|]. split; [apply Hnil|]. split; [intros _; apply Hnil|].
    rewrite Hinv. auto.
  - split; [lia|]. split; [lia|]. split; [apply Hnil|]. split; [intros _; apply Hnil|].
    rewrite Hinv. apply Hmono.
  - split; [lia|]. split; [lia|].
    split; [intros a ->%list_elem_of_singleton; exact (Hvalid Hpick)|].
    split.
    + intros -> a ->%list_elem_of_singleton. destruct canRetry; [|discriminate].
      rewrite Hinv, lookup_insert_eq. eexists; reflexivity.
    + rewrite Hinv. destruct canRetry; [apply Hmono | auto].
Qed.

Lemma retryLoop_fresh (n : nat) (st : LoopState) (w : W) :
  pick_ok h ->
  exists (st' : LoopState) (w' : W) (log : list Entry),
    run h (retryLoop fl gw target inTransaction n st) w = (Some st', w', log)
    /\ (length (waits log) <= n)%nat
    /\ (length (lookups log) <= n)%nat
    /\ (length (attempts log) <= n)%nat
    /\ NoDup (attempted log)
    /\ (forall a : string, a ∈ attempted log -> invalidTablets st !! a = None).
Proof.
  intros Hpick. revert st w. induction n as [| n IH]; intros st w.
  { exists st, w, []. split; [reflexivity|]. cbn.
    split; [lia|]. split; [lia|]. split; [lia|]. split; [constructor|].
    intros a Ha. apply elem_of_nil in Ha. contradiction. }
  cbn [retryLoop]. unfold mbind, Prog_bind. rewrite run_bind.
  destruct (iteration_outcome st w) as (ctl & st1 & w1 & log1 & -> & Hwait1 & Hout).
  destruct (Outcome_fresh st ctl st1 log1 Hpick Hout)
    as (Hlook1 & Hatt1 & Hfresh1 & Hmarked1 & Hmono1).
  assert (Hnodup1 : NoDup (attempted log1)).
  { unfold attempted. destruct (attempts log1) as [| a [| b rest]]; cbn in *.
    - constructor.
    - apply NoDup_singleton.
    - lia. }
  destruct ctl.
  - destruct (IH st1 w1) as (st' & w' & log & -> & Hwait & Hlook & Hatt & Hnodup & Hfresh).
    exists st', w'. eexists. split; [reflexivity|].
    rewrite waits_app, lookups_app, attempts_app, attempted_app, !length_app.
    split; [lia|]. split; [lia|]. split; [lia|]. split.
    + apply NoDup_app. split; [exact Hnodup1|]. split; [|exact Hnodup].
      intros a Ha1 Ha. destruct (Hmarked1 eq_refl a Ha1) as [x Hx].
      rewrite (Hfresh a Ha) in Hx. discriminate.
    + intros a [Ha | Ha]%elem_of_app; [exact (Hfresh1 a Ha)|].
      apply Hmono1, Hfresh, Ha.
  - cbn [run]. exists st1, w1. eexists. split; [reflexivity|].
    rewrite app_nil_r. split; [lia|]. split; [lia|]. split; [lia|].
    split; [exact Hnodup1 | exact Hfresh1].
Qed.

Lemma retryLoop_total (n : nat) (st : LoopState) (w : W) :
  exists (st' : LoopState) (w' : W) (log : list Entry),
    run h (retryLoop fl gw target inTransaction n st) w = (Some st', w', log).
Proof.
  revert st w. induction n as [| n IH]; intros st w.
  { eexists _, _, _; reflexivity. }
  cbn [retryLoop]. unfold mbind, Prog_bind. rewrite run_bind.
  destruct (iteration_outcome st w) as ([] & st1 & w1 & log1 & -> & _).
  - destruct (IH st1 w1) as (st' & w' & log & ->). eexists _, _, _; reflexivity.
  - eexists _, _, _; reflexivity.
Qed.


Lemma lastAttemptError_cons (a : TabletHealth * (bool * error)) (log1 log2 : list Entry) :
  attempts log1 = [a] ->
  lastAttemptError (log1 ++ log2) =
  match attempts log2 with
  | [] => Some a.2.2
  | _ :: _ => lastAttemptError log2
  end.
Proof.
  intros H1. unfold lastAttemptError. rewrite attempts_app, H1.
  destruct (attempts log2) as [| b rest]; [reflexivity|].
  change ([a] ++ b :: rest) with (a :: b :: rest). rewrite last_cons_cons. reflexivity.
Qed.

Section AllRetryable.
Context (cands : list TabletHealth).
Hypothesis Hpick : pick_ok h.
Hypothesis Hfixed : forall (t : Target) (v : W), (h (CGetHealthyTabletStats t) v).1 = cands.
Hypothesis Hretry : forall (t : Target) (th : TabletHealth) (v : W),
  (h (CInner t th) v).1.1 = true.
Hypothesis Hconn : forall th : TabletHealth, th ∈ cands -> Conn th <> None.
Hypothesis Hfailed : forall (t : Target) (th : TabletHealth) (v : W),
  (h (CInner t th) v).1.2 <> None.
Hypothesis Hbuffer : forall (keyspace shard : string) (prev : error) (v : W),
  (h (CWaitForFailoverEnd keyspace shard prev) v).1.2 = None.

Lemma retryLoop_last (n : nat) (st : LoopState) (w : W) :
  exists (st' : LoopState) (w' : W) (log : list Entry),
    run h (retryLoop fl gw target inTransaction n st) w = (Some st', w', log)
    /\ (cands = [] -> attempts log = [])
    /\ (cands <> [] -> attempts log = [] -> err st <> None -> err st' = err st)
    /\ (cands <> [] -> forall e : error, lastAttemptError log = Some e -> err st' = e).
Proof.
  revert st w. induction n as [| n IH]; intros st w.
  { exists st, w, []. split; [reflexivity|]. split; [reflexivity|].
    split; [reflexivity | discriminate]. }
  cbn [retryLoop]. unfold mbind, Prog_bind. rewrite run_bind.
  destruct (iteration_outcome st w) as (ctl & st1 & w1 & log1 & -> & _ & Hout).
  destruct Hout as [ks sh prev v be Hbe Hctl Hatt Hlook Hinv
                   | v Hfound Hatt Hlook Hinv
                   | Hctl Hatt Hlook Hinv Herr
                   | v th Hin Hnoconn Hctl Hatt Hlook Hinv
                   | v v' th canRetry e Hin Hvalid Hh Hatt Hlook Herr Hctl Hinv].
  - rewrite Hbuffer in Hbe. discriminate.
  - rewrite Hfixed in Hfound.
    destruct ctl.
    + destruct (IH st1 w1) as (st' & w' & log & -> & Hnone & _).
      exists st', w'. eexists. split; [reflexivity|].
      rewrite attempts_app, Hatt, (Hnone Hfound).
      split; [reflexivity|]. split; contradiction.
    + cbn [run]. exists st1, w1. eexists. split; [reflexivity|].
      rewrite app_nil_r, Hatt. split; [reflexivity|]. split; contradiction.
  - subst ctl. cbn [run]. exists st1, w1. eexists. split; [reflexivity|].
    rewrite app_nil_r. unfold lastAttemptError. rewrite Hatt.
    split; [reflexivity|]. split; [intros _ _; exact Herr | discriminate].
  - specialize (Hin Hpick). rewrite Hfixed in Hin.
    exfalso. exact (Hconn th Hin Hnoconn).
  - specialize (Hin Hpick). rewrite Hfixed in Hin.
    assert (Hne : cands <> []) by (intros ->; apply elem_of_nil in Hin; contradiction).
    pose proof (Hretry target th v') as Htrue. pose proof (Hfailed target th v') as Hnonnil.
    rewrite Hh in Htrue, Hnonnil. cbn in Htrue, Hnonnil. subst canRetry ctl.
    destruct (IH st1 w1) as (st' & w' & log & -> & _ & Hkeep & Hlast).
    exists st', w'. eexists. split; [reflexivity|].
    split; [contradiction|].
    split; [rewrite attempts_app, Hatt; discriminate|].
    intros _ e' He'. rewrite (lastAttemptError_cons _ _ _ Hatt) in He'.
    destruct (attempts log) as [| b rest] eqn:Hrest.
    + injection He' as <-. cbn. rewrite <- Herr.
      apply Hkeep; [assumption | reflexivity|]. rewrite Herr. exact Hnonnil.
    + apply Hlast; assumption.
Qed.

End AllRetryable.
End Iteration.

(** What withRetry does once both pre-flight checks have passed. *)
Lemma withRetry_run {W : Type} (h : Handler W) (fl : Flags) (gw : TabletGateway)
    (target : Target) (inTransaction : bool) (w : W)
    (st : LoopState) (w1 : W) (log : list Entry) :
  inTransaction && negb (bool_decide (TabletType_ target = PRIMARY)) = false ->
  bool_decide (0 < length (AllowedTabletTypes fl))%nat
    && negb (bool_decide (TabletType_ target ∈ AllowedTabletTypes fl)) = false ->
  run h (retryLoop fl gw target inTransaction (Z.to_nat (retryLimit gw)) (loopStart gw)) w
    = (Some st, w1, log) ->
  exists (w2 : W) (done : list Entry),
    run h (withRetry fl gw target inTransaction) w =
      (Some (set_defaultConnCollation (collation st) gw,
             NewShardError (err st) (Some target)), w2, log ++ done)
    /\ quiet done.
Proof.
  intros H1 H2 Hloop. unfold withRetry, mbind, Prog_bind. rewrite H1, H2.
  rewrite run_bind, Hloop, run_bind. destruct (bufferedOnce st).
  - cbn [run]. destruct (h CRetryDone w1) as [[] w2].
    eexists w2, _. split; [reflexivity|]. repeat split.
  - cbn [run]. eexists w1, _. split; [reflexivity|]. repeat split.
Qed.

(** C7 (as amended): a dispatch that passes both pre-flight checks runs the
    retry loop to its end (under a well-behaved random source nothing
    panics) and returns NewShardError of the loop's final error: nil when
    that error is nil, and otherwise that error wrapped exactly once with
    "target: keyspace.shard.tablet_type".  NewShardError maps nil to nil and
    leaves an error unwrapped when the target is nil. *)
Theorem withRetry_decorates_loop_error {W : Type} (h : Handler W) (fl : Flags)
    (gw : TabletGateway) (target : Target) (inTransaction : bool) (w : W) :
  rng_ok h ->
  inTransaction = false \/ TabletType_ target = PRIMARY ->
  AllowedTabletTypes fl = [] \/ TabletType_ target ∈ AllowedTabletTypes fl ->
  (exists st : LoopState,
     result (run h (retryLoop fl gw target inTransaction
                      (Z.to_nat (retryLimit gw)) (loopStart gw)) w) = Some st
     /\ returned (run h (withRetry fl gw target inTransaction) w)
        = Some (NewShardError (err st) (Some target))
     /\ NewShardError (err st) (Some target)
        = match err st with
          | None => None
          | Some e =>
              Some (Wrapf e "target: %s.%s.%s"
                      [AString (Keyspace target); AString (Shard target);
                       AString (TabletTypeLString (TabletType_ target))])
          end)
  /\ (forall t : option Target, NewShardError None t = None)
  /\ (forall e : Error, NewShardError (Some e) None = Some e).
Proof.
  intros Hrng Hpre1 Hpre2. split; [|split; reflexivity].
  destruct (retryLoop_total h fl gw target inTransaction Hrng
              (Z.to_nat (retryLimit gw)) (loopStart gw) w) as (st & w1 & log & Hloop).
  exists st. rewrite Hloop. split; [reflexivity|].
  split; [|destruct (err st); reflexivity].
  destruct (withRetry_run h fl gw target inTransaction w st w1 log) as (w2 & done & -> & _).
  - destruct Hpre1 as [-> | ->]; [reflexivity|].
    rewrite bool_decide_eq_true_2 by reflexivity. apply andb_false_r.
  - destruct Hpre2 as [-> | Hin]; [reflexivity|].
    rewrite (bool_decide_eq_true_2 _ Hin). apply andb_false_r.
  - exact Hloop.
  - reflexivity.
Qed.

Lemma quiet_suffix (log done : list Entry) :
  quiet done ->
  attempts (log ++ done) = attempts log
  /\ lookups (log ++ done) = lookups log
  /\ waits (log ++ done) = waits log.
Proof.
  intros (Ha & Hl & Hw).
  rewrite attempts_app, lookups_app, waits_app, Ha, Hl, Hw, !app_nil_r. repeat split.
Qed.

(** C1 (as amended): for a dispatch whose health view always reports the
    same candidates, at most retryCount+1 of them, and whose attempts all
    answer canRetry = true: withRetry returns; no tablet alias is attempted
    twice; the buffer waits, the candidate lookups and the attempts, each of
    which happens at most once per iteration, number at most retryCount+1
    each.  If moreover every candidate has a connection, every attempt
    answers a non-nil error and the failover buffer never answers an error,
    the error returned is the error of the last attempt decorated with the
    target. *)
Theorem withRetry_all_retryable {W : Type} (h : Handler W) (fl : Flags)
    (gw : TabletGateway) (target : Target) (inTransaction : bool)
    (cands : list TabletHealth) (w : W) :
  rng_ok h ->
  pick_ok h ->
  Z.of_nat (length cands) <= retryLimit gw ->
  (forall (t : Target) (v : W), (h (CGetHealthyTabletStats t) v).1 = cands) ->
  (forall (t : Target) (th : TabletHealth) (v : W), (h (CInner t th) v).1.1 = true) ->
  exists (gw' : TabletGateway) (returnedErr : error),
    result (run h (withRetry fl gw target inTransaction) w) = Some (gw', returnedErr)
    /\ NoDup (attempted (calls (run h (withRetry fl gw target inTransaction) w)))
    /\ Z.of_nat (length (waits (calls (run h (withRetry fl gw target inTransaction) w))))
       <= retryLimit gw
    /\ Z.of_nat (length (lookups (calls (run h (withRetry fl gw target inTransaction) w))))
       <= retryLimit gw
    /\ Z.of_nat (length (attempts (calls (run h (withRetry fl gw target inTransaction) w))))
       <= retryLimit gw
    /\ ((forall th : TabletHealth, th ∈ cands -> Conn th <> None) ->
        (forall (t : Target) (th : TabletHealth) (v : W), (h (CInner t th) v).1.2 <> None) ->
        (forall (keyspace shard : string) (prev : error) (v : W),
           (h (CWaitForFailoverEnd keyspace shard prev) v).1.2 = None) ->
        forall e : error,
          lastAttemptError (calls (run h (withRetry fl gw target inTransaction) w)) = Some e ->
          returnedErr = NewShardError e (Some target)).
Proof.
  intros Hrng Hpick Hsize Hfixed Hretry.
  assert (Hlimit : 0 <= retryLimit gw) by lia.
  destruct (inTransaction && negb (bool_decide (TabletType_ target = PRIMARY))) eqn:Hpre1.
  { unfold withRetry. rewrite Hpre1. eexists _, _. split; [reflexivity|].
    cbn. split; [constructor|]. split; [lia|]. split; [lia|]. split; [lia|]. discriminate. }
  destruct (bool_decide (0 < length (AllowedTabletTypes fl))%nat
            && negb (bool_decide (TabletType_ target ∈ AllowedTabletTypes fl))) eqn:Hpre2.
  { unfold withRetry. rewrite Hpre1, Hpre2. eexists _, _. split; [reflexivity|].
    cbn. split; [constructor|]. split; [lia|]. split; [lia|]. split; [lia|]. discriminate. }
  destruct (retryLoop_fresh h fl gw target inTransaction Hrng
              (Z.to_nat (retryLimit gw)) (loopStart gw) w Hpick)
    as (st & w1 & log & Hloop & Hwait & Hlook & Hcount & Hnodup & _).
  destruct (withRetry_run h fl gw target inTransaction w st w1 log Hpre1 Hpre2 Hloop)
    as (w2 & done & -> & Hquiet).
  destruct (quiet_suffix log done Hquiet) as (Hatt & Hlk & Hwt).
  eexists _, _. split; [reflexivity|].
  unfold calls, attempted, lastAttemptError; cbn [fst snd]. rewrite Hatt, Hlk, Hwt.
  split; [exact Hnodup|]. split; [lia|]. split; [lia|]. split; [lia|].
  intros Hconn Hfailed Hbuffer e He. f_equal.
  destruct (retryLoop_last h fl gw target inTransaction Hrng cands Hpick Hfixed Hretry
              Hconn Hfailed Hbuffer (Z.to_nat (retryLimit gw)) (loopStart gw) w)
    as (st' & w1' & log' & Hloop' & Hnone & _ & Hlast).
  rewrite Hloop in Hloop'. injection Hloop' as <- <- <-.
  destruct (decide (cands = [])) as [Hnil | Hne].
  - rewrite (Hnone Hnil) in He. discriminate.
  - apply Hlast; assumption.
Qed.


End GatewayProperties.

(** * Further properties of the gateway *)

(** ** Call discipline *)

Lemma sat_bind {A B : Type} (P : Call -> Prop) (Q : A -> Prop) (R : B -> Prop)
    (p : Prog A) (f : A -> Prog B) :
  sat P Q p -> (forall a : A, Q a -> sat P R (f a)) -> sat P R (bind p f).
Proof.
  intros Hp Hf. induction p as [a | | c k IH]; simpl in *.
  - apply Hf, Hp.
  - exact I.
  - destruct Hp as [Hc Hk]. split; [exact Hc|]. intros r. apply IH, Hk.
Qed.

Lemma sat_weaken {A : Type} (P P' : Call -> Prop) (Q Q' : A -> Prop) (p : Prog A) :
  (forall c : Call, P c -> P' c) -> (forall a : A, Q a -> Q' a) ->
  sat P Q p -> sat P' Q' p.
Proof.
  intros HP HQ. induction p as [a | | c k IH]; simpl.
  - apply HQ.
  - auto.
  - intros [Hc Hk]. split; [apply HP, Hc|]. intros r. apply IH, Hk.
Qed.

Lemma sat_run {W A : Type} (h : Handler W) (P : Call -> Prop) (Q : A -> Prop)
    (p : Prog A) (w : W) :
  sat P Q p ->
  Forall (fun e => P (callOf e)) (calls (run h p w))
  /\ forall a : A, result (run h p w) = Some a -> Q a.
Proof.
  revert w. induction p as [a | | c k IH]; intros w Hsat; simpl in *.
  - split; [constructor|]. intros a' [= <-]. exact Hsat.
  - split; [constructor | discriminate].
  - destruct Hsat as [Hc Hk]. destruct (h c w) as [r w1].
    specialize (IH r w1 (Hk r)).
    destruct (run h (k r) w1) as [[a w2] log]. unfold calls, result in *; simpl in *.
    destruct IH as [Hlog Hres]. split; [constructor; assumption | exact Hres].
Qed.

Section Discipline.
Context `{Ext : Externals}.
Context (fl : Flags) (gw : TabletGateway) (target : Target) (inTransaction : bool).

#[local] Abbreviation allowed := (dispatchCall fl gw target inTransaction).
#[local] Abbreviation bufferedOk := (bufferedOk gw target inTransaction).

Lemma shuffleLoop_sat (cell : string) (m : nat) (s : ShuffleState) :
  useBalancer fl target = false ->
  sat allowed (fun _ => True) (shuffleLoop cell m s).
Proof.
  intros Hmode. revert s. induction m as [| m IH]; intros s; [exact I|].
  cbn [shuffleLoop]. destruct (Z.leb_spec (tail s - head s + 1) 0) as [? | Hpos]; [exact I|].
  split; [apply dc_rand; [exact Hmode | lia]|].
  intros r. destruct (shuffleStep cell (head s + r) s); [apply IH | exact I].
Qed.

Lemma pickTablet_sat (st : LoopState) (l : list TabletHealth) :
  sat allowed (fun _ => True) (pickTablet fl gw target st l).
Proof.
  unfold pickTablet. destruct (useBalancer fl target) eqn:Hmode.
  - split; [apply dc_pick; exact Hmode|]. intros r. exact I.
  - unfold shuffleTablets, mbind, Prog_bind.
    apply (sat_bind _ (fun _ => True)); [|intros; exact I].
    apply (sat_bind _ (fun _ => True)); [apply shuffleLoop_sat; exact Hmode|].
    intros; exact I.
Qed.

Lemma noTablets_sat (st : LoopState) :
  sat allowed (fun r => sameBuffered st r.2) (noTablets gw target st).
Proof.
  unfold noTablets. destruct (kev gw) eqn:Hkev; [|reflexivity].
  case_bool_decide as Hty; [|reflexivity]. cbn.
  split; [apply dc_resharded; assumption|]. intros [|]; [reflexivity|].
  split; [apply dc_shouldBuffer; assumption|].
  intros [[p|] []]; reflexivity.
Qed.

Lemma execute_sat (st : LoopState) (th : TabletHealth) :
  sat allowed (fun r => sameBuffered st r.2) (execute target st th).
Proof.
  assert (Hattempt : forall s : LoopState, Conn th <> None ->
            sat allowed (fun r => sameBuffered s r.2) (attempt target s th)).
  { intros s Hconn. unfold attempt. split; [apply dc_inner; exact Hconn|].
    intros [canRetry e]. split; [apply dc_stats|]. intros _.
    destruct canRetry; reflexivity. }
  unfold execute. destruct (Conn th) as [c|] eqn:Hconn; [|reflexivity].
  destruct (updateDefaultConnCollation _ _) as [stored []].
  - split; [apply dc_warning|]. intros _.
    apply (Hattempt (set_collation stored (set_tabletLastUsed (Tablet_ th) st))).
    discriminate.
  - apply (Hattempt (set_collation stored (set_tabletLastUsed (Tablet_ th) st))).
    discriminate.
Qed.

Lemma iteration_sat (st : LoopState) :
  bufferedOk st ->
  sat allowed (fun r => bufferedOk r.2) (iteration fl gw target inTransaction st).
Proof.
  intros Hst. unfold iteration, mbind, Prog_bind.
  apply (sat_bind _ (fun c => bufferedOk match c with inl s | inr s => s end)).
  - unfold bufferCheck.
    destruct (buffer gw) eqn:Hb; [|exact Hst].
    destruct (bufferedOnce st) eqn:Hbo; [exact Hst|].
    destruct inTransaction eqn:Htx; [exact Hst|].
    case_bool_decide as Hty; [|exact Hst]. cbn.
    split; [apply dc_wait; auto|].
    intros [retryDone [be|]]; cbn; intros _; auto.
  - intros [stb | stb] Hstb; [exact Hstb|]. cbn.
    split; [apply dc_lookup|]. intros found.
    case_bool_decide.
    + eapply sat_weaken; [intros c Hc; exact Hc | | apply noTablets_sat].
      intros [ctl st1] Hsame Hbo. cbn in *. apply Hstb. rewrite <- Hsame. exact Hbo.
    + eapply sat_bind; [apply pickTablet_sat|].
      intros [th|] _.
      * eapply sat_weaken; [intros c Hc; exact Hc | | apply execute_sat].
        intros [ctl st1] Hsame Hbo. cbn in *. apply Hstb. rewrite <- Hsame. exact Hbo.
      * cbn. destruct (err stb); exact Hstb.
Qed.

Lemma retryLoop_sat (n : nat) (st : LoopState) :
  bufferedOk st ->
  sat allowed bufferedOk (retryLoop fl gw target inTransaction n st).
Proof.
  revert st. induction n as [| n IH]; intros st Hst; [exact Hst|].
  cbn [retryLoop]. unfold mbind, Prog_bind.
  eapply sat_bind; [apply iteration_sat; exact Hst|].
  intros [[] st1] Hst1; [apply IH; exact Hst1 | exact Hst1].
Qed.

Lemma withRetry_sat :
  sat allowed (fun _ => True) (withRetry fl gw target inTransaction).
Proof.
  unfold withRetry. destruct (_ && _); [exact I|]. destruct (_ && _); [exact I|].
  unfold mbind, Prog_bind.
  eapply sat_bind; [apply retryLoop_sat; discriminate|].
  intros st Hst. destruct (bufferedOnce st) eqn:Hbo; [|exact I].
  destruct (Hst Hbo) as (Hb & Htx & Hty).
  split; [apply dc_retryDone; assumption|]. intros _. exact I.
Qed.

End Discipline.

(** ** The dispatch in detail *)

Lemma stats_app (log1 log2 : list Entry) : stats (log1 ++ log2) = stats log1 ++ stats log2.
Proof. apply omap_app. Qed.
Lemma warnings_app (log1 log2 : list Entry) :
  warnings (log1 ++ log2) = warnings log1 ++ warnings log2.
Proof. apply omap_app. Qed.
Lemma bufferWaits_app (log1 log2 : list Entry) :
  bufferWaits (log1 ++ log2) = bufferWaits log1 ++ bufferWaits log2.
Proof. apply omap_app. Qed.
Lemma retryDones_app (log1 log2 : list Entry) :
  retryDones (log1 ++ log2) = retryDones log1 ++ retryDones log2.
Proof. apply omap_app. Qed.

Lemma silent_nil : silent [].
Proof. repeat split. Qed.

Lemma silent_app (log1 log2 : list Entry) : silent log1 -> silent log2 -> silent (log1 ++ log2).
Proof.
  intros (S1 & W1 & B1 & R1) (S2 & W2 & B2 & R2). unfold silent.
  rewrite stats_app, warnings_app, bufferWaits_app, retryDones_app, S1, S2, W1, W2, B1, B2, R1, R2.
  repeat split.
Qed.

Lemma updateAll_app (stored : N) (l1 l2 : list Tablet) :
  updateAll stored (l1 ++ l2) =
  ((updateAll (updateAll stored l1).1 l2).1,
   (updateAll stored l1).2 ++ (updateAll (updateAll stored l1).1 l2).2).
Proof.
  revert stored. induction l1 as [| t l1 IH]; intros stored.
  - simpl. destruct (updateAll stored l2); reflexivity.
  - rewrite <- app_comm_cons, !updateAll_cons, IH. reflexivity.
Qed.

Section Detail.
Context `{Ext : Externals}.
Context {W : Type} (h : Handler W) (fl : Flags) (gw : TabletGateway)
  (target : Target) (inTransaction : bool).
Hypothesis Hrng : rng_ok h.

Lemma shuffleTablets_silent (cell : string) (l : list TabletHealth) (w : W) :
  silent (calls (run h (shuffleTablets cell l) w)).
Proof.
  rewrite run_shuffleTablets.
  assert (Hloop : forall (m : nat) (s : ShuffleState) (v : W),
            silent (calls (run h (shuffleLoop cell m s) v))).
  { induction m as [| m IH]; intros s v; [apply silent_nil|].
    cbn [shuffleLoop]. destruct (tail s - head s + 1 <=? 0); [apply silent_nil|].
    cbn [run]. destruct (h (CRandIntN (tail s - head s + 1)) v) as [r v1].
    destruct (shuffleStep cell (head s + r) s) as [s1|]; [|apply silent_nil].
    specialize (IH s1 v1).
    destruct (run h (shuffleLoop cell m s1) v1) as [[a v2] log]. exact IH. }
  specialize (Hloop (Z.to_nat (Z.of_nat (length l) - 1)) (shuffleStart l) w).
  destruct (run h (shuffleLoop _ _ _) w) as [[s w'] log]. exact Hloop.
Qed.

(** What pickTablet picks when the balancer is not used: the first valid
    tablet of a list that has the local cell in front. *)
Lemma pickTablet_shuffled (st : LoopState) (l : list TabletHealth) (w : W) :
  useBalancer fl target = false ->
  exists (l' : list TabletHealth) (w' : W) (log : list Entry),
    run h (pickTablet fl gw target st l) w
      = (Some (List.find (fun t => negb (isInvalid st t)) l'), w', log)
    /\ l' ≡ₚ l
    /\ quiet log /\ silent log /\ picks log = []
    /\ forall (i j : nat) (ti tj : TabletHealth),
         l' !! i = Some ti -> l' !! j = Some tj ->
         sameCell (localCell gw) ti -> ~ sameCell (localCell gw) tj -> (i < j)%nat.
Proof.
  intros Hmode. unfold pickTablet. rewrite Hmode.
  unfold mbind, Prog_bind. rewrite run_bind.
  pose proof (shuffleTablets_silent (localCell gw) l w) as Hsilent.
  assert (Hpicks : picks (calls (run h (shuffleTablets (localCell gw) l) w)) = []).
  { rewrite run_shuffleTablets.
    assert (Hloop : forall (m : nat) (s : ShuffleState) (v : W),
              picks (calls (run h (shuffleLoop (localCell gw) m s) v)) = []).
    { induction m as [| m IH]; intros s v; [reflexivity|].
      cbn [shuffleLoop]. destruct (tail s - head s + 1 <=? 0); [reflexivity|].
      cbn [run]. destruct (h (CRandIntN (tail s - head s + 1)) v) as [r v1].
      destruct (shuffleStep (localCell gw) (head s + r) s) as [s1|]; [|reflexivity].
      specialize (IH s1 v1).
      destruct (run h (shuffleLoop (localCell gw) m s1) v1) as [[a v2] log]. exact IH. }
    specialize (Hloop (Z.to_nat (Z.of_nat (length l) - 1)) (shuffleStart l) w).
    destruct (run h (shuffleLoop _ _ _) w) as [[s w'] log]. exact Hloop. }
  destruct (shuffleTablets_sorted h (localCell gw) l w Hrng)
    as (l' & w' & log & Hrun & Hperm & Hq & Hsorted).
  rewrite Hrun in Hsilent, Hpicks |- *. cbn [run].
  exists l', w'. eexists. split; [reflexivity|]. rewrite app_nil_r.
  split; [exact Hperm|]. split; [exact Hq|]. split; [exact Hsilent|].
  split; [exact Hpicks | exact Hsorted].
Qed.


Lemma find_first {A : Type} (f : A -> bool) (l : list A) (x : A) :
  List.find f l = Some x ->
  exists k : nat, l !! k = Some x /\ f x = true
    /\ forall (j : nat) (y : A), (j < k)%nat -> l !! j = Some y -> f y = false.
Proof.
  induction l as [| a l IH]; [discriminate|]. simpl.
  destruct (f a) eqn:Hfa.
  - intros [= <-]. exists 0%nat. split; [reflexivity|]. split; [exact Hfa|]. intros j y Hj. lia.
  - intros Hfind. destruct (IH Hfind) as (k & Hk & Hfx & Hbefore).
    exists (S k). split; [exact Hk|]. split; [exact Hfx|].
    intros [| j] y Hj Hy; simpl in Hy.
    + injection Hy as <-. exact Hfa.
    + apply (Hbefore j); [lia | exact Hy].
Qed.

Lemma find_none_iff {A : Type} (f : A -> bool) (l : list A) :
  List.find f l = None <-> forall x : A, x ∈ l -> f x = false.
Proof.
  split.
  - intros Hnone x Hx. apply list_elem_of_In in Hx. exact (find_none f l Hnone x Hx).
  - intros Hall. induction l as [| a l IH]; [reflexivity|]. simpl.
    rewrite (Hall a) by left. apply IH. intros x Hx. apply Hall. right. exact Hx.
Qed.

(** The first valid tablet of a list with the local cell in front is local
    whenever a valid local tablet is there at all. *)
Lemma find_valid_local (st : LoopState) (l : list TabletHealth) (c : TabletHealth) :
  (forall (i j : nat) (ti tj : TabletHealth),
     l !! i = Some ti -> l !! j = Some tj ->
     sameCell (localCell gw) ti -> ~ sameCell (localCell gw) tj -> (i < j)%nat) ->
  c ∈ l -> sameCell (localCell gw) c -> isInvalid st c = false ->
  exists p : TabletHealth,
    List.find (fun t => negb (isInvalid st t)) l = Some p /\ sameCell (localCell gw) p.
Proof.
  intros Hsorted Hc Hlocal Hvalid.
  destruct (List.find (fun t => negb (isInvalid st t)) l) as [p|] eqn:Hfind.
  - exists p. split; [reflexivity|].
    destruct (find_first _ _ _ Hfind) as (k & Hk & _ & Hbefore).
    apply list_elem_of_lookup in Hc as [i Hi].
    destruct (decide (Cell (Alias (Tablet_ p)) = localCell gw)) as [Hp | Hp]; [exact Hp|].
    pose proof (Hsorted i k c p Hi Hk Hlocal Hp) as Hlt.
    specialize (Hbefore i c Hlt Hi). rewrite Hvalid in Hbefore. discriminate.
  - rewrite find_none_iff in Hfind. specialize (Hfind c Hc).
    rewrite Hvalid in Hfind. discriminate.
Qed.

(** What the balancer is handed: the tablets not marked invalid, in the
    order the health view reported them. *)
Lemma pickTablet_balanced (st : LoopState) (l : list TabletHealth) (w : W) :
  useBalancer fl target = true ->
  exists (picked : option TabletHealth) (w' : W) (log : list Entry),
    run h (pickTablet fl gw target st l) w = (Some picked, w', log)
    /\ quiet log /\ silent log
    /\ picks log = [List.filter (fun t => negb (isInvalid st t)) l].
Proof.
  intros Hmode. unfold pickTablet. rewrite Hmode. cbn [run].
  match goal with |- context [h (CBalancerPick target ?l') w] =>
    assert (Hl : l' = List.filter (fun t => negb (isInvalid st t)) l);
    [|destruct (h (CBalancerPick target l') w) as [picked w']] end.
  { case_bool_decide as Hsize; [reflexivity|].
    assert (Hempty : invalidTablets st = ∅) by (apply map_size_empty_iff; lia).
    symmetry. apply forallb_filter_id. apply forallb_forall. intros x _.
    unfold isInvalid. rewrite Hempty, lookup_empty.
    rewrite bool_decide_eq_false_2; [reflexivity|]. intros [y Hy]. discriminate. }
  exists picked, w'. eexists. split; [reflexivity|].
  split; [repeat split|]. split; [repeat split|]. cbn. rewrite Hl. reflexivity.
Qed.

Lemma bufferCheck_detail (st : LoopState) (w : W) :
  exists (checked : LoopState + LoopState) (w1 : W) (log : list Entry),
    run h (bufferCheck gw target inTransaction st) w = (Some checked, w1, log)
    /\ attempts log = [] /\ lookups log = [] /\ picks log = []
    /\ stats log = [] /\ warnings log = [] /\ retryDones log = []
    /\ let st1 := match checked with inl s | inr s => s end in
       collation st1 = collation st
       /\ invalidTablets st1 = invalidTablets st
       /\ if buffers gw target inTransaction st
          then exists (rd : bool) (be : error),
                 bufferWaits log = [(err st, (rd, be))]
                 /\ bufferedOnce st1 = rd
                 /\ match be with
                    | Some b => checked = inl st1 /\ err st1 = Some (bufferFailure b (err st))
                    | None => checked = inr st1 /\ err st1 = err st
                    end
          else bufferWaits log = [] /\ bufferedOnce st1 = bufferedOnce st
               /\ checked = inr st1 /\ err st1 = err st.
Proof.
  unfold bufferCheck. fold (buffers gw target inTransaction st).
  destruct (buffers gw target inTransaction st) eqn:Hcond.
  - cbn [run]. destruct (h (CWaitForFailoverEnd _ _ _) w) as [[rd be] w1].
    assert (Hbo : bufferedOnce st = false).
    { unfold buffers in Hcond. destruct (bufferedOnce st); [|reflexivity].
      rewrite andb_false_r in Hcond. discriminate. }
    destruct be as [b|]; cbn [run].
    + eexists (inl _), w1, _. split; [reflexivity|].
      do 6 (split; [reflexivity|]). cbn zeta.
      split; [destruct rd; reflexivity|]. split; [destruct rd; reflexivity|].
      exists rd, (Some b). split; [reflexivity|].
      split; [destruct rd; [reflexivity | exact Hbo]|]. split; reflexivity.
    + eexists (inr _), w1, _. split; [reflexivity|].
      do 6 (split; [reflexivity|]). cbn zeta.
      split; [destruct rd; reflexivity|]. split; [destruct rd; reflexivity|].
      exists rd, None. split; [reflexivity|].
      split; [destruct rd; [reflexivity | exact Hbo]|].
      split; [reflexivity | destruct rd; reflexivity].
  - exists (inr st), w, []. split; [reflexivity|].
    do 6 (split; [reflexivity|]). cbn zeta. repeat split.
Qed.

Lemma noTablets_detail (st : LoopState) (w : W) :
  exists (ctl : Ctl) (st1 : LoopState) (w1 : W) (log : list Entry),
    run h (noTablets gw target st) w = (Some (ctl, st1), w1, log)
    /\ quiet log /\ silent log /\ picks log = []
    /\ collation st1 = collation st
    /\ bufferedOnce st1 = bufferedOnce st
    /\ invalidTablets st1 = invalidTablets st.
Proof.
  unfold noTablets. destruct (_ && _).
  - cbn [run]. destruct (h (CTargetIsBeingResharded target) w) as [[] w1]; cbn [run].
    + eexists _, _, w1, _. split; [reflexivity|]. repeat split.
    + destruct (h (CShouldStartBufferingForTarget target) w1) as [[primary []] w2];
        [|destruct primary]; cbn [run];
        (eexists _, _, w2, _; split; [reflexivity|]; repeat split).
  - eexists _, _, w, _. split; [reflexivity|]. repeat split.
Qed.

Lemma execute_detail (st : LoopState) (th : TabletHealth) (w : W) :
  exists (ctl : Ctl) (st1 : LoopState) (w1 : W) (log : list Entry),
    run h (execute target st th) w = (Some (ctl, st1), w1, log)
    /\ lookups log = [] /\ picks log = [] /\ bufferWaits log = [] /\ retryDones log = []
    /\ bufferedOnce st1 = bufferedOnce st
    /\ (length (attempts log) <= 1)%nat
    /\ (forall a, a ∈ attempts log -> a.1 = th)
    /\ stats log = failed <$> attempts log
    /\ collation st1 = (updateAll (collation st) (attemptedTablets log)).1
    /\ warnings log = collationWarnings (updateAll (collation st) (attemptedTablets log)).2
    /\ (forall c : TabletHealth, isInvalid st c = true -> isInvalid st1 c = true).
Proof.
  assert (Hmono : forall (s : LoopState) (c : TabletHealth),
            invalidTablets s = invalidTablets st ->
            isInvalid st c = true -> isInvalid (set_invalid (aliasOf th) s) c = true).
  { intros s c Hs. unfold isInvalid. cbn. rewrite Hs.
    intros Hc%bool_decide_eq_true. apply bool_decide_eq_true.
    destruct (decide (aliasOf th = aliasOf c)) as [E | E].
    - rewrite E, lookup_insert_eq. eexists; reflexivity.
    - rewrite lookup_insert_ne by exact E. exact Hc. }
  unfold execute. destruct (Conn th) as [c|].
  2:{ eexists _, _, w, _. split; [reflexivity|].
      do 6 (split; [try reflexivity; cbn; lia|]).
      split; [intros a Ha; apply elem_of_nil in Ha; contradiction|].
      do 3 (split; [reflexivity|]). intros x. apply Hmono. reflexivity. }
  unfold attemptedTablets.
  destruct (updateDefaultConnCollation (collation (set_tabletLastUsed (Tablet_ th) st))
              (Tablet_ th)) as [stored warned] eqn:Hupd.
  cbn [collation set_tabletLastUsed] in Hupd.
  assert (Hattempt : forall v : W, exists (ctl : Ctl) (st1 : LoopState) (w1 : W) (log : list Entry),
    run h (attempt target (set_collation stored (set_tabletLastUsed (Tablet_ th) st)) th) v
      = (Some (ctl, st1), w1, log)
    /\ lookups log = [] /\ picks log = [] /\ bufferWaits log = [] /\ retryDones log = []
    /\ warnings log = []
    /\ bufferedOnce st1 = bufferedOnce st
    /\ (exists r, attempts log = [(th, r)] /\ stats log = [failed (th, r)])
    /\ collation st1 = stored
    /\ (forall c : TabletHealth, isInvalid st c = true -> isInvalid st1 c = true)).
  { intros v. unfold attempt. cbn [run].
    destruct (h (CInner target th) v) as [[canRetry e] v1]. cbn [run].
    destruct (h (CUpdateStats target _) v1) as [[] v2].
    destruct canRetry.
    - eexists _, _, v2, _. split; [reflexivity|].
      do 6 (split; [reflexivity|]). split; [eexists; split; reflexivity|].
      split; [reflexivity|]. intros x. apply Hmono. reflexivity.
    - eexists _, _, v2, _. split; [reflexivity|].
      do 6 (split; [reflexivity|]). split; [eexists; split; reflexivity|].
      split; [reflexivity|]. intros x Hx. exact Hx. }
  destruct warned.
  - cbn [run]. destruct (h (CLogWarningf _) w) as [[] w0].
    destruct (Hattempt w0)
      as (ctl & st1 & w1 & log & -> & Hl & Hp & Hb & Hr & Hw & Hbo & (r & Ha & Hs) & Hc & Hi).
    exists ctl, st1, w1. eexists. split; [reflexivity|].
    split; [exact Hl|]. split; [exact Hp|]. split; [exact Hb|]. split; [exact Hr|].
    split; [exact Hbo|].
    change (attempts (entry (CLogWarningf
      "this Vitess cluster has tablets with different default connection collations") () :: log))
      with (attempts log).
    change (stats (entry (CLogWarningf
      "this Vitess cluster has tablets with different default connection collations") () :: log))
      with (stats log).
    rewrite Ha, Hs. cbn [length fmap list_fmap fst]. rewrite updateAll_cons, Hupd. cbn.
    split; [lia|]. split; [intros a ->%list_elem_of_singleton; reflexivity|].
    split; [reflexivity|]. split; [exact Hc|]. split; [|exact Hi].
    fold (warnings log). rewrite Hw. reflexivity.
  - destruct (Hattempt w)
      as (ctl & st1 & w1 & log & -> & Hl & Hp & Hb & Hr & Hw & Hbo & (r & Ha & Hs) & Hc & Hi).
    exists ctl, st1, w1. eexists. split; [reflexivity|].
    split; [exact Hl|]. split; [exact Hp|]. split; [exact Hb|]. split; [exact Hr|].
    split; [exact Hbo|].
    rewrite Ha, Hs, Hw. cbn [length fmap list_fmap fst]. rewrite updateAll_cons, Hupd. cbn.
    split; [lia|]. split; [intros a ->%list_elem_of_singleton; reflexivity|].
    split; [reflexivity|]. split; [exact Hc|]. split; [reflexivity | exact Hi].
Qed.


Lemma picks_app (log1 log2 : list Entry) : picks (log1 ++ log2) = picks log1 ++ picks log2.
Proof. apply omap_app. Qed.

(** Nothing is a member of the empty list. *)
Ltac nil_case :=
  let x := fresh "x" in let Hx := fresh "Hx" in
  intros x Hx; apply elem_of_nil in Hx; contradiction.

(** One iteration in detail. *)
Lemma iteration_detail (st : LoopState) (w : W) :
  exists (ctl : Ctl) (st1 : LoopState) (w1 : W) (log : list Entry),
    run h (iteration fl gw target inTransaction st) w = (Some (ctl, st1), w1, log)
    /\ stats log = failed <$> attempts log
    /\ collation st1 = (updateAll (collation st) (attemptedTablets log)).1
    /\ warnings log = collationWarnings (updateAll (collation st) (attemptedTablets log)).2
    /\ retryDones log = []
    /\ (length (attempts log) <= 1)%nat
    /\ (forall c : TabletHealth, isInvalid st c = true -> isInvalid st1 c = true)
    /\ (if buffers gw target inTransaction st
        then exists (rd : bool) (be : error),
               bufferWaits log = [(err st, (rd, be))]
               /\ bufferedOnce st1 = rd
               /\ forall b : Error, be = Some b ->
                    ctl = Break /\ err st1 = Some (bufferFailure b (err st))
                    /\ lookups log = [] /\ attempts log = []
        else bufferWaits log = [] /\ bufferedOnce st1 = bufferedOnce st)
    /\ (useBalancer fl target = false ->
        picks log = []
        /\ forall a, a ∈ attempts log ->
           exists found, lookups log = [found]
           /\ a.1 ∈ found /\ isInvalid st a.1 = false
           /\ (~ sameCell (localCell gw) a.1 ->
               forall c : TabletHealth, c ∈ found -> sameCell (localCell gw) c ->
               isInvalid st c = true))
    /\ (useBalancer fl target = true ->
        forall l, l ∈ picks log ->
        exists found, lookups log = [found]
          /\ l = List.filter (fun t => negb (isInvalid st t)) found).
Proof.
  unfold iteration, mbind, Prog_bind. rewrite run_bind.
  destruct (bufferCheck_detail st w)
    as (checked & wb & logb & -> & Hba & Hbl & Hbp & Hbs & Hbw & Hbr & Hchecked).
  cbn zeta in Hchecked. destruct Hchecked as (Hcoll & Hinv & Hbuf).
  destruct checked as [stb | stb].
  { (* the buffer failed *)
    cbn [run]. exists Break, stb, wb. eexists. split; [reflexivity|].
    rewrite app_nil_r. unfold attemptedTablets. rewrite Hba, Hbs, Hbw, Hbr, Hbp. cbn.
    split; [reflexivity|]. split; [exact Hcoll|]. split; [reflexivity|].
    split; [reflexivity|]. split; [lia|].
    split; [intros c; unfold isInvalid; rewrite Hinv; auto|].
    split.
    - destruct (buffers gw target inTransaction st).
      + destruct Hbuf as (rd & be & Hw & Hbo & Hbe). exists rd, be.
        split; [exact Hw|]. split; [exact Hbo|]. intros b ->.
        destruct Hbe as [_ Herr]. auto.
      + destruct Hbuf as (_ & _ & Hc & _). discriminate.
    - split; [intros _; split; [reflexivity | nil_case]|]. intros _. nil_case. }
  assert (Hbuf' : if buffers gw target inTransaction st
                  then exists (rd : bool) (be : error),
                         bufferWaits logb = [(err st, (rd, be))]
                         /\ bufferedOnce stb = rd /\ be = None
                  else bufferWaits logb = [] /\ bufferedOnce stb = bufferedOnce st).
  { destruct (buffers gw target inTransaction st).
    - destruct Hbuf as (rd & be & Hw & Hbo & Hbe). exists rd, be.
      split; [exact Hw|]. split; [exact Hbo|].
      destruct be as [b|]; [destruct Hbe; discriminate | reflexivity].
    - destruct Hbuf as (Hw & Hbo & _). split; assumption. }
  clear Hbuf.
  assert (Hvalid : forall c : TabletHealth, isInvalid st c = isInvalid stb c).
  { intros c. unfold isInvalid. rewrite Hinv. reflexivity. }
  cbn [run]. destruct (h (CGetHealthyTabletStats target) wb) as [found w0].
  set (lookup := entry (CGetHealthyTabletStats target) found).
  (* what is left of the iteration after the lookup *)
  assert (Hrest : forall (ctl : Ctl) (st1 : LoopState) (rest : list Entry),
    lookups rest = [] -> bufferWaits rest = [] -> retryDones rest = [] ->
    bufferedOnce st1 = bufferedOnce stb ->
    (length (attempts rest) <= 1)%nat ->
    stats rest = failed <$> attempts rest ->
    collation st1 = (updateAll (collation stb) (attemptedTablets rest)).1 ->
    warnings rest = collationWarnings (updateAll (collation stb) (attemptedTablets rest)).2 ->
    (forall c : TabletHealth, isInvalid stb c = true -> isInvalid st1 c = true) ->
    (useBalancer fl target = false ->
       picks rest = []
       /\ forall a, a ∈ attempts rest ->
          a.1 ∈ found /\ isInvalid stb a.1 = false
          /\ (~ sameCell (localCell gw) a.1 ->
              forall c : TabletHealth, c ∈ found -> sameCell (localCell gw) c ->
              isInvalid stb c = true)) ->
    (useBalancer fl target = true ->
       forall l, l ∈ picks rest ->
       l = List.filter (fun t => negb (isInvalid stb t)) found) ->
    let log := logb ++ lookup :: rest in
    stats log = failed <$> attempts log
    /\ collation st1 = (updateAll (collation st) (attemptedTablets log)).1
    /\ warnings log = collationWarnings (updateAll (collation st) (attemptedTablets log)).2
    /\ retryDones log = []
    /\ (length (attempts log) <= 1)%nat
    /\ (forall c : TabletHealth, isInvalid st c = true -> isInvalid st1 c = true)
    /\ (if buffers gw target inTransaction st
        then exists (rd : bool) (be : error),
               bufferWaits log = [(err st, (rd, be))]
               /\ bufferedOnce st1 = rd
               /\ forall b : Error, be = Some b ->
                    ctl = Break /\ err st1 = Some (bufferFailure b (err st))
                    /\ lookups log = [] /\ attempts log = []
        else bufferWaits log = [] /\ bufferedOnce st1 = bufferedOnce st)
    /\ (useBalancer fl target = false ->
        picks log = []
        /\ forall a, a ∈ attempts log ->
           exists found', lookups log = [found']
           /\ a.1 ∈ found' /\ isInvalid st a.1 = false
           /\ (~ sameCell (localCell gw) a.1 ->
               forall c : TabletHealth, c ∈ found' -> sameCell (localCell gw) c ->
               isInvalid st c = true))
    /\ (useBalancer fl target = true ->
        forall l, l ∈ picks log ->
        exists found', lookups log = [found']
          /\ l = List.filter (fun t => negb (isInvalid st t)) found')).
  { intros ctl st1 rest Hl Hw Hr Hbo Hlen Hs Hc Hwarn Hmono Hshuf Hbal log.
    assert (Ea : attempts log = attempts rest).
    { unfold log. rewrite attempts_app, Hba. reflexivity. }
    assert (El : lookups log = [found]).
    { unfold log. rewrite lookups_app, Hbl. cbn. fold (lookups rest). rewrite Hl. reflexivity. }
    assert (Ep : picks log = picks rest).
    { unfold log. rewrite picks_app, Hbp. reflexivity. }
    unfold attemptedTablets in *. rewrite Ea, El, Ep.
    split; [unfold log; rewrite stats_app, Hbs; exact Hs|].
    split; [rewrite <- Hcoll; exact Hc|].
    split; [unfold log; rewrite warnings_app, Hbw, <- Hcoll; exact Hwarn|].
    split; [unfold log; rewrite retryDones_app, Hbr; exact Hr|].
    split; [exact Hlen|].
    split; [intros c Hc'; apply Hmono; rewrite <- Hvalid; exact Hc'|].
    split.
    - destruct (buffers gw target inTransaction st).
      + destruct Hbuf' as (rd & be & Hbw' & Hbo' & ->). exists rd, None.
        split; [unfold log; rewrite bufferWaits_app, Hbw'; cbn; fold (bufferWaits rest);
                rewrite Hw; reflexivity|].
        split; [rewrite Hbo; exact Hbo' | discriminate].
      + destruct Hbuf' as [Hbw' Hbo'].
        split; [unfold log; rewrite bufferWaits_app, Hbw'; cbn; fold (bufferWaits rest);
                exact Hw|].
        rewrite Hbo. exact Hbo'.
    - split.
      + intros Hmode. destruct (Hshuf Hmode) as [Hp Hloc]. split; [exact Hp|].
        intros a Ha. exists found. split; [reflexivity|].
        destruct (Hloc a Ha) as (Hin & Hva & Hlocal).
        split; [exact Hin|]. split; [rewrite Hvalid; exact Hva|].
        intros Hna c Hcf Hcl. rewrite Hvalid. exact (Hlocal Hna c Hcf Hcl).
      + intros Hmode l Hin. exists found. split; [reflexivity|].
        rewrite (Hbal Hmode l Hin). apply filter_ext. intros c. rewrite Hvalid. reflexivity. }
  case_bool_decide as Hlen.
  - destruct (noTablets_detail stb w0)
      as (ctl & st1 & w1 & rest & -> & (Ha & Hl & _) & (Hs & Hw & Hb & Hr) & Hp & Hc & Hbo & Hi).
    exists ctl, st1, w1. eexists. split; [reflexivity|].
    apply (Hrest ctl st1 rest); try assumption.
    + rewrite Ha. cbn. lia.
    + rewrite Hs, Ha. reflexivity.
    + unfold attemptedTablets. rewrite Ha. exact Hc.
    + unfold attemptedTablets. rewrite Ha, Hw. reflexivity.
    + intros c. unfold isInvalid. rewrite Hi. auto.
    + intros _. split; [exact Hp|]. rewrite Ha. nil_case.
    + intros _. rewrite Hp. nil_case.
  - rewrite run_bind.
    assert (Hpick : exists (picked : option TabletHealth) (w1 : W) (logp : list Entry),
      run h (pickTablet fl gw target stb found) w0 = (Some picked, w1, logp)
      /\ quiet logp /\ silent logp
      /\ (useBalancer fl target = false ->
          picks logp = []
          /\ forall th, picked = Some th ->
             th ∈ found /\ isInvalid stb th = false
             /\ (~ sameCell (localCell gw) th ->
                 forall c : TabletHealth, c ∈ found -> sameCell (localCell gw) c ->
                 isInvalid stb c = true))
      /\ (useBalancer fl target = true ->
          picks logp = [List.filter (fun t => negb (isInvalid stb t)) found])).
    { destruct (useBalancer fl target) eqn:Hmode.
      - destruct (pickTablet_balanced stb found w0 Hmode)
          as (picked & w1 & logp & Hrun & Hq & Hs & Hp).
        exists picked, w1, logp. split; [exact Hrun|]. split; [exact Hq|].
        split; [exact Hs|]. split; [discriminate | intros _; exact Hp].
      - destruct (pickTablet_shuffled stb found w0 Hmode)
          as (l' & w1 & logp & Hrun & Hperm & Hq & Hs & Hp & Hsorted).
        eexists _, w1, logp. split; [exact Hrun|]. split; [exact Hq|].
        split; [exact Hs|]. split; [|discriminate].
        intros _. split; [exact Hp|].
        intros th Hth. pose proof Hth as Hfound. apply find_some in Hfound as [Hin Hva].
        split; [rewrite <- Hperm; apply list_elem_of_In; exact Hin|].
        split; [apply negb_true_iff; exact Hva|].
        intros Hnl c Hc Hcl.
        destruct (isInvalid stb c) eqn:Hvc; [reflexivity|]. exfalso.
        rewrite <- Hperm in Hc.
        destruct (find_valid_local stb l' c Hsorted Hc Hcl Hvc) as (p & Hp' & Hpl).
        rewrite Hp' in Hth. injection Hth as ->. exact (Hnl Hpl). }
    destruct Hpick as (picked & w1 & logp & -> & (Hpa & Hpl & _) & (Hps & Hpw & Hpb & Hpr)
                       & Hshuf & Hbal).
    destruct picked as [th|].
    + destruct (execute_detail stb th w1)
        as (ctl & st1 & w2 & loge & -> & Hel & Hep & Heb & Her & Hbo & Hlen1 & Hwho
            & Hes & Hec & Hew & Hmono).
      exists ctl, st1, w2. eexists. split; [reflexivity|].
      assert (Ea : attempts (logp ++ loge) = attempts loge)
        by (rewrite attempts_app, Hpa; reflexivity).
      apply (Hrest ctl st1 (logp ++ loge)); unfold attemptedTablets; rewrite ?Ea.
      * rewrite lookups_app, Hpl, Hel. reflexivity.
      * rewrite bufferWaits_app, Hpb, Heb. reflexivity.
      * rewrite retryDones_app, Hpr, Her. reflexivity.
      * exact Hbo.
      * exact Hlen1.
      * rewrite stats_app, Hps. exact Hes.
      * exact Hec.
      * rewrite warnings_app, Hpw. exact Hew.
      * exact Hmono.
      * intros Hmode. destruct (Hshuf Hmode) as [Hp Hloc].
        split; [rewrite picks_app, Hp, Hep; reflexivity|].
        intros a Ha. rewrite (Hwho a Ha). exact (Hloc th eq_refl).
      * intros Hmode l. rewrite picks_app, (Hbal Hmode), Hep.
        intros ->%list_elem_of_singleton. reflexivity.
    + cbn [run]. eexists Break, _, w1, _. split; [reflexivity|].
      apply (Hrest Break _ (logp ++ [])); unfold attemptedTablets;
        rewrite ?app_nil_r, ?Hpa.
      * exact Hpl.
      * exact Hpb.
      * exact Hpr.
      * destruct (err stb); reflexivity.
      * cbn. lia.
      * exact Hps.
      * destruct (err stb); reflexivity.
      * exact Hpw.
      * intros c Hc. destruct (err stb); exact Hc.
      * intros Hmode. destruct (Hshuf Hmode) as [Hp _]. split; [exact Hp | nil_case].
      * intros Hmode l. rewrite (Hbal Hmode). intros ->%list_elem_of_singleton. reflexivity.
Qed.


Lemma collationWarnings_app (l1 l2 : list bool) :
  collationWarnings (l1 ++ l2) = collationWarnings l1 ++ collationWarnings l2.
Proof. apply omap_app. Qed.

Lemma attemptedTablets_app (log1 log2 : list Entry) :
  attemptedTablets (log1 ++ log2) = attemptedTablets log1 ++ attemptedTablets log2.
Proof. unfold attemptedTablets. rewrite attempts_app, fmap_app. reflexivity. Qed.

(** The retry loop in detail: what it records, what it leaves in the
    collation, and how it uses the buffer. *)
Lemma retryLoop_detail (n : nat) (st : LoopState) (w : W) :
  exists (st' : LoopState) (w' : W) (log : list Entry),
    run h (retryLoop fl gw target inTransaction n st) w = (Some st', w', log)
    /\ stats log = failed <$> attempts log
    /\ collation st' = (updateAll (collation st) (attemptedTablets log)).1
    /\ warnings log = collationWarnings (updateAll (collation st) (attemptedTablets log)).2
    /\ retryDones log = []
    /\ (bufferedOnce st = true -> bufferWaits log = [] /\ bufferedOnce st' = true)
    /\ bufferedOnce st' = bufferedOnce st || existsb (fun x => x.2.1) (bufferWaits log)
    /\ (forall (i : nat) (x : error * (bool * error)),
          bufferWaits log !! i = Some x -> x.2.1 = true \/ x.2.2 <> None ->
          S i = length (bufferWaits log))
    /\ (forall (prev : error) (rd : bool) (b : Error),
          last (bufferWaits log) = Some (prev, (rd, Some b)) ->
          err st' = Some (bufferFailure b prev)).
Proof.
  revert st w. induction n as [| n IH]; intros st w.
  { exists st, w, []. split; [reflexivity|]. cbn.
    split; [reflexivity|]. split; [reflexivity|]. split; [reflexivity|].
    split; [reflexivity|]. split; [auto|]. split; [rewrite orb_false_r; reflexivity|].
    split; [intros i x Hx; discriminate | discriminate]. }
  cbn [retryLoop]. unfold mbind, Prog_bind. rewrite run_bind.
  destruct (iteration_detail st w)
    as (ctl & st1 & w1 & log1 & -> & Hs1 & Hc1 & Hw1 & Hr1 & _ & _ & Hbuf1 & _).
  destruct ctl.
  - (* the loop goes on *)
    destruct (IH st1 w1)
      as (st' & w' & log & -> & Hs & Hc & Hw & Hr & Hbo & Hbo' & Hlastwait & Hfail).
    exists st', w'. eexists. split; [reflexivity|].
    rewrite stats_app, attempts_app, fmap_app, attemptedTablets_app, updateAll_app,
      warnings_app, retryDones_app, bufferWaits_app.
    cbn [fst snd]. rewrite collationWarnings_app, <- Hc1.
    split; [rewrite Hs1, Hs; reflexivity|]. split; [exact Hc|].
    split; [rewrite Hw1, Hw; reflexivity|]. split; [rewrite Hr1, Hr; reflexivity|].
    destruct (buffers gw target inTransaction st) eqn:Hcond.
    + destruct Hbuf1 as (rd & be & Hwaits1 & Hrd & Hbe).
      assert (Hst : bufferedOnce st = false).
      { unfold buffers in Hcond. destruct (bufferedOnce st); [|reflexivity].
        rewrite andb_false_r in Hcond. discriminate. }
      assert (Hnone : be = None).
      { destruct be as [b|]; [|reflexivity]. destruct (Hbe b eq_refl) as [Hctl _].
        discriminate. }
      subst be. rewrite Hwaits1, Hst. cbn [app existsb fst snd orb].
      split; [discriminate|]. split; [rewrite Hbo', Hrd; reflexivity|].
      assert (Hrest : rd = true -> bufferWaits log = []).
      { intros ->. apply Hbo. exact Hrd. }
      split.
      * intros [| i] x Hx Hlast; cbn in Hx.
        -- injection Hx as <-. cbn in Hlast. destruct Hlast as [-> | Hne]; [|congruence].
           rewrite (Hrest eq_refl). reflexivity.
        -- cbn [length]. f_equal. exact (Hlastwait i x Hx Hlast).
      * intros prev rd' b Hlast. destruct (bufferWaits log) as [| y ws] eqn:Hws.
        -- cbn in Hlast. discriminate.
        -- rewrite last_cons_cons in Hlast. exact (Hfail prev rd' b Hlast).
    + destruct Hbuf1 as [Hwaits1 Hsame]. rewrite Hwaits1. cbn [app].
      rewrite Hsame in *. split; [exact Hbo|]. split; [exact Hbo'|].
      split; [exact Hlastwait | exact Hfail].
  - (* the loop is left *)
    cbn [run]. exists st1, w1. eexists. split; [reflexivity|]. rewrite app_nil_r.
    split; [exact Hs1|]. split; [exact Hc1|]. split; [exact Hw1|]. split; [exact Hr1|].
    destruct (buffers gw target inTransaction st) eqn:Hcond.
    + destruct Hbuf1 as (rd & be & Hwaits1 & Hrd & Hbe).
      assert (Hst : bufferedOnce st = false).
      { unfold buffers in Hcond. destruct (bufferedOnce st); [|reflexivity].
        rewrite andb_false_r in Hcond. discriminate. }
      rewrite Hwaits1, Hst. cbn.
      split; [discriminate|]. split; [rewrite Hrd, orb_false_r; reflexivity|].
      split.
      * intros [| i] x Hx _; [reflexivity | discriminate].
      * intros prev rd' b [= <- <- ->]. apply (Hbe b eq_refl).
    + destruct Hbuf1 as [Hwaits1 Hsame]. rewrite Hwaits1. cbn.
      split; [intros Hbo; split; [reflexivity | rewrite Hsame; exact Hbo]|].
      split; [rewrite Hsame, orb_false_r; reflexivity|].
      split; [intros i x Hx; discriminate | discriminate].
Qed.

End Detail.

(** ** What a dispatch calls *)

Lemma attempts_called (log : list Entry) (a : TabletHealth * (bool * error)) :
  a ∈ attempts log ->
  exists (t : Target) (e : Entry), e ∈ log /\ callOf e = CInner t a.1.
Proof.
  induction log as [| e log IH]; [intros Ha; apply elem_of_nil in Ha; contradiction|].
  unfold attempts. cbn. destruct (attemptOf e) as [b|] eqn:He.
  - intros [-> | Ha]%elem_of_cons.
    + destruct e as [[] r]; try discriminate. injection He as <-.
      eexists _, _. split; [left | reflexivity].
    + destruct (IH Ha) as (t & e' & Hin & Hcall). exists t, e'. split; [right; exact Hin | exact Hcall].
  - intros Ha. destruct (IH Ha) as (t & e' & Hin & Hcall).
    exists t, e'. split; [right; exact Hin | exact Hcall].
Qed.

Section Dispatch.
Context `{Ext : Externals}.
Context {W : Type} (h : Handler W) (fl : Flags) (gw : TabletGateway)
  (target : Target) (inTransaction : bool) (w : W).

Lemma withRetry_allowed_calls :
  Forall (fun e => dispatchCall fl gw target inTransaction (callOf e))
    (calls (run h (withRetry fl gw target inTransaction) w)).
Proof. apply (sat_run h _ (fun _ => True)), withRetry_sat. Qed.

(** X1: whatever its collaborators answer, a dispatch only makes calls of the
    interface [dispatchCall]: a call that takes a target, a keyspace or a
    shard is given those of the dispatch; the failover buffer is only
    touched by a non-transactional dispatch on a PRIMARY target through a
    gateway with a buffer, the keyspace event watcher only for a PRIMARY
    target through a gateway with a watcher; the balancer is only asked in
    balancer mode and random numbers are only drawn outside it, with a
    positive bound; inner is only invoked on a tablet that has a
    connection; and the only warning logged is the one about differing
    connection collations. *)
Theorem withRetry_call_interface :
  Forall (fun e => dispatchCall fl gw target inTransaction (callOf e))
    (calls (run h (withRetry fl gw target inTransaction) w)).
Proof. apply (sat_run h _ (fun _ => True)), withRetry_sat. Qed.

(** X2: a dispatch through a gateway without a buffer, a dispatch inside a
    transaction and a dispatch on a target that is not PRIMARY never call
    the failover buffer: no WaitForFailoverEnd and no retryDone. *)
Theorem withRetry_leaves_buffer_alone :
  buffer gw = false \/ inTransaction = true \/ TabletType_ target <> PRIMARY ->
  Forall (fun e => ~ isBufferCall (callOf e))
    (calls (run h (withRetry fl gw target inTransaction) w))
  /\ bufferWaits (calls (run h (withRetry fl gw target inTransaction) w)) = []
  /\ retryDones (calls (run h (withRetry fl gw target inTransaction) w)) = [].
Proof.
  intros Hcond.
  assert (Hall : Forall (fun e => ~ isBufferCall (callOf e))
                   (calls (run h (withRetry fl gw target inTransaction) w))).
  { eapply Forall_impl; [exact withRetry_allowed_calls|].
    intros e Hcall Hbuf. cbn in Hcall.
    destruct Hcall; cbn in Hbuf; try contradiction;
      destruct Hcond as [Hc | [Hc | Hc]]; congruence. }
  split; [exact Hall|].
  induction Hall as [| [c r] log Hc Hall IH]; [split; reflexivity|].
  destruct IH as [IHw IHr]. unfold bufferWaits, retryDones in *. cbn.
  destruct c; cbn in *; try (split; assumption); exfalso; apply Hc; exact I.
Qed.

(** X3: a dispatch through a gateway without a keyspace event watcher, or on
    a target that is not PRIMARY, never asks whether the target is being
    resharded nor whether buffering should start. *)
Theorem withRetry_leaves_watcher_alone :
  kev gw = false \/ TabletType_ target <> PRIMARY ->
  Forall (fun e => ~ isWatcherCall (callOf e))
    (calls (run h (withRetry fl gw target inTransaction) w)).
Proof.
  intros Hcond.
  eapply Forall_impl; [exact withRetry_allowed_calls|].
  intros e Hcall Hwatch. cbn in Hcall.
  destruct Hcall; cbn in Hwatch; try contradiction; destruct Hcond; congruence.
Qed.

(** X4: a dispatch selects its tablets in one way only: in balancer mode it
    draws no random number (shuffleTablets is not run), outside balancer
    mode it never calls the balancer. *)
Theorem withRetry_selects_one_way :
  Forall (fun e => if useBalancer fl target
                   then ~ isRandCall (callOf e)
                   else ~ isBalancerCall (callOf e))
    (calls (run h (withRetry fl gw target inTransaction) w)).
Proof.
  eapply Forall_impl; [exact withRetry_allowed_calls|].
  intros e Hcall. cbn in Hcall.
  destruct Hcall; destruct (useBalancer fl target); cbn; auto; discriminate.
Qed.

(** X5: every attempt of a dispatch is an invocation of inner on the
    dispatch's own target and on a tablet whose connection is not nil. *)
Theorem withRetry_attempts_connected_tablets (a : TabletHealth * (bool * error)) :
  a ∈ attempts (calls (run h (withRetry fl gw target inTransaction) w)) ->
  Conn a.1 <> None
  /\ exists e : Entry,
       e ∈ calls (run h (withRetry fl gw target inTransaction) w)
       /\ callOf e = CInner target a.1.
Proof.
  intros Ha. destruct (attempts_called _ a Ha) as (t & e & Hin & Hcall).
  pose proof withRetry_allowed_calls as Hall.
  rewrite Forall_forall in Hall. specialize (Hall e Hin). cbn in Hall.
  rewrite Hcall in Hall. inversion Hall; subst.
  split; [assumption|]. exists e. split; [exact Hin | exact Hcall].
Qed.

(** Both pre-flight checks pass. *)
Lemma preflight_passes :
  inTransaction = false \/ TabletType_ target = PRIMARY ->
  AllowedTabletTypes fl = [] \/ TabletType_ target ∈ AllowedTabletTypes fl ->
  inTransaction && negb (bool_decide (TabletType_ target = PRIMARY)) = false
  /\ bool_decide (0 < length (AllowedTabletTypes fl))%nat
     && negb (bool_decide (TabletType_ target ∈ AllowedTabletTypes fl)) = false.
Proof.
  intros Hpre1 Hpre2. split.
  - destruct Hpre1 as [-> | ->]; [reflexivity|].
    rewrite bool_decide_eq_true_2 by reflexivity. apply andb_false_r.
  - destruct Hpre2 as [-> | Hin]; [reflexivity|].
    rewrite (bool_decide_eq_true_2 _ Hin). apply andb_false_r.
Qed.

(** X6: when retryCount+1 is not positive (a retry count of -1 or below), a
    dispatch that passes the two pre-flight checks runs no iteration: it
    calls nobody, leaves the gateway as it is and returns nil. *)
Theorem withRetry_without_iterations :
  retryLimit gw <= 0 ->
  inTransaction = false \/ TabletType_ target = PRIMARY ->
  AllowedTabletTypes fl = [] \/ TabletType_ target ∈ AllowedTabletTypes fl ->
  run h (withRetry fl gw target inTransaction) w = (Some (gw, None), w, []).
Proof.
  intros Hlimit Hpre1 Hpre2. destruct (preflight_passes Hpre1 Hpre2) as [H1 H2].
  unfold withRetry. rewrite H1, H2.
  replace (Z.to_nat (retryLimit gw)) with 0%nat by lia.
  destruct gw; reflexivity.
Qed.

(** X7: for a target that is not PRIMARY, or through a gateway with neither
    watcher nor buffer, a dispatch whose first candidate lookup comes back
    empty fails fast: that lookup is its only call, and it returns
    UNAVAILABLE "no healthy tablet available" decorated with the target,
    however many retries are configured. *)
Theorem withRetry_fails_fast_without_tablets :
  0 < retryLimit gw ->
  inTransaction = false \/ TabletType_ target = PRIMARY ->
  AllowedTabletTypes fl = [] \/ TabletType_ target ∈ AllowedTabletTypes fl ->
  TabletType_ target <> PRIMARY \/ (kev gw = false /\ buffer gw = false) ->
  (h (CGetHealthyTabletStats target) w).1 = [] ->
  run h (withRetry fl gw target inTransaction) w =
    (Some (gw, NewShardError
                 (Some (Errorf Code_UNAVAILABLE "no healthy tablet available for '%s'"
                          [ATarget target])) (Some target)),
     (h (CGetHealthyTabletStats target) w).2,
     [entry (CGetHealthyTabletStats target) []]).
Proof.
  intros Hlimit Hpre1 Hpre2 Hplain Hempty.
  destruct (preflight_passes Hpre1 Hpre2) as [H1 H2].
  unfold withRetry. rewrite H1, H2.
  destruct (Z.to_nat (retryLimit gw)) as [| n] eqn:Hn; [lia|].
  assert (Hbuf : buffers gw target inTransaction (loopStart gw) = false).
  { unfold buffers. destruct Hplain as [Hty | [_ ->]]; [|reflexivity].
    rewrite (bool_decide_eq_false_2 _ Hty). apply andb_false_r. }
  assert (Hkev : kev gw && bool_decide (TabletType_ target = PRIMARY) = false).
  { destruct Hplain as [Hty | [-> _]]; [|reflexivity].
    rewrite (bool_decide_eq_false_2 _ Hty). apply andb_false_r. }
  unfold mbind, Prog_bind. cbn [retryLoop]. unfold mbind, Prog_bind, iteration, mbind, Prog_bind.
  unfold bufferCheck. fold (buffers gw target inTransaction (loopStart gw)). rewrite Hbuf.
  cbn [bind run]. destruct (h (CGetHealthyTabletStats target) w) as [found w1].
  cbn in Hempty. subst found. cbn [length]. rewrite bool_decide_eq_true_2 by reflexivity.
  unfold noTablets. rewrite Hkev. cbn. destruct gw; reflexivity.
Qed.

Lemma withRetry_finish (st : LoopState) (w1 : W) (log : list Entry) :
  inTransaction = false \/ TabletType_ target = PRIMARY ->
  AllowedTabletTypes fl = [] \/ TabletType_ target ∈ AllowedTabletTypes fl ->
  run h (retryLoop fl gw target inTransaction (Z.to_nat (retryLimit gw)) (loopStart gw)) w
    = (Some st, w1, log) ->
  exists w2 : W,
    run h (withRetry fl gw target inTransaction) w =
      (Some (set_defaultConnCollation (collation st) gw,
             NewShardError (err st) (Some target)), w2,
       log ++ (if bufferedOnce st then [entry CRetryDone tt] else [])).
Proof.
  intros Hpre1 Hpre2 Hloop. destruct (preflight_passes Hpre1 Hpre2) as [H1 H2].
  unfold withRetry, mbind, Prog_bind. rewrite H1, H2.
  rewrite run_bind, Hloop, run_bind. destruct (bufferedOnce st).
  - cbn [run]. destruct (h CRetryDone w1) as [[] w2]. exists w2. reflexivity.
  - cbn [run]. exists w1. reflexivity.
Qed.

(** A dispatch stopped by a pre-flight check calls nobody and leaves the
    gateway as it is. *)
Lemma withRetry_stopped :
  ~ ((inTransaction = false \/ TabletType_ target = PRIMARY)
     /\ (AllowedTabletTypes fl = [] \/ TabletType_ target ∈ AllowedTabletTypes fl)) ->
  exists e : Error,
    run h (withRetry fl gw target inTransaction) w = (Some (gw, Some e), w, []).
Proof.
  intros Hstop. unfold withRetry.
  destruct (inTransaction && negb (bool_decide (TabletType_ target = PRIMARY))) eqn:H1;
    [eexists; reflexivity|].
  destruct (bool_decide (0 < length (AllowedTabletTypes fl))%nat
            && negb (bool_decide (TabletType_ target ∈ AllowedTabletTypes fl))) eqn:H2;
    [eexists; reflexivity|].
  exfalso. apply Hstop. split.
  - destruct inTransaction; [|left; reflexivity]. right.
    cbn in H1. apply negb_false_iff, bool_decide_eq_true in H1. exact H1.
  - destruct (AllowedTabletTypes fl) as [| t l] eqn:Hl; [left; reflexivity|]. right.
    rewrite bool_decide_eq_true_2 in H2 by (cbn; lia).
    cbn in H2. apply negb_false_iff, bool_decide_eq_true in H2. exact H2.
Qed.

Lemma preflight_dec :
  {(inTransaction = false \/ TabletType_ target = PRIMARY)
   /\ (AllowedTabletTypes fl = [] \/ TabletType_ target ∈ AllowedTabletTypes fl)}
  + {~ ((inTransaction = false \/ TabletType_ target = PRIMARY)
        /\ (AllowedTabletTypes fl = [] \/ TabletType_ target ∈ AllowedTabletTypes fl))}.
Proof.
  destruct (decide (inTransaction = false \/ TabletType_ target = PRIMARY));
    destruct (decide (AllowedTabletTypes fl = [] \/ TabletType_ target ∈ AllowedTabletTypes fl));
    first [left; split; assumption | right; intros [? ?]; contradiction].
Qed.

(** X8: updateStats is called exactly once per attempt, in the order of the
    attempts, and is told of a failure exactly when the attempt came back
    with a non-nil error. *)
Theorem withRetry_records_every_attempt :
  rng_ok h ->
  stats (calls (run h (withRetry fl gw target inTransaction) w))
  = failed <$> attempts (calls (run h (withRetry fl gw target inTransaction) w)).
Proof.
  intros Hrng.
  destruct preflight_dec as [[Hpre1 Hpre2] | Hstop].
  2:{ destruct (withRetry_stopped Hstop) as [e ->]. reflexivity. }
  destruct (retryLoop_detail h fl gw target inTransaction Hrng
              (Z.to_nat (retryLimit gw)) (loopStart gw) w)
    as (st & w1 & log & Hloop & Hstats & _).
  destruct (withRetry_finish st w1 log Hpre1 Hpre2 Hloop) as [w2 ->].
  unfold calls; cbn [snd]. rewrite stats_app, attempts_app, Hstats.
  destruct (bufferedOnce st); cbn; rewrite !app_nil_r; reflexivity.
Qed.

(** X9: the connection collation a dispatch leaves in the gateway is the one
    obtained by running updateDefaultConnCollation over the tablets it
    attempted, in order, from the collation stored before; the warnings it
    logs are exactly those of these updates.  Tablets that were picked but
    had no connection do not take part. *)
Theorem withRetry_updates_collation :
  rng_ok h ->
  exists e : error,
    result (run h (withRetry fl gw target inTransaction) w)
    = Some (set_defaultConnCollation
              (updateAll (defaultConnCollation gw)
                 (attemptedTablets (calls (run h (withRetry fl gw target inTransaction) w)))).1
              gw, e)
    /\ warnings (calls (run h (withRetry fl gw target inTransaction) w))
       = collationWarnings
           (updateAll (defaultConnCollation gw)
              (attemptedTablets (calls (run h (withRetry fl gw target inTransaction) w)))).2.
Proof.
  intros Hrng.
  destruct preflight_dec as [[Hpre1 Hpre2] | Hstop].
  2:{ destruct (withRetry_stopped Hstop) as [e ->]. exists (Some e).
      split; [destruct gw; reflexivity | reflexivity]. }
  destruct (retryLoop_detail h fl gw target inTransaction Hrng
              (Z.to_nat (retryLimit gw)) (loopStart gw) w)
    as (st & w1 & log & Hloop & _ & Hcoll & Hwarn & _).
  destruct (withRetry_finish st w1 log Hpre1 Hpre2 Hloop) as [w2 ->].
  unfold calls, result; cbn [fst snd].
  assert (Hsame : attemptedTablets (log ++ (if bufferedOnce st then [entry CRetryDone ()] else []))
                  = attemptedTablets log).
  { rewrite attemptedTablets_app. destruct (bufferedOnce st); cbn; apply app_nil_r. }
  rewrite Hsame, warnings_app, Hwarn, Hcoll. eexists. split; [reflexivity|].
  destruct (bufferedOnce st); cbn; rewrite app_nil_r; reflexivity.
Qed.

(** X10: a buffer wait that hands back a retryDone, or that fails, is the
    last buffer wait of the dispatch; retryDone is invoked exactly once if
    some wait handed one back and not at all otherwise; and when it is
    invoked, it is the last call of the dispatch (it is deferred). *)
Theorem withRetry_buffers_once :
  rng_ok h ->
  (forall (i : nat) (x : error * (bool * error)),
     bufferWaits (calls (run h (withRetry fl gw target inTransaction) w)) !! i = Some x ->
     x.2.1 = true \/ x.2.2 <> None ->
     S i = length (bufferWaits (calls (run h (withRetry fl gw target inTransaction) w))))
  /\ retryDones (calls (run h (withRetry fl gw target inTransaction) w))
     = (if existsb (fun x => x.2.1)
             (bufferWaits (calls (run h (withRetry fl gw target inTransaction) w)))
        then [tt] else [])
  /\ (retryDones (calls (run h (withRetry fl gw target inTransaction) w)) <> [] ->
      last (calls (run h (withRetry fl gw target inTransaction) w))
      = Some (entry CRetryDone tt)).
Proof.
  intros Hrng.
  destruct preflight_dec as [[Hpre1 Hpre2] | Hstop].
  2:{ destruct (withRetry_stopped Hstop) as [e ->]. cbn.
      split; [intros i x Hx; discriminate|]. split; [reflexivity | congruence]. }
  destruct (retryLoop_detail h fl gw target inTransaction Hrng
              (Z.to_nat (retryLimit gw)) (loopStart gw) w)
    as (st & w1 & log & Hloop & _ & _ & _ & Hdone & _ & Hbo & Hlastwait & _).
  destruct (withRetry_finish st w1 log Hpre1 Hpre2 Hloop) as [w2 ->].
  unfold calls; cbn [snd]. cbn [bufferedOnce loopStart orb] in Hbo.
  assert (Hsame : bufferWaits (log ++ (if bufferedOnce st then [entry CRetryDone ()] else []))
                  = bufferWaits log).
  { rewrite bufferWaits_app. destruct (bufferedOnce st); cbn; apply app_nil_r. }
  rewrite Hsame, retryDones_app, Hdone, <- Hbo.
  split; [exact Hlastwait|].
  destruct (bufferedOnce st); cbn.
  - split; [reflexivity|]. intros _. apply last_snoc.
  - split; [reflexivity | congruence].
Qed.

(** X11: a buffer wait that answers an error ends the dispatch: it is the
    last wait, and the dispatch returns that error, wrapped with the error
    of the iteration before as the original error and decorated with the
    target. *)
Theorem withRetry_buffer_failure_is_final (prev : error) (rd : bool) (b : Error) :
  rng_ok h ->
  (prev, (rd, Some b)) ∈ bufferWaits (calls (run h (withRetry fl gw target inTransaction) w)) ->
  last (bufferWaits (calls (run h (withRetry fl gw target inTransaction) w)))
    = Some (prev, (rd, Some b))
  /\ returned (run h (withRetry fl gw target inTransaction) w)
     = Some (NewShardError (Some (bufferFailure b prev)) (Some target)).
Proof.
  intros Hrng.
  destruct preflight_dec as [[Hpre1 Hpre2] | Hstop].
  2:{ destruct (withRetry_stopped Hstop) as [e ->]. cbn.
      intros Hin. apply elem_of_nil in Hin. contradiction. }
  destruct (retryLoop_detail h fl gw target inTransaction Hrng
              (Z.to_nat (retryLimit gw)) (loopStart gw) w)
    as (st & w1 & log & Hloop & _ & _ & _ & _ & _ & _ & Hlastwait & Hfail).
  destruct (withRetry_finish st w1 log Hpre1 Hpre2 Hloop) as [w2 ->].
  unfold calls, returned, result; cbn [fst snd fmap option_fmap option_map].
  assert (Hsame : bufferWaits (log ++ (if bufferedOnce st then [entry CRetryDone ()] else []))
                  = bufferWaits log).
  { rewrite bufferWaits_app. destruct (bufferedOnce st); cbn; apply app_nil_r. }
  rewrite Hsame. intros [i Hi]%list_elem_of_lookup.
  assert (Hlen : S i = length (bufferWaits log)).
  { apply (Hlastwait i _ Hi). right. discriminate. }
  assert (Hlast : last (bufferWaits log) = Some (prev, (rd, Some b))).
  { rewrite last_lookup. rewrite <- Hlen. exact Hi. }
  split; [exact Hlast|]. rewrite (Hfail prev rd b Hlast). reflexivity.
Qed.

(** The loop up to an attempt that may not be retried. *)
Lemma retryLoop_terminal (n : nat) (st : LoopState) (v : W) :
  rng_ok h ->
  exists (st' : LoopState) (v' : W) (log : list Entry),
    run h (retryLoop fl gw target inTransaction n st) v = (Some st', v', log)
    /\ forall (i : nat) (a : TabletHealth * (bool * error)),
         attempts log !! i = Some a -> a.2.1 = false ->
         S i = length (attempts log) /\ err st' = a.2.2.
Proof.
  intros Hrng.
  revert st v. induction n as [| n IH]; intros st v.
  { exists st, v, []. split; [reflexivity|]. intros i a Ha. discriminate. }
  cbn [retryLoop]. unfold mbind, Prog_bind. rewrite run_bind.
  destruct (iteration_outcome h fl gw target inTransaction Hrng st v)
    as (ctl & st1 & v1 & log1 & -> & _ & Hout).
  assert (Hquiet : attempts log1 = [] ->
    exists (st' : LoopState) (v' : W) (log : list Entry),
      (let '(b, w2, log2) :=
         run h (let '(ctl0, st0) := (ctl, st1) in
                match ctl0 with
                | Continue => retryLoop fl gw target inTransaction n st0
                | Break => Ret st0
                end) v1 in (b, w2, log1 ++ log2)) = (Some st', v', log)
      /\ forall (i : nat) (a : TabletHealth * (bool * error)),
           attempts log !! i = Some a -> a.2.1 = false ->
           S i = length (attempts log) /\ err st' = a.2.2).
  { intros Hatt. destruct ctl.
    - destruct (IH st1 v1) as (st' & v' & log & -> & Hterm).
      exists st', v'. eexists. split; [reflexivity|].
      rewrite attempts_app, Hatt. exact Hterm.
    - cbn [run]. exists st1, v1. eexists. split; [reflexivity|].
      rewrite attempts_app, Hatt. intros i a Ha. discriminate. }
  destruct Hout as [ks sh prev v0 be Hbe Hctl Hatt Hlook Hinv
                   | v0 Hfound Hatt Hlook Hinv
                   | Hctl Hatt Hlook Hinv Herr
                   | v0 th Hin Hconn Hctl Hatt Hlook Hinv
                   | v0 v0' th canRetry e Hin Hvalid Hh Hatt Hlook Herr Hctl Hinv];
    try (apply Hquiet; exact Hatt).
  subst ctl. destruct canRetry.
  - destruct (IH st1 v1) as (st' & v' & log & -> & Hterm).
    exists st', v'. eexists. split; [reflexivity|].
    rewrite attempts_app, Hatt. intros [| i] a Ha Hfalse; cbn in Ha.
    + injection Ha as <-. discriminate.
    + destruct (Hterm i a Ha Hfalse) as [Hlen Herr']. split; [cbn; lia | exact Herr'].
  - cbn [run]. exists st1, v1. eexists. split; [reflexivity|].
    rewrite attempts_app, Hatt. intros [| i] a Ha _; cbn in Ha; [|discriminate].
    injection Ha as <-. split; [reflexivity | exact Herr].
Qed.

(** X12: an attempt that answers canRetry = false is the last attempt of the
    dispatch, and the dispatch returns that attempt's error decorated with
    the target (nil if the attempt succeeded). *)
Theorem withRetry_stops_at_terminal_attempt (i : nat) (a : TabletHealth * (bool * error)) :
  rng_ok h ->
  attempts (calls (run h (withRetry fl gw target inTransaction) w)) !! i = Some a ->
  a.2.1 = false ->
  S i = length (attempts (calls (run h (withRetry fl gw target inTransaction) w)))
  /\ returned (run h (withRetry fl gw target inTransaction) w)
     = Some (NewShardError a.2.2 (Some target)).
Proof.
  intros Hrng.
  destruct preflight_dec as [[Hpre1 Hpre2] | Hstop].
  2:{ destruct (withRetry_stopped Hstop) as [e ->]. discriminate. }
  destruct (retryLoop_terminal (Z.to_nat (retryLimit gw)) (loopStart gw) w Hrng)
    as (st & w1 & log & Hloop & Hterm).
  destruct (withRetry_finish st w1 log Hpre1 Hpre2 Hloop) as [w2 ->].
  unfold calls, returned, result; cbn [fst snd fmap option_fmap option_map].
  assert (Hsame : attempts (log ++ (if bufferedOnce st then [entry CRetryDone ()] else []))
                  = attempts log).
  { rewrite attempts_app. destruct (bufferedOnce st); cbn; apply app_nil_r. }
  rewrite Hsame. intros Ha Hfalse. destruct (Hterm i a Ha Hfalse) as [Hlen Herr].
  split; [exact Hlen|]. rewrite Herr. reflexivity.
Qed.

(** X13: whatever the health check, the buffer, the watcher and inner answer
    (the random source and the balancer within their contracts), a dispatch
    returns: it never panics; it waits on the buffer, looks up candidates
    and attempts at most retryCount+1 times each (not at all when that is
    not positive); and it never attempts the same tablet alias twice. *)
Theorem withRetry_always_returns :
  rng_ok h ->
  pick_ok h ->
  exists (gw' : TabletGateway) (returnedErr : error),
    result (run h (withRetry fl gw target inTransaction) w) = Some (gw', returnedErr)
    /\ NoDup (attempted (calls (run h (withRetry fl gw target inTransaction) w)))
    /\ (length (waits (calls (run h (withRetry fl gw target inTransaction) w)))
        <= Z.to_nat (retryLimit gw))%nat
    /\ (length (lookups (calls (run h (withRetry fl gw target inTransaction) w)))
        <= Z.to_nat (retryLimit gw))%nat
    /\ (length (attempts (calls (run h (withRetry fl gw target inTransaction) w)))
        <= Z.to_nat (retryLimit gw))%nat.
Proof.
  intros Hrng.
  intros Hpick. destruct preflight_dec as [[Hpre1 Hpre2] | Hstop].
  2:{ destruct (withRetry_stopped Hstop) as [e ->]. eexists _, _.
      split; [reflexivity|]. unfold calls; cbn.
      split; [constructor|]. repeat split; lia. }
  destruct (retryLoop_fresh h fl gw target inTransaction Hrng
              (Z.to_nat (retryLimit gw)) (loopStart gw) w Hpick)
    as (st & w1 & log & Hloop & Hwaits & Hlookups & Hattempts & Hnodup & _).
  destruct (withRetry_finish st w1 log Hpre1 Hpre2 Hloop) as [w2 ->].
  eexists _, _. split; [reflexivity|]. unfold calls; cbn [snd].
  assert (Hsame : attempts (log ++ (if bufferedOnce st then [entry CRetryDone ()] else []))
                  = attempts log
                  /\ lookups (log ++ (if bufferedOnce st then [entry CRetryDone ()] else []))
                     = lookups log
                  /\ waits (log ++ (if bufferedOnce st then [entry CRetryDone ()] else []))
                     = waits log).
  { rewrite attempts_app, lookups_app, waits_app.
    destruct (bufferedOnce st); cbn; rewrite !app_nil_r; repeat split. }
  destruct Hsame as (Ha & Hl & Hw). unfold attempted. rewrite Ha, Hl, Hw.
  split; [exact Hnodup|]. repeat split; assumption.
Qed.

Lemma retryLoop_resharding (n : nat) (st : LoopState) (v : W) :
  TabletType_ target = PRIMARY ->
  kev gw = true ->
  (forall v : W, (h (CGetHealthyTabletStats target) v).1 = []) ->
  (forall v : W, (h (CTargetIsBeingResharded target) v).1 = true) ->
  (forall (keyspace shard : string) (prev : error) (v : W),
     (h (CWaitForFailoverEnd keyspace shard prev) v).1.2 = None) ->
  exists (st' : LoopState) (v' : W) (log : list Entry),
    run h (retryLoop fl gw target inTransaction n st) v = (Some st', v', log)
    /\ attempts log = []
    /\ length (lookups log) = n
    /\ err st' = match n with
                 | O => err st
                 | S _ => Some (Errorf Code_CLUSTER_EVENT ClusterEventReshardingInProgress [])
                 end.
Proof.
  intros Hprimary Hkev Hempty Hresharding Hbuffer.
  revert st v. induction n as [| n IH]; intros st v.
  { exists st, v, []. split; [reflexivity|]. split; [reflexivity|]. split; reflexivity. }
  cbn [retryLoop]. unfold mbind, Prog_bind, iteration, mbind, Prog_bind.
  rewrite !run_bind.
  destruct (bufferCheck_run h gw target inTransaction st v)
    as (checked & vb & logb & -> & Hba & Hbl & _ & Hchecked).
  destruct checked as [stb | stb].
  { destruct Hchecked as (_ & ks & sh & prev & v0 & be & Hbe).
    rewrite Hbuffer in Hbe. discriminate. }
  cbn [run]. pose proof (Hempty vb) as Hfound.
  destruct (h (CGetHealthyTabletStats target) vb) as [found v0]. cbn in Hfound. subst found.
  cbn [length]. rewrite bool_decide_eq_true_2 by reflexivity.
  unfold noTablets. rewrite Hkev, Hprimary. rewrite bool_decide_eq_true_2 by reflexivity.
  cbn [andb run]. pose proof (Hresharding v0) as Hres.
  destruct (h (CTargetIsBeingResharded target) v0) as [resharded v1]. cbn in Hres.
  subst resharded. cbn [run].
  destruct (IH (set_err (Some (Errorf Code_CLUSTER_EVENT ClusterEventReshardingInProgress []))
                  stb) v1)
    as (st' & v' & log & -> & Hatt & Hlook & Herr).
  exists st', v'. eexists. split; [reflexivity|].
  rewrite !attempts_app, !lookups_app, Hba, Hbl, !length_app. cbn.
  fold (attempts log). fold (lookups log). rewrite Hatt, Hlook.
  split; [reflexivity|]. split; [reflexivity|].
  rewrite Herr. destruct n; reflexivity.
Qed.

(** X14: a PRIMARY dispatch through a gateway with a watcher that finds no
    healthy tablet while the watcher reports a resharding, and whose buffer
    never fails, keeps retrying: it looks up candidates exactly retryCount+1
    times, attempts nothing, and returns CLUSTER_EVENT with the resharding
    reason, decorated with the target. *)
Theorem withRetry_reports_resharding :
  TabletType_ target = PRIMARY ->
  kev gw = true ->
  (forall v : W, (h (CGetHealthyTabletStats target) v).1 = []) ->
  (forall v : W, (h (CTargetIsBeingResharded target) v).1 = true) ->
  (forall (keyspace shard : string) (prev : error) (v : W),
     (h (CWaitForFailoverEnd keyspace shard prev) v).1.2 = None) ->
  0 < retryLimit gw ->
  AllowedTabletTypes fl = [] \/ TabletType_ target ∈ AllowedTabletTypes fl ->
  returned (run h (withRetry fl gw target inTransaction) w)
    = Some (NewShardError
              (Some (Errorf Code_CLUSTER_EVENT ClusterEventReshardingInProgress []))
              (Some target))
  /\ length (lookups (calls (run h (withRetry fl gw target inTransaction) w)))
     = Z.to_nat (retryLimit gw)
  /\ attempts (calls (run h (withRetry fl gw target inTransaction) w)) = [].
Proof.
  intros Hprimary Hkev Hempty Hresharding Hbuffer.
  intros Hlimit Hpre2.
  destruct (retryLoop_resharding (Z.to_nat (retryLimit gw)) (loopStart gw) w
              Hprimary Hkev Hempty Hresharding Hbuffer)
    as (st & w1 & log & Hloop & Hatt & Hlook & Herr).
  destruct (withRetry_finish st w1 log (or_intror Hprimary) Hpre2 Hloop) as [w2 ->].
  unfold calls, returned, result; cbn [fst snd fmap option_fmap option_map].
  rewrite attempts_app, lookups_app, Hatt, Herr, length_app, Hlook.
  destruct (Z.to_nat (retryLimit gw)) as [| n] eqn:Hn; [lia|].
  split; [reflexivity|].
  destruct (bufferedOnce st); cbn; split; try reflexivity; lia.
Qed.

(** X15: outside balancer mode the selection returns nil exactly when every
    candidate was tried before; a tablet it returns is a candidate that was
    not tried before; and it returns a tablet of the local cell whenever
    some candidate of the local cell was not tried before. *)
Theorem pickTablet_shuffle_choice (st : LoopState) (l : list TabletHealth) (v : W) :
  rng_ok h ->
  useBalancer fl target = false ->
  exists picked : option TabletHealth,
    result (run h (pickTablet fl gw target st l) v) = Some picked
    /\ (picked = None <-> forall c : TabletHealth, c ∈ l -> isInvalid st c = true)
    /\ (forall p : TabletHealth, picked = Some p -> p ∈ l /\ isInvalid st p = false)
    /\ ((exists c : TabletHealth,
           c ∈ l /\ sameCell (localCell gw) c /\ isInvalid st c = false) ->
        exists p : TabletHealth, picked = Some p /\ sameCell (localCell gw) p).
Proof.
  intros Hrng.
  intros Hmode.
  destruct (pickTablet_shuffled h fl gw target Hrng st l v Hmode)
    as (l' & v' & log & -> & Hperm & _ & _ & _ & Hsorted).
  eexists. split; [reflexivity|]. split; [|split].
  - rewrite find_none_iff. split; intros Hall c Hc.
    + rewrite <- Hperm in Hc. apply negb_false_iff, Hall, Hc.
    + rewrite Hperm in Hc. apply negb_false_iff, Hall, Hc.
  - intros p Hp. apply find_some in Hp as [Hin Hvalid].
    split; [rewrite <- Hperm; apply list_elem_of_In; exact Hin|].
    apply negb_true_iff. exact Hvalid.
  - intros (c & Hc & Hlocal & Hvalid). rewrite <- Hperm in Hc.
    exact (find_valid_local gw st l' c Hsorted Hc Hlocal Hvalid).
Qed.

(** X16: in balancer mode an iteration hands the balancer exactly the
    candidates of its one lookup that were not tried before, in the order
    the health check reported them. *)
Theorem iteration_filters_balancer_candidates (st : LoopState) (v : W)
    (l : list TabletHealth) :
  rng_ok h ->
  useBalancer fl target = true ->
  l ∈ picks (calls (run h (iteration fl gw target inTransaction st) v)) ->
  exists found : list TabletHealth,
    lookups (calls (run h (iteration fl gw target inTransaction st) v)) = [found]
    /\ l = List.filter (fun t => negb (isInvalid st t)) found
    /\ (forall c : TabletHealth, c ∈ l -> c ∈ found /\ invalidTablets st !! aliasOf c = None).
Proof.
  intros Hrng.
  intros Hmode.
  destruct (iteration_detail h fl gw target inTransaction Hrng st v)
    as (ctl & st1 & v1 & log & -> & _ & _ & _ & _ & _ & _ & _ & _ & Hbal).
  unfold calls; cbn [snd]. intros Hl.
  destruct (Hbal Hmode l Hl) as (found & Hlook & ->).
  exists found. split; [exact Hlook|]. split; [reflexivity|].
  intros c [Hc Hvalid]%list_elem_of_In%filter_In.
  split; [apply list_elem_of_In; exact Hc|].
  unfold isInvalid in Hvalid. apply negb_true_iff, bool_decide_eq_false in Hvalid.
  apply eq_None_not_Some. exact Hvalid.
Qed.

Lemma run_lookups_answered {A : Type} (p : Prog A) (v : W) (found : list TabletHealth) :
  found ∈ lookups (calls (run h p v)) ->
  exists (t : Target) (v0 : W), found = (h (CGetHealthyTabletStats t) v0).1.
Proof.
  revert v. induction p as [a | | c k IH]; intros v; cbn.
  - intros Hin. apply elem_of_nil in Hin. contradiction.
  - intros Hin. apply elem_of_nil in Hin. contradiction.
  - destruct (h c v) as [r v1] eqn:Hh. specialize (IH r v1).
    destruct (run h (k r) v1) as [[a v2] log]. unfold calls, lookups in *; cbn in *.
    destruct c; cbn; try exact IH.
    intros [-> | Hin]%elem_of_cons; [|exact (IH Hin)].
    eexists _, v. rewrite Hh. reflexivity.
Qed.

Lemma retryLoop_local (n : nat) (st : LoopState) (v : W) (cands : list TabletHealth) :
  rng_ok h ->
  (forall (t : Target) (v : W), (h (CGetHealthyTabletStats t) v).1 = cands) ->
  useBalancer fl target = false ->
  exists (st' : LoopState) (v' : W) (log : list Entry),
    run h (retryLoop fl gw target inTransaction n st) v = (Some st', v', log)
    /\ ((forall c : TabletHealth,
           c ∈ cands -> sameCell (localCell gw) c -> isInvalid st c = true) ->
        forall a, a ∈ attempts log -> ~ sameCell (localCell gw) a.1)
    /\ (forall (i j : nat) (ai aj : TabletHealth * (bool * error)),
          attempts log !! i = Some ai -> attempts log !! j = Some aj -> (i < j)%nat ->
          sameCell (localCell gw) aj.1 -> sameCell (localCell gw) ai.1).
Proof.
  intros Hrng Hfixed Hmode.
  revert st v. induction n as [| n IH]; intros st v.
  { exists st, v, []. split; [reflexivity|]. split.
    - intros _ a Ha. apply elem_of_nil in Ha. contradiction.
    - intros i j ai aj Hi. discriminate. }
  cbn [retryLoop]. unfold mbind, Prog_bind. rewrite run_bind.
  pose proof (fun found => run_lookups_answered
                (iteration fl gw target inTransaction st) v found) as Hanswered.
  destruct (iteration_detail h fl gw target inTransaction Hrng st v)
    as (ctl & st1 & v1 & log1 & Hrun & _ & _ & _ & _ & Hlen1 & Hmono & _ & Hshuf & _).
  rewrite Hrun in Hanswered |- *. unfold calls in Hanswered; cbn [snd] in Hanswered.
  destruct (Hshuf Hmode) as [_ Hpicked]. clear Hshuf.
  assert (Hone : forall a, a ∈ attempts log1 ->
            a.1 ∈ cands /\ isInvalid st a.1 = false
            /\ (~ sameCell (localCell gw) a.1 ->
                forall c : TabletHealth, c ∈ cands -> sameCell (localCell gw) c ->
                isInvalid st c = true)).
  { intros a Ha. destruct (Hpicked a Ha) as (found & Hlook & Hin & Hvalid & Hlocal).
    destruct (Hanswered found) as (t & v0 & Hfound); [rewrite Hlook; left|].
    rewrite Hfixed in Hfound. subst found. auto. }
  assert (Hfirst : (forall c : TabletHealth,
                      c ∈ cands -> sameCell (localCell gw) c -> isInvalid st c = true) ->
                   forall a, a ∈ attempts log1 -> ~ sameCell (localCell gw) a.1).
  { intros Htried a Ha Hlocal. destruct (Hone a Ha) as (Hin & Hvalid & _).
    rewrite (Htried a.1 Hin Hlocal) in Hvalid. discriminate. }
  destruct ctl.
  - destruct (IH st1 v1) as (st' & v' & log & -> & Hrest & Hsorted).
    exists st', v'. eexists. split; [reflexivity|]. rewrite attempts_app. split.
    + intros Htried a [Ha | Ha]%elem_of_app; [exact (Hfirst Htried a Ha)|].
      apply Hrest; [|exact Ha]. intros c Hc Hlocal. apply Hmono, Htried; assumption.
    + destruct (attempts log1) as [| a1 [| a2 more]] eqn:Hatt; [exact Hsorted | | cbn in Hlen1; lia].
      intros [| i] [| j] ai aj Hi Hj Hlt Hlocal; cbn in Hi, Hj; try lia.
      * injection Hi as <-.
        destruct (decide (Cell (Alias (Tablet_ a1.1)) = localCell gw)) as [Hs | Hns];
          [exact Hs|]. exfalso.
        destruct (Hone a1) as (_ & _ & Htried); [left|].
        apply (Hrest (fun c Hc Hl => Hmono c (Htried Hns c Hc Hl)) aj); [|exact Hlocal].
        apply list_elem_of_lookup. exists j. exact Hj.
      * apply (Hsorted i j ai aj Hi Hj); [lia | exact Hlocal].
  - cbn [run]. exists st1, v1. eexists. split; [reflexivity|]. rewrite app_nil_r.
    split; [exact Hfirst|].
    destruct (attempts log1) as [| a1 [| a2 more]]; [| | cbn in Hlen1; lia].
    + intros i j ai aj Hi. discriminate.
    + intros [| i] [| j] ai aj Hi Hj Hlt; cbn in Hi, Hj; try lia; discriminate.
Qed.

(** X17: outside balancer mode and with a health view that keeps reporting
    the same candidates, a dispatch tries tablets of the local cell first:
    once it has attempted a tablet of another cell it does not attempt a
    tablet of the local cell any more. *)
Theorem withRetry_tries_local_cell_first (i j : nat) (ai aj : TabletHealth * (bool * error)) (cands : list TabletHealth) :
  rng_ok h ->
  (forall (t : Target) (v : W), (h (CGetHealthyTabletStats t) v).1 = cands) ->
  useBalancer fl target = false ->
  attempts (calls (run h (withRetry fl gw target inTransaction) w)) !! i = Some ai ->
  attempts (calls (run h (withRetry fl gw target inTransaction) w)) !! j = Some aj ->
  (i < j)%nat ->
  sameCell (localCell gw) aj.1 -> sameCell (localCell gw) ai.1.
Proof.
  intros Hrng Hfixed Hmode.
  destruct preflight_dec as [[Hpre1 Hpre2] | Hstop].
  2:{ destruct (withRetry_stopped Hstop) as [e ->]. discriminate. }
  destruct (retryLoop_local (Z.to_nat (retryLimit gw)) (loopStart gw) w cands Hrng Hfixed Hmode)
    as (st & w1 & log & Hloop & _ & Hsorted).
  destruct (withRetry_finish st w1 log Hpre1 Hpre2 Hloop) as [w2 ->].
  unfold calls; cbn [snd].
  assert (Hsame : attempts (log ++ (if bufferedOnce st then [entry CRetryDone ()] else []))
                  = attempts log).
  { rewrite attempts_app. destruct (bufferedOnce st); cbn; apply app_nil_r. }
  rewrite Hsame. apply Hsorted.
Qed.

End Dispatch.

(** ** Waiting for tablets *)

Section Waiting.
Context `{Ext : Externals} {W : Type} (h : Handler W).
Context (gw : TabletGateway) (tabletTypesToWait : list TabletType) (w : W).

(** X18: WaitForTablets always returns, and never returns
    context.DeadlineExceeded; it returns nil exactly when its wait ended
    without error or with DeadlineExceeded; and it logs its warning exactly
    when the wait ended with DeadlineExceeded. *)
Theorem WaitForTablets_never_times_out :
  exists r : error,
    result (run h (WaitForTablets gw tabletTypesToWait) w) = Some r
    /\ r <> Some DeadlineExceeded
    /\ (r = None <->
        waitError (calls (run h (WaitForTablets gw tabletTypesToWait) w)) = None
        \/ waitError (calls (run h (WaitForTablets gw tabletTypesToWait) w))
           = Some DeadlineExceeded)
    /\ warnings (calls (run h (WaitForTablets gw tabletTypesToWait) w))
       = match waitError (calls (run h (WaitForTablets gw tabletTypesToWait) w)) with
         | Some DeadlineExceeded =>
             ["Timeout waiting for all keyspaces / shards to have healthy tablets of types %v, may be in degraded mode"]
         | _ => []
         end.
Proof.
  unfold WaitForTablets, mbind, Prog_bind.
  case_bool_decide as Hlen.
  { cbn. exists None. split; [reflexivity|]. split; [discriminate|].
    split; [tauto | reflexivity]. }
  cbn [bind run].
  destruct (h (CFindAllTargetsAndKeyspaces tabletTypesToWait) w)
    as [[[targets keyspaces] e1] w1].
  destruct e1 as [e1|].
  { destruct e1; cbn;
      try destruct (h (CLogWarningf _) w1);
      (eexists; split; [reflexivity|]; split; [discriminate|]; split; [|reflexivity];
       split; [try discriminate; auto | intros [? | ?]; try discriminate; auto]). }
  cbn [bind run].
  destruct (h (CWaitForAllServingTablets targets) w1) as [e2 w2].
  destruct e2 as [e2|].
  { destruct e2; cbn;
      try destruct (h (CLogWarningf _) w2);
      (eexists; split; [reflexivity|]; split; [discriminate|]; split; [|reflexivity];
       split; [try discriminate; auto | intros [? | ?]; try discriminate; auto]). }
  destruct (bool_decide (PRIMARY ∈ tabletTypesToWait) && kev gw).
  2:{ cbn. exists None. split; [reflexivity|]. split; [discriminate|].
      split; [tauto | reflexivity]. }
  cbn [bind run].
  destruct (h (CWaitForConsistentKeyspaces keyspaces) w2) as [e3 w3].
  destruct e3 as [e3|].
  { destruct e3; cbn;
      try destruct (h (CLogWarningf _) w3);
      (eexists; split; [reflexivity|]; split; [discriminate|]; split; [|reflexivity];
       split; [try discriminate; auto | intros [? | ?]; try discriminate; auto]). }
  cbn. exists None. split; [reflexivity|]. split; [discriminate|].
  split; [tauto | reflexivity].
Qed.

Lemma WaitForTablets_deferred_steps (err : error) (v : W) :
  waitSteps (calls (run h (WaitForTablets_deferred err) v)) = [].
Proof.
  destruct err as [[]|]; cbn; try reflexivity.
  destruct (h (CLogWarningf _) v); reflexivity.
Qed.

Lemma waitSteps_app (log1 log2 : list Entry) :
  waitSteps (log1 ++ log2) = waitSteps log1 ++ waitSteps log2.
Proof. apply omap_app. Qed.

(** The waiting calls of a run, as the code orders them. *)
Lemma WaitForTablets_steps :
  waitSteps (calls (run h (WaitForTablets gw tabletTypesToWait) w)) =
  if bool_decide (length tabletTypesToWait = 0%nat) then []
  else
    let '(targets, keyspaces, e1, w1) := h (CFindAllTargetsAndKeyspaces tabletTypesToWait) w in
    FoundTargets e1 ::
    match e1 with
    | Some _ => []
    | None =>
        let '(e2, w2) := h (CWaitForAllServingTablets targets) w1 in
        ServingTablets e2 ::
        match e2 with
        | Some _ => []
        | None =>
            if bool_decide (PRIMARY ∈ tabletTypesToWait) && kev gw
            then [ConsistentKeyspaces (h (CWaitForConsistentKeyspaces keyspaces) w2).1]
            else []
        end
    end.
Proof.
  unfold WaitForTablets, mbind, Prog_bind. rewrite run_bind.
  case_bool_decide as Hlen.
  { cbn [run]. pose proof (WaitForTablets_deferred_steps None w) as Hd.
    destruct (run h (WaitForTablets_deferred None) w) as [[r v] log].
    unfold calls in *; cbn in *. exact Hd. }
  cbn [run].
  destruct (h (CFindAllTargetsAndKeyspaces tabletTypesToWait) w)
    as [[[targets keyspaces] e1] w1].
  destruct e1 as [e1|].
  { cbn [run]. pose proof (WaitForTablets_deferred_steps (Some e1) w1) as Hd.
    destruct (run h (WaitForTablets_deferred (Some e1)) w1) as [[r v] log].
    unfold calls, waitSteps in *; cbn in *. rewrite ?omap_app, ?Hd; cbn; rewrite ?Hd; reflexivity. }
  cbn [run].
  destruct (h (CWaitForAllServingTablets targets) w1) as [e2 w2].
  destruct e2 as [e2|].
  { cbn [run]. pose proof (WaitForTablets_deferred_steps (Some e2) w2) as Hd.
    destruct (run h (WaitForTablets_deferred (Some e2)) w2) as [[r v] log].
    unfold calls, waitSteps in *; cbn in *. rewrite ?omap_app, ?Hd; cbn; rewrite ?Hd; reflexivity. }
  destruct (bool_decide (PRIMARY ∈ tabletTypesToWait) && kev gw).
  2:{ cbn [run]. pose proof (WaitForTablets_deferred_steps None w2) as Hd.
      destruct (run h (WaitForTablets_deferred None) w2) as [[r v] log].
      unfold calls, waitSteps in *; cbn in *. rewrite ?omap_app, ?Hd; cbn; rewrite ?Hd; reflexivity. }
  cbn [run].
  destruct (h (CWaitForConsistentKeyspaces keyspaces) w2) as [e3 w3].
  pose proof (WaitForTablets_deferred_steps e3 w3) as Hd.
  destruct (run h (WaitForTablets_deferred e3) w3) as [[r v] log].
  unfold calls, waitSteps in *; cbn in *. rewrite ?omap_app, ?Hd; cbn; rewrite ?Hd; reflexivity.
Qed.

(** X19: the waiting calls of WaitForTablets come in a fixed order and each
    only after the one before succeeded: nothing is called for an empty
    list of types; the topology lookup comes first; the health check is
    waited on second, after the lookup answered nil; the keyspace event
    watcher is waited on third, after both answered nil, and only if
    PRIMARY is among the types and the gateway has a watcher. *)
Theorem WaitForTablets_waits_in_order (i : nat) (step : WaitStep) :
  waitSteps (calls (run h (WaitForTablets gw tabletTypesToWait) w)) !! i = Some step ->
  tabletTypesToWait <> []
  /\ match step with
     | FoundTargets _ => i = 0%nat
     | ServingTablets _ =>
         i = 1%nat
         /\ waitSteps (calls (run h (WaitForTablets gw tabletTypesToWait) w)) !! 0%nat
            = Some (FoundTargets None)
     | ConsistentKeyspaces _ =>
         i = 2%nat
         /\ waitSteps (calls (run h (WaitForTablets gw tabletTypesToWait) w)) !! 0%nat
            = Some (FoundTargets None)
         /\ waitSteps (calls (run h (WaitForTablets gw tabletTypesToWait) w)) !! 1%nat
            = Some (ServingTablets None)
         /\ PRIMARY ∈ tabletTypesToWait /\ kev gw = true
     end.
Proof.
  rewrite WaitForTablets_steps.
  case_bool_decide as Hlen; [discriminate|].
  assert (Hne : tabletTypesToWait <> []) by (intros ->; apply Hlen; reflexivity).
  destruct (h (CFindAllTargetsAndKeyspaces tabletTypesToWait) w)
    as [[[targets keyspaces] e1] w1].
  destruct e1 as [e1|].
  { destruct i as [| [| i]]; cbn; intros [= <-]; auto. }
  destruct (h (CWaitForAllServingTablets targets) w1) as [e2 w2].
  destruct e2 as [e2|].
  { destruct i as [| [| [| i]]]; cbn; intros [= <-]; auto. }
  destruct (bool_decide (PRIMARY ∈ tabletTypesToWait) && kev gw) eqn:Hcond.
  - apply andb_true_iff in Hcond as [Hprimary%bool_decide_eq_true Hkev].
    destruct i as [| [| [| i]]]; cbn; intros [= <-]; auto 6.
  - destruct i as [| [| [| i]]]; cbn; intros [= <-]; auto.
Qed.

Lemma waitAnswers_steps (log : list Entry) :
  omap waitAnswer log
  = (fun s => match s with
              | FoundTargets e | ServingTablets e | ConsistentKeyspaces e => e
              end) <$> waitSteps log.
Proof.
  unfold waitSteps. induction log as [| [c r] l IH]; [reflexivity|].
  destruct c; cbn; rewrite ?IH; try reflexivity; cbn; f_equal; exact IH.
Qed.

(** X20: the first waiting call of WaitForTablets that answers an error is
    its last waiting call, and that error is the one the wait ended with. *)
Theorem WaitForTablets_stops_at_first_error (i : nat) (step : WaitStep) (e : Error) :
  waitSteps (calls (run h (WaitForTablets gw tabletTypesToWait) w)) !! i = Some step ->
  step = FoundTargets (Some e) \/ step = ServingTablets (Some e)
  \/ step = ConsistentKeyspaces (Some e) ->
  S i = length (waitSteps (calls (run h (WaitForTablets gw tabletTypesToWait) w)))
  /\ waitError (calls (run h (WaitForTablets gw tabletTypesToWait) w)) = Some e.
Proof.
  unfold waitError. rewrite waitAnswers_steps, WaitForTablets_steps.
  case_bool_decide as Hlen; [discriminate|].
  destruct (h (CFindAllTargetsAndKeyspaces tabletTypesToWait) w)
    as [[[targets keyspaces] e1] w1].
  destruct e1 as [e1|].
  { destruct i as [| [| i]]; cbn; intros [= <-] [Hs | [Hs | Hs]]; inversion Hs; auto. }
  destruct (h (CWaitForAllServingTablets targets) w1) as [e2 w2].
  destruct e2 as [e2|].
  { destruct i as [| [| [| i]]]; cbn; intros [= <-] [Hs | [Hs | Hs]]; inversion Hs; auto. }
  destruct (bool_decide (PRIMARY ∈ tabletTypesToWait) && kev gw).
  - destruct i as [| [| [| i]]]; cbn; intros [= <-] [Hs | [Hs | Hs]]; inversion Hs; auto.
  - destruct i as [| [| [| i]]]; cbn; intros [= <-] [Hs | [Hs | Hs]]; inversion Hs; auto.
Qed.

(** X21: for a non-empty list of types WaitForTablets asks the topology;
    when that succeeds it waits for the serving tablets; when that succeeds
    too, PRIMARY is among the types and the gateway has a watcher, it waits
    for consistent keyspaces and returns what that wait answered, with
    DeadlineExceeded turned into nil. *)
Theorem WaitForTablets_waits_for_every_stage :
  tabletTypesToWait <> [] ->
  exists e1 : error,
    waitSteps (calls (run h (WaitForTablets gw tabletTypesToWait) w)) !! 0%nat
    = Some (FoundTargets e1)
    /\ (e1 = None ->
        exists e2 : error,
          waitSteps (calls (run h (WaitForTablets gw tabletTypesToWait) w)) !! 1%nat
          = Some (ServingTablets e2)
          /\ (e2 = None -> PRIMARY ∈ tabletTypesToWait -> kev gw = true ->
              exists e3 : error,
                waitSteps (calls (run h (WaitForTablets gw tabletTypesToWait) w)) !! 2%nat
                = Some (ConsistentKeyspaces e3)
                /\ result (run h (WaitForTablets gw tabletTypesToWait) w)
                   = Some (match e3 with Some DeadlineExceeded => None | _ => e3 end))).
Proof.
  intros Hne. rewrite WaitForTablets_result. unfold waitError.
  rewrite waitAnswers_steps, WaitForTablets_steps.
  case_bool_decide as Hlen.
  { destruct tabletTypesToWait; [contradiction | discriminate]. }
  destruct (h (CFindAllTargetsAndKeyspaces tabletTypesToWait) w)
    as [[[targets keyspaces] e1] w1].
  exists e1. split; [reflexivity|]. intros ->.
  destruct (h (CWaitForAllServingTablets targets) w1) as [e2 w2].
  exists e2. split; [reflexivity|]. intros -> Hprimary Hkev.
  rewrite bool_decide_eq_true_2, Hkev by exact Hprimary. cbn.
  eexists. split; [reflexivity|].
  destruct (h (CWaitForConsistentKeyspaces keyspaces) w2) as [[[]|] w3]; reflexivity.
Qed.

(** X22: WaitForTablets asks the topology for the types it was given, waits
    on the health check for exactly the targets the topology answered and
    on the watcher for exactly the keyspaces it answered; it logs a warning
    only after a wait that ended with DeadlineExceeded and makes no other
    call. *)
Theorem WaitForTablets_passes_topology_answer (e : Entry) :
  e ∈ calls (run h (WaitForTablets gw tabletTypesToWait) w) ->
  match callOf e with
  | CFindAllTargetsAndKeyspaces tabletTypes => tabletTypes = tabletTypesToWait
  | CWaitForAllServingTablets targets =>
      targets = (h (CFindAllTargetsAndKeyspaces tabletTypesToWait) w).1.1.1
  | CWaitForConsistentKeyspaces keyspaces =>
      keyspaces = (h (CFindAllTargetsAndKeyspaces tabletTypesToWait) w).1.1.2
  | CLogWarningf _ => waitError (calls (run h (WaitForTablets gw tabletTypesToWait) w))
                      = Some DeadlineExceeded
  | _ => False
  end.
Proof.
  unfold WaitForTablets, mbind, Prog_bind.
  case_bool_decide as Hlen.
  { cbn. intros Hin. apply elem_of_nil in Hin. contradiction. }
  cbn [bind run].
  destruct (h (CFindAllTargetsAndKeyspaces tabletTypesToWait) w)
    as [[[targets keyspaces] e1] w1].
  destruct e1 as [e1|].
  { destruct e1; cbn; try destruct (h (CLogWarningf _) w1); unfold calls; cbn;
      intros Hin; repeat (apply elem_of_cons in Hin as [-> | Hin]; [cbn; auto|]);
      apply elem_of_nil in Hin; contradiction. }
  cbn [bind run].
  destruct (h (CWaitForAllServingTablets targets) w1) as [e2 w2].
  destruct e2 as [e2|].
  { destruct e2; cbn; try destruct (h (CLogWarningf _) w2); unfold calls; cbn;
      intros Hin; repeat (apply elem_of_cons in Hin as [-> | Hin]; [cbn; auto|]);
      apply elem_of_nil in Hin; contradiction. }
  destruct (bool_decide (PRIMARY ∈ tabletTypesToWait) && kev gw).
  2:{ unfold calls; cbn.
      intros Hin; repeat (apply elem_of_cons in Hin as [-> | Hin]; [cbn; auto|]);
      apply elem_of_nil in Hin; contradiction. }
  cbn [bind run].
  destruct (h (CWaitForConsistentKeyspaces keyspaces) w2) as [e3 w3].
  destruct e3 as [e3|].
  { destruct e3; cbn; try destruct (h (CLogWarningf _) w3); unfold calls; cbn;
      intros Hin; repeat (apply elem_of_cons in Hin as [-> | Hin]; [cbn; auto|]);
      apply elem_of_nil in Hin; contradiction. }
  unfold calls; cbn.
  intros Hin; repeat (apply elem_of_cons in Hin as [-> | Hin]; [cbn; auto|]);
  apply elem_of_nil in Hin; contradiction.
Qed.

End Waiting.

(** ** Decorating errors *)

Section ShardError.
Context `{Ext : Externals}.

(** X23: NewShardError returns nil exactly when it is given nil, and for a
    given target different errors stay different: the decoration neither
    hides nor invents an error. *)
Theorem NewShardError_keeps_the_error (in1 in2 : error) (target : option Target) :
  (NewShardError in1 target = None <-> in1 = None)
  /\ (NewShardError in1 target = NewShardError in2 target -> in1 = in2).
Proof.
  split.
  - destruct in1, target; cbn; split; intros; congruence.
  - destruct in1, in2, target; cbn; intros; congruence.
Qed.

End ShardError.

(** ** The status aggregators *)

Section AggregatorProperties.
Context {TabletStatusAggregator : Type}.
Context (TabletTypeString : TabletType -> string).
Context (NewTabletStatusAggregator :
           string -> string -> TabletType -> string -> TabletStatusAggregator).
Context (UpdateQueryInfo :
           string -> TabletType -> Z -> bool -> TabletStatusAggregator -> TabletStatusAggregator).

#[local] Abbreviation key := (aggregatorKey TabletTypeString).
#[local] Abbreviation get := (getStatsAggregator TabletTypeString NewTabletStatusAggregator).
#[local] Abbreviation update :=
  (updateStats TabletTypeString NewTabletStatusAggregator UpdateQueryInfo).

Lemma getStatsAggregator_ok (s : Aggregators) (target : Target) :
  aggregators_ok s ->
  aggregators_ok (get s target).2
  /\ statusAggregators (get s target).2 !! key target = Some (get s target).1
  /\ (forall k : string, k <> key target ->
        statusAggregators (get s target).2 !! k = statusAggregators s !! k)
  /\ (forall p : nat, (p < length (heap s))%nat -> heap (get s target).2 !! p = heap s !! p)
  /\ match statusAggregators s !! key target with
     | Some p => get s target = (p, s)
     | None =>
         (get s target).1 = length (heap s)
         /\ heap (get s target).2 !! (get s target).1
            = Some (NewTabletStatusAggregator (Keyspace target) (Shard target)
                      (TabletType_ target) (key target))
     end.
Proof.
  intros [Halloc Hinj]. unfold getStatsAggregator.
  destruct (statusAggregators s !! key target) as [p|] eqn:Hk; cbn [fst snd].
  - split; [split; assumption|]. split; [exact Hk|]. split; [reflexivity|].
    split; reflexivity.
  - unfold aggregators_ok. cbn [heap statusAggregators]. split; [split|].
    + intros k p. rewrite length_app; cbn [length].
      destruct (decide (k = key target)) as [-> | Hne].
      * rewrite lookup_insert_eq. intros [= <-]. lia.
      * rewrite lookup_insert_ne by congruence. intros Hp%Halloc. lia.
    + intros k1 k2 p.
      destruct (decide (k1 = key target)) as [-> | Hne1];
        destruct (decide (k2 = key target)) as [-> | Hne2];
        rewrite ?lookup_insert_eq, ?lookup_insert_ne by congruence.
      * reflexivity.
      * intros [= <-] Hp%Halloc. lia.
      * intros Hp%Halloc [= <-]. lia.
      * apply Hinj.
    + split; [apply lookup_insert_eq|]. split.
      * intros k Hne. apply lookup_insert_ne. congruence.
      * split; [intros p Hp; apply lookup_app_l; exact Hp|].
        split; [reflexivity|]. rewrite lookup_app_r by lia.
        rewrite Nat.sub_diag. reflexivity.
Qed.

(** X24: on a map in which every registered address is allocated and no two
    keys share an aggregator, getStatsAggregator returns the aggregator
    registered under the key of its target, registering a new one, built
    from the target and the key, if there was none; every aggregator
    registered before stays registered under its key, at its address and
    with its contents; no other key is registered; and the map is again one
    in which no two keys share an aggregator. *)
Theorem getStatsAggregator_gets_or_creates (s : Aggregators) (target : Target) :
  aggregators_ok s ->
  aggregators_ok (get s target).2
  /\ statusAggregators (get s target).2 !! key target = Some (get s target).1
  /\ (forall (k : string) (p : nat),
        statusAggregators s !! k = Some p ->
        statusAggregators (get s target).2 !! k = Some p
        /\ heap (get s target).2 !! p = heap s !! p)
  /\ (forall k : string, k <> key target ->
        statusAggregators (get s target).2 !! k = statusAggregators s !! k)
  /\ (statusAggregators s !! key target = None ->
      aggregatorOf (get s target).2 (key target)
      = Some (NewTabletStatusAggregator (Keyspace target) (Shard target)
                (TabletType_ target) (key target))).
Proof.
  intros Hok. destruct (getStatsAggregator_ok s target Hok)
    as (Hok' & Hkey & Hother & Hheap & Hcase).
  split; [exact Hok'|]. split; [exact Hkey|]. split; [|split; [exact Hother|]].
  - intros k p Hk. split; [|apply Hheap, (proj1 Hok k p Hk)].
    destruct (decide (k = key target)) as [-> | Hne]; [|rewrite Hother; assumption].
    rewrite Hk in Hcase. rewrite Hcase. exact Hk.
  - intros Hnone. rewrite Hnone in Hcase. destruct Hcase as [_ Hnew].
    unfold aggregatorOf. rewrite Hkey. exact Hnew.
Qed.

(** X25: targets are told apart by their key only: once an aggregator was
    obtained for a target, asking for a target with the same key returns
    the same aggregator and changes nothing. *)
Theorem getStatsAggregator_shares_by_key (s : Aggregators) (target1 target2 : Target) :
  key target1 = key target2 ->
  get (get s target1).2 target2 = ((get s target1).1, (get s target1).2).
Proof.
  intros Hkey. unfold getStatsAggregator at 1. rewrite <- Hkey.
  unfold getStatsAggregator.
  destruct (statusAggregators s !! key target1) as [p|] eqn:Hk; cbn [fst snd].
  - rewrite Hk. reflexivity.
  - cbn [statusAggregators]. rewrite lookup_insert_eq. reflexivity.
Qed.

(** X26: updateStats applies UpdateQueryInfo, with an empty address, the
    target's tablet type, the elapsed time and whether the error is
    non-nil, to the aggregator of the target's key (a new one if none was
    registered) and leaves the aggregator of every other key as it was. *)
Theorem updateStats_updates_one_aggregator (s : Aggregators) (target : Target)
    (elapsed : Z) (err : error) :
  aggregators_ok s ->
  aggregators_ok (update s target elapsed err)
  /\ aggregatorOf (update s target elapsed err) (key target)
     = Some (UpdateQueryInfo "" (TabletType_ target) elapsed (bool_decide (err <> None))
               (default (NewTabletStatusAggregator (Keyspace target) (Shard target)
                           (TabletType_ target) (key target))
                        (aggregatorOf s (key target))))
  /\ (forall k : string, k <> key target ->
        aggregatorOf (update s target elapsed err) k = aggregatorOf s k).
Proof.
  intros Hok. destruct (getStatsAggregator_ok s target Hok)
    as (Hok' & Hkey & Hother & Hheap & Hcase).
  unfold updateStats. destruct (get s target) as [p s1] eqn:Hget. cbn [fst snd] in *.
  split; [|split].
  - destruct Hok' as [Halloc Hinj]. split; cbn [heap statusAggregators].
    + intros k q Hq. rewrite length_alter. exact (Halloc k q Hq).
    + exact Hinj.
  - unfold aggregatorOf; cbn [heap statusAggregators]. rewrite Hkey. cbn.
    rewrite list_lookup_alter_eq.
    destruct (statusAggregators s !! key target) as [q|] eqn:Hk.
    + injection Hcase as -> ->. cbn.
      destruct (heap s !! q) as [a|] eqn:Ha; [reflexivity|].
      apply lookup_ge_None in Ha. pose proof (proj1 Hok _ _ Hk). lia.
    + destruct Hcase as [_ ->]. reflexivity.
  - intros k Hne. unfold aggregatorOf; cbn [heap statusAggregators].
    rewrite (Hother k Hne).
    destruct (statusAggregators s !! k) as [q|] eqn:Hk; [|reflexivity]. cbn.
    assert (Hq : q <> p).
    { intros ->. apply Hne. apply (proj2 Hok' k (key target) p); [|exact Hkey].
      rewrite Hother; assumption. }
    rewrite list_lookup_alter_ne by congruence.
    apply Hheap, (proj1 Hok _ _ Hk).
Qed.

End AggregatorProperties.

(** ** The properties at concrete inputs *)

Import Sample.

Lemma handler_rng_ok (bufferGivesUp : bool) (healthy : list TabletHealth) :
  rng_ok (handler bufferGivesUp healthy).
Proof. intros n w Hn. cbn. apply Z.mod_pos_bound. exact Hn. Qed.

Lemma handler_pick_ok (bufferGivesUp : bool) (healthy : list TabletHealth) :
  pick_ok (handler bufferGivesUp healthy).
Proof.
  intros t l w th Hth. cbn in Hth. destruct l as [| x l]; [discriminate|].
  injection Hth as <-. left.
Qed.

Lemma fleet_connected (th : TabletHealth) : th ∈ fleet -> Conn th <> None.
Proof.
  intros Hth.
  apply elem_of_cons in Hth as [-> | Hth]; [discriminate|].
  apply elem_of_cons in Hth as [-> | Hth]; [discriminate|].
  apply elem_of_nil in Hth. contradiction.
Qed.

(** Two candidates that both fail retryably, three iterations allowed: the
    dispatch returns the decorated error of the second attempt. *)
Lemma withRetry_all_retryable_witness :
  returned (run (steady fleet) (withRetry noFlags gateway primary false) 0%nat)
  = Some (NewShardError (Some (netError health3)) (Some primary)).
Proof.
  destruct (withRetry_all_retryable (steady fleet) noFlags gateway primary false fleet 0%nat
              (handler_rng_ok false fleet) (handler_pick_ok false fleet))
    as (gw' & e & Hres & _ & _ & _ & _ & Hlast).
  - vm_compute. discriminate.
  - intros t v. reflexivity.
  - intros t th v. reflexivity.
  - assert (He : e = NewShardError (Some (netError health3)) (Some primary));
      [|unfold returned; rewrite Hres, He; reflexivity].
    apply Hlast.
    + exact fleet_connected.
    + intros t th v. discriminate.
    + intros keyspace shard prev v. cbn. destruct prev; reflexivity.
    + vm_compute. reflexivity.
Defined.

(** C1 as stated fails: the candidates are fixed and fewer than the
    iterations allowed, every attempt answers canRetry = true, and yet the
    dispatch on a PRIMARY target does not return the decorated error of its
    last attempt: the second iteration's buffer check fails and its error,
    wrapped, is what comes back. *)
Lemma withRetry_buffer_error_replaces_attempt_error :
  Z.of_nat (length fleet) <= retryLimit gateway
  /\ (forall (t : Target) (v : nat),
        (failing fleet (CGetHealthyTabletStats t) v).1 = fleet)
  /\ (forall (t : Target) (th : TabletHealth) (v : nat),
        (failing fleet (CInner t th) v).1.1 = true)
  /\ lastAttemptError
       (calls (run (failing fleet) (withRetry noFlags gateway primary false) 0%nat))
     = Some (Some (netError health1))
  /\ returned (run (failing fleet) (withRetry noFlags gateway primary false) 0%nat)
     <> Some (NewShardError (Some (netError health1)) (Some primary)).
Proof.
  split; [vm_compute; discriminate|].
  split; [reflexivity|]. split; [reflexivity|].
  split; [vm_compute; reflexivity|].
  vm_compute. discriminate.
Qed.

Lemma iteration_without_healthy_primary_witness :
  exists st2 : LoopState,
    result (run (steady []) (iteration noFlags gateway primary false (loopStart gateway))
              0%nat)
    = Some (Break, st2)
    /\ err st2
       = Some (Errorf Code_UNAVAILABLE "no healthy tablet available for '%s'"
                 [ATarget primary])
    /\ invalidTablets st2 = ∅.
Proof.
  destruct (iteration_without_healthy_primary (steady []) noFlags gateway primary false
              (loopStart gateway) 0%nat eq_refl eq_refl eq_refl)
    as (st1 & st2 & ctl & resharded & after & Hcheck & Hcalls & Hres & Hinv & _ & _ & _ & Hcase).
  assert (Hst1 : st1 = loopStart gateway).
  { vm_compute in Hcheck. injection Hcheck as <-. reflexivity. }
  assert (Hctl : ctl = Break).
  { pose proof Hres as Hrun. vm_compute in Hrun. congruence. }
  assert (Herr : err st2
                 = Some (Errorf Code_UNAVAILABLE "no healthy tablet available for '%s'"
                           [ATarget primary])).
  { destruct resharded.
    - destruct Hcase as (_ & Hcont & _). congruence.
    - destruct Hcase as (seen & shouldBuffer & _ & Hcase).
      destruct shouldBuffer; [destruct Hcase; congruence|].
      destruct seen; destruct Hcase as [Hcont Herr]; [congruence | exact Herr]. }
  subst ctl. exists st2. split; [exact Hres|]. split; [exact Herr|].
  rewrite Hinv, Hst1. reflexivity.
Defined.


Lemma shuffleTablets_partitions_witness :
  exists l' : list TabletHealth,
    result (run (steady fleet) (shuffleTablets "zone1" [health2; health1; health3]) 0%nat)
    = Some l'
    /\ l' ≡ₚ [health2; health1; health3]
    /\ (Alias ∘ Tablet_) <$> l' ≡ₚ (Alias ∘ Tablet_) <$> [health2; health1; health3]
    /\ forall (i j : nat) (ti tj : TabletHealth),
         l' !! i = Some ti -> l' !! j = Some tj ->
         Cell (Alias (Tablet_ ti)) = "zone1" ->
         Cell (Alias (Tablet_ tj)) <> "zone1" ->
         (i < j)%nat.
Proof.
  apply (shuffleTablets_partitions (steady fleet) "zone1" [health2; health1; health3] 0%nat).
  apply handler_rng_ok.
Defined.

Lemma withRetry_transaction_on_replica_witness :
  withRetry noFlags gateway replica true =
    Ret (gateway, Some (Errorf Code_INTERNAL
      "tabletGateway's query service can only be used for non-transactional queries on replicas"
      []))
  /\ forall (W : Type) (h : Handler W) (w : W),
       calls (run h (withRetry noFlags gateway replica true) w) = [].
Proof. apply (withRetry_transaction_on_replica noFlags gateway replica). discriminate. Defined.

Lemma withRetry_disallowed_tablet_type_witness :
  (forall (W : Type) (h : Handler W) (w : W),
     calls (run h (withRetry primaryOnly gateway replica false) w) = [])
  /\ (false = false \/ TabletType_ replica = PRIMARY ->
      withRetry primaryOnly gateway replica false =
        Ret (gateway, Some (Errorf Code_FAILED_PRECONDITION
          "requested tablet type %v is not part of the allowed tablet types for this vtgate: %+v"
          [ATabletType REPLICA; ATabletTypes [PRIMARY]])))
  /\ (false = true /\ TabletType_ replica <> PRIMARY ->
      withRetry primaryOnly gateway replica false =
        Ret (gateway, Some (Errorf Code_INTERNAL
          "tabletGateway's query service can only be used for non-transactional queries on replicas"
          []))).
Proof.
  apply (withRetry_disallowed_tablet_type primaryOnly gateway replica false).
  - discriminate.
  - intros Hin. apply list_elem_of_singleton in Hin. discriminate.
Defined.

(** C6 as stated fails: with the allow-list {PRIMARY}, a dispatch in a
    transaction on a REPLICA target is answered by the first pre-flight
    check, with INTERNAL and not with FAILED_PRECONDITION. *)
Lemma withRetry_transaction_check_comes_first :
  AllowedTabletTypes primaryOnly <> []
  /\ (TabletType_ replica ∉ AllowedTabletTypes primaryOnly)
  /\ withRetry primaryOnly gateway replica true =
       Ret (gateway, Some (Errorf Code_INTERNAL
         "tabletGateway's query service can only be used for non-transactional queries on replicas"
         []))
  /\ forall (format : string) (args : list FmtArg),
       withRetry primaryOnly gateway replica true
       <> Ret (gateway, Some (Errorf Code_FAILED_PRECONDITION format args)).
Proof.
  split; [discriminate|].
  split; [intros Hin; apply list_elem_of_singleton in Hin; discriminate|].
  split; [reflexivity|]. intros format args. discriminate.
Qed.

Lemma withRetry_decorates_loop_error_witness :
  (exists st : LoopState,
     result (run (steady fleet)
               (retryLoop noFlags gateway primary false
                  (Z.to_nat (retryLimit gateway)) (loopStart gateway)) 0%nat) = Some st
     /\ returned (run (steady fleet) (withRetry noFlags gateway primary false) 0%nat)
        = Some (NewShardError (err st) (Some primary))
     /\ NewShardError (err st) (Some primary)
        = match err st with
          | None => None
          | Some e =>
              Some (Wrapf e "target: %s.%s.%s"
                      [AString (Keyspace primary); AString (Shard primary);
                       AString (TabletTypeLString (TabletType_ primary))])
          end)
  /\ (forall t : option Target, NewShardError None t = None)
  /\ (forall e : Error, NewShardError (Some e) None = Some e).
Proof.
  apply (withRetry_decorates_loop_error (steady fleet) noFlags gateway primary false 0%nat).
  - apply handler_rng_ok.
  - left. reflexivity.
  - left. reflexivity.
Defined.

(** C7 as stated fails: a dispatch in a transaction on a REPLICA target ends
    with a non-nil error for a non-nil target, and that error comes back as
    it is, without the target around it. *)
Lemma withRetry_preflight_error_is_not_decorated :
  returned (run (steady fleet) (withRetry noFlags gateway replica true) 0%nat)
  = Some (Some (Errorf Code_INTERNAL
      "tabletGateway's query service can only be used for non-transactional queries on replicas"
      []))
  /\ forall (cause : Error) (format : string) (args : list FmtArg),
       returned (run (steady fleet) (withRetry noFlags gateway replica true) 0%nat)
       <> Some (Some (Wrapf cause format args)).
Proof. split; [reflexivity|]. intros cause format args. discriminate. Qed.

Lemma WaitForTablets_timeout_not_fatal_witness :
  result (run (steady fleet) (WaitForTablets gateway [REPLICA]) 0%nat) = Some None.
Proof.
  apply (WaitForTablets_timeout_not_fatal (steady fleet) gateway [REPLICA] 0%nat).
  - discriminate.
  - reflexivity.
Defined.

Lemma shuffleTablets_in_bounds_witness :
  exists l' : list TabletHealth,
    result (run (steady fleet) (shuffleTablets "zone1" [health2; health1; health3]) 0%nat)
    = Some l'.
Proof.
  apply (shuffleTablets_in_bounds (steady fleet) "zone1" [health2; health1; health3] 0%nat).
  apply handler_rng_ok.
Defined.

Lemma GetServingKeyspaces_nil_watcher_witness :
  GetServingKeyspaces plainGateway = Ret []
  /\ forall (W : Type) (h : Handler W) (w : W),
       run h (GetServingKeyspaces plainGateway) w = (Some [], w, []).
Proof. apply (GetServingKeyspaces_nil_watcher plainGateway). reflexivity. Defined.

(** ** The further properties at concrete inputs *)

Lemma scripted_rng_ok (healthy : list TabletHealth) (resharded canRetry : bool)
    (serving : error) :
  rng_ok (Scenario.scripted healthy resharded canRetry serving).
Proof. intros n w Hn. cbn. apply Z.mod_pos_bound. exact Hn. Qed.

Lemma noAggregators_ok : aggregators_ok SampleStats.noAggregators.
Proof.
  split.
  - intros k p Hk. cbn in Hk. rewrite lookup_empty in Hk. discriminate.
  - intros k1 k2 p Hk. cbn in Hk. rewrite lookup_empty in Hk. discriminate.
Qed.

(** Without watcher and buffer the dispatch of the failing fleet never
    waits on the buffer. *)
Lemma withRetry_leaves_buffer_alone_witness :
  bufferWaits (calls (run (steady fleet) (withRetry noFlags plainGateway primary false) 0%nat))
  = [].
Proof.
  apply (withRetry_leaves_buffer_alone (steady fleet) noFlags plainGateway primary false 0%nat).
  left. reflexivity.
Defined.

Lemma withRetry_leaves_watcher_alone_witness :
  Forall (fun e => ~ isWatcherCall (callOf e))
    (calls (run (steady []) (withRetry noFlags plainGateway primary false) 0%nat)).
Proof.
  apply (withRetry_leaves_watcher_alone (steady []) noFlags plainGateway primary false 0%nat).
  left. reflexivity.
Defined.

(** The first attempt of the failing fleet is on tablet 1, which has a
    connection. *)
Lemma withRetry_attempts_connected_tablets_witness :
  Conn health1 <> None.
Proof.
  apply (withRetry_attempts_connected_tablets (steady fleet) noFlags gateway primary false
           0%nat (health1, (true, Some (netError health1)))).
  apply list_elem_of_lookup. exists 0%nat. vm_compute. reflexivity.
Defined.

(** A retry count of -1: the dispatch returns nil without a call. *)
Lemma withRetry_without_iterations_witness :
  run (steady fleet) (withRetry noFlags Scenario.noRetries replica false) 0%nat
  = (Some (Scenario.noRetries, None), 0%nat, []).
Proof.
  apply (withRetry_without_iterations (steady fleet) noFlags Scenario.noRetries replica false
           0%nat).
  - vm_compute. discriminate.
  - left. reflexivity.
  - left. reflexivity.
Defined.

(** No healthy replica: one lookup and the error, although two retries are
    configured. *)
Lemma withRetry_fails_fast_without_tablets_witness :
  calls (run (steady []) (withRetry noFlags gateway replica false) 0%nat)
  = [entry (CGetHealthyTabletStats replica) []].
Proof.
  rewrite (withRetry_fails_fast_without_tablets (steady []) noFlags gateway replica false
             0%nat).
  - reflexivity.
  - vm_compute. reflexivity.
  - left. reflexivity.
  - left. reflexivity.
  - left. discriminate.
  - reflexivity.
Defined.

(** Two failed attempts, two failures recorded. *)
Lemma withRetry_records_every_attempt_witness :
  stats (calls (run (steady fleet) (withRetry noFlags gateway primary false) 0%nat))
  = [true; true].
Proof.
  rewrite (withRetry_records_every_attempt (steady fleet) noFlags gateway primary false 0%nat
             (handler_rng_ok false fleet)).
  vm_compute. reflexivity.
Defined.

(** Tablets 1 and 3 report collations 33 and 45: the gateway keeps 33 and
    warns once. *)
Lemma withRetry_updates_collation_witness :
  warnings (calls (run (steady fleet) (withRetry noFlags gateway primary false) 0%nat))
  = ["this Vitess cluster has tablets with different default connection collations"].
Proof.
  destruct (withRetry_updates_collation (steady fleet) noFlags gateway primary false 0%nat
              (handler_rng_ok false fleet)) as (e & _ & ->).
  vm_compute. reflexivity.
Defined.

(** The buffer hands back a retryDone on the first wait: it is invoked once. *)
Lemma withRetry_buffers_once_witness :
  retryDones (calls (run (Scenario.scripted fleet false true None)
                       (withRetry noFlags gateway primary false) 0%nat))
  = [tt].
Proof.
  destruct (withRetry_buffers_once (Scenario.scripted fleet false true None) noFlags gateway
              primary false 0%nat (scripted_rng_ok fleet false true None)) as (_ & -> & _).
  vm_compute. reflexivity.
Defined.

(** The buffer that gives up after a failure: its error comes back, with
    the failure of tablet 1 as the original error. *)
Lemma withRetry_buffer_failure_is_final_witness :
  returned (run (failing fleet) (withRetry noFlags gateway primary false) 0%nat)
  = Some (NewShardError (Some (bufferFailure bufferFull (Some (netError health1))))
            (Some primary)).
Proof.
  apply (withRetry_buffer_failure_is_final (failing fleet) noFlags gateway primary false 0%nat
           (Some (netError health1)) false bufferFull (handler_rng_ok true fleet)).
  apply list_elem_of_lookup. exists 1%nat. vm_compute. reflexivity.
Defined.

(** An attempt that may not be retried: its error comes back. *)
Lemma withRetry_stops_at_terminal_attempt_witness :
  returned (run (Scenario.scripted fleet false false None)
              (withRetry noFlags gateway primary false) 0%nat)
  = Some (NewShardError (Some (netError health1)) (Some primary)).
Proof.
  apply (withRetry_stops_at_terminal_attempt (Scenario.scripted fleet false false None)
           noFlags gateway primary false 0%nat 0%nat
           (health1, (false, Some (netError health1)))
           (scripted_rng_ok fleet false false None)).
  - vm_compute. reflexivity.
  - reflexivity.
Defined.

Lemma withRetry_always_returns_witness :
  NoDup (attempted (calls (run (steady fleet) (withRetry noFlags gateway primary false) 0%nat))).
Proof.
  destruct (withRetry_always_returns (steady fleet) noFlags gateway primary false 0%nat
              (handler_rng_ok false fleet) (handler_pick_ok false fleet))
    as (gw' & e & _ & Hnodup & _).
  exact Hnodup.
Defined.

(** A resharding that lasts: three lookups, no attempt, CLUSTER_EVENT. *)
Lemma withRetry_reports_resharding_witness :
  length (lookups (calls (run (Scenario.scripted [] true true None)
                            (withRetry noFlags gateway primary false) 0%nat)))
  = 3%nat.
Proof.
  apply (withRetry_reports_resharding (Scenario.scripted [] true true None) noFlags gateway
           primary false 0%nat).
  - reflexivity.
  - reflexivity.
  - intros v. reflexivity.
  - intros v. reflexivity.
  - intros keyspace shard prev v. reflexivity.
  - vm_compute. reflexivity.
  - left. reflexivity.
Defined.

Lemma pickTablet_shuffle_choice_witness :
  exists p : TabletHealth,
    result (run (steady fleet) (pickTablet noFlags gateway primary (loopStart gateway) fleet)
              0%nat) = Some (Some p)
    /\ sameCell "zone1" p.
Proof.
  destruct (pickTablet_shuffle_choice (steady fleet) noFlags gateway primary
              (loopStart gateway) fleet 0%nat (handler_rng_ok false fleet) eq_refl)
    as (picked & Hres & _ & _ & Hlocal).
  destruct Hlocal as (p & -> & Hp).
  - exists health1. split; [left | split; reflexivity].
  - exists p. split; [exact Hres | exact Hp].
Defined.

Lemma iteration_filters_balancer_candidates_witness :
  exists found : list TabletHealth,
    lookups (calls (run (steady fleet)
                      (iteration Scenario.balancing gateway primary false (loopStart gateway))
                      0%nat)) = [found]
    /\ fleet = List.filter (fun t => negb (isInvalid (loopStart gateway) t)) found.
Proof.
  destruct (iteration_filters_balancer_candidates (steady fleet) Scenario.balancing gateway
              primary false (loopStart gateway) 0%nat fleet (handler_rng_ok false fleet)
              eq_refl)
    as (found & Hlook & Hfil & _).
  - apply list_elem_of_lookup. exists 0%nat. vm_compute. reflexivity.
  - exists found. split; assumption.
Defined.

(** Tablets 1 and 3 of zone1 are tried before tablet 2 of zone2. *)
Lemma withRetry_tries_local_cell_first_witness :
  sameCell "zone1" health1.
Proof.
  apply (withRetry_tries_local_cell_first (steady [health2; health1; health3]) noFlags gateway
           replica false 0%nat 0%nat 1%nat
           (health1, (true, Some (netError health1)))
           (health3, (true, Some (netError health3)))
           [health2; health1; health3] (handler_rng_ok false _)).
  - intros t v. reflexivity.
  - reflexivity.
  - vm_compute. reflexivity.
  - vm_compute. reflexivity.
  - lia.
  - reflexivity.
Defined.

(** The wait for serving tablets comes second. *)
Lemma WaitForTablets_waits_in_order_witness :
  waitSteps (calls (run (steady fleet) (WaitForTablets gateway [REPLICA]) 0%nat)) !! 0%nat
  = Some (FoundTargets None).
Proof.
  apply (WaitForTablets_waits_in_order (steady fleet) gateway [REPLICA] 0%nat 1%nat
           (ServingTablets (Some DeadlineExceeded))).
  vm_compute. reflexivity.
Defined.

Lemma WaitForTablets_stops_at_first_error_witness :
  waitError (calls (run (steady fleet) (WaitForTablets gateway [REPLICA]) 0%nat))
  = Some DeadlineExceeded.
Proof.
  apply (WaitForTablets_stops_at_first_error (steady fleet) gateway [REPLICA] 0%nat 1%nat
           (ServingTablets (Some DeadlineExceeded)) DeadlineExceeded).
  - vm_compute. reflexivity.
  - right. left. reflexivity.
Defined.

(** PRIMARY tablets and a watcher: the cancelled wait for consistent
    keyspaces is what comes back. *)
Lemma WaitForTablets_waits_for_every_stage_witness :
  result (run (Scenario.scripted fleet false true None) (WaitForTablets gateway [PRIMARY])
            0%nat)
  = Some (Some Canceled).
Proof.
  destruct (WaitForTablets_waits_for_every_stage (Scenario.scripted fleet false true None)
              gateway [PRIMARY] 0%nat) as (e1 & H1 & Hnext).
  - discriminate.
  - assert (He1 : e1 = None) by (vm_compute in H1; congruence).
    destruct (Hnext He1) as (e2 & H2 & Hlast).
    assert (He2 : e2 = None) by (vm_compute in H2; congruence).
    destruct (Hlast He2) as (e3 & H3 & Hres).
    + left.
    + reflexivity.
    + assert (He3 : e3 = Some Canceled) by (vm_compute in H3; congruence).
      rewrite Hres, He3. reflexivity.
Defined.

Lemma WaitForTablets_passes_topology_answer_witness :
  [replica] = ((steady fleet) (CFindAllTargetsAndKeyspaces [REPLICA]) 0%nat).1.1.1.
Proof.
  apply (WaitForTablets_passes_topology_answer (steady fleet) gateway [REPLICA] 0%nat
           (entry (CWaitForAllServingTablets [replica]) (Some DeadlineExceeded))).
  apply list_elem_of_lookup. exists 1%nat. vm_compute. reflexivity.
Defined.

(** The first aggregator is created at address 0 under its key. *)
Lemma getStatsAggregator_gets_or_creates_witness :
  aggregatorOf
    (getStatsAggregator SampleStats.typeString SampleStats.new SampleStats.noAggregators
       replica).2
    "commerce/-80/REPLICA"
  = Some (SampleStats.new "commerce" "-80" REPLICA "commerce/-80/REPLICA").
Proof.
  apply (getStatsAggregator_gets_or_creates SampleStats.typeString SampleStats.new
           SampleStats.noAggregators replica noAggregators_ok).
  reflexivity.
Defined.

(** Keyspace a/b with shard c and keyspace a with shard b/c share the
    aggregator built for the first. *)
Lemma getStatsAggregator_shares_by_key_witness :
  (getStatsAggregator SampleStats.typeString SampleStats.new
     (getStatsAggregator SampleStats.typeString SampleStats.new SampleStats.noAggregators
        Scenario.slashed1).2
     Scenario.slashed2).1
  = (getStatsAggregator SampleStats.typeString SampleStats.new SampleStats.noAggregators
       Scenario.slashed1).1.
Proof.
  rewrite (getStatsAggregator_shares_by_key SampleStats.typeString SampleStats.new
             SampleStats.noAggregators Scenario.slashed1 Scenario.slashed2).
  - reflexivity.
  - reflexivity.
Defined.

(** A failed query on a fresh gateway: one query, one error. *)
Lemma updateStats_updates_one_aggregator_witness :
  aggregatorOf
    (updateStats SampleStats.typeString SampleStats.new SampleStats.update
       SampleStats.noAggregators replica 7 (Some (netError health1)))
    "commerce/-80/REPLICA"
  = Some (SampleStats.mkAggr "commerce" "-80" REPLICA "commerce/-80/REPLICA" 1 1).
Proof.
  exact (proj1 (proj2 (updateStats_updates_one_aggregator SampleStats.typeString
                         SampleStats.new SampleStats.update SampleStats.noAggregators
                         replica 7 (Some (netError health1)) noAggregators_ok))).
Defined.
